(** * MobileX mining core: a shallow embedding and its checked properties

    The development follows the C++ sources of the Android mining engine
    (mobile_randomx.cpp, arm64_optimizations.cpp, thermal_verification.cpp,
    android_power_manager.cpp, npu_integration.cpp, shell_mining_jni.cpp).
    Bytes and machine words are integers in [Z] with the wrap-around
    written out, [float] and [double] are IEEE-754 binary32 and binary64
    values of [SpecFloat], and every member function takes the object's
    fields as an explicit record. *)

From Stdlib Require Import ZArith Lia List Bool.
From Stdlib Require Import Floats.SpecFloat.
From stdpp Require Import base list gmap.
Import ListNotations.

(** ** Machine words and byte order *)

Module Word.
Local Open Scope Z_scope.

Definition wrap32 (x : Z) : Z := x mod 2^32.
Definition wrap64 (x : Z) : Z := x mod 2^64.

(** [memcpy] of an integer object into a byte buffer on a little-endian
    target: the least significant byte comes first. *)
Fixpoint le_bytes (n : nat) (x : Z) : list Z :=
  match n with
  | O => []
  | S n' => x mod 256 :: le_bytes n' (x / 256)
  end.

(** [memcpy] of a byte buffer into an integer object (little-endian). *)
Fixpoint le_value (bs : list Z) : Z :=
  match bs with
  | [] => 0
  | b :: bs' => b + 256 * le_value bs'
  end.

(** Big-endian encodings, as SHA-256 uses them. *)
Definition be_bytes (n : nat) (x : Z) : list Z := rev (le_bytes n x).
Definition be_value (bs : list Z) : Z := le_value (rev bs).

(** The value of a 64-bit pattern read as a signed integer. *)
Definition to_int64 (x : Z) : Z :=
  let u := wrap64 x in if u <? 2^63 then u else u - 2^64.

Definition is_byte (b : Z) : Prop := 0 <= b < 256.
End Word.

(** ** SHA-256 (FIPS 180-4), the OpenSSL primitive the sources call *)

Module Sha256.
Import Word.
Local Open Scope Z_scope.

Definition add32 (x y : Z) : Z := wrap32 (x + y).
Definition rotr (n x : Z) : Z :=
  Z.lor (Z.shiftr x n) (wrap32 (Z.shiftl x (32 - n))).
Definition not32 (x : Z) : Z := Z.lxor x 0xffffffff.

Definition Ch (x y z : Z) : Z := Z.lxor (Z.land x y) (Z.land (not32 x) z).
Definition Maj (x y z : Z) : Z :=
  Z.lxor (Z.lxor (Z.land x y) (Z.land x z)) (Z.land y z).
Definition Sigma0 (x : Z) : Z := Z.lxor (Z.lxor (rotr 2 x) (rotr 13 x)) (rotr 22 x).
Definition Sigma1 (x : Z) : Z := Z.lxor (Z.lxor (rotr 6 x) (rotr 11 x)) (rotr 25 x).
Definition sigma0 (x : Z) : Z := Z.lxor (Z.lxor (rotr 7 x) (rotr 18 x)) (Z.shiftr x 3).
Definition sigma1 (x : Z) : Z := Z.lxor (Z.lxor (rotr 17 x) (rotr 19 x)) (Z.shiftr x 10).

(** The round constants: the first 32 bits of the fractional parts of the
    cube roots of the first 64 primes. *)
Definition K : list Z :=
  [
    1116352408; 1899447441; 3049323471; 3921009573;
    961987163; 1508970993; 2453635748; 2870763221;
    3624381080; 310598401; 607225278; 1426881987;
    1925078388; 2162078206; 2614888103; 3248222580;
    3835390401; 4022224774; 264347078; 604807628;
    770255983; 1249150122; 1555081692; 1996064986;
    2554220882; 2821834349; 2952996808; 3210313671;
    3336571891; 3584528711; 113926993; 338241895;
    666307205; 773529912; 1294757372; 1396182291;
    1695183700; 1986661051; 2177026350; 2456956037;
    2730485921; 2820302411; 3259730800; 3345764771;
    3516065817; 3600352804; 4094571909; 275423344;
    430227734; 506948616; 659060556; 883997877;
    958139571; 1322822218; 1537002063; 1747873779;
    1955562222; 2024104815; 2227730452; 2361852424;
    2428436474; 2756734187; 3204031479; 3329325298
  ].

(** The eight working variables / the intermediate hash value. *)
Record regs := Regs { ra : Z; rb : Z; rc : Z; rd : Z; re : Z; rf : Z; rg : Z; rh : Z }.

(** The initial hash value: the fractional parts of the square roots of
    the first eight primes. *)
Definition H0 : regs :=
  Regs 1779033703 3144134277 1013904242 2773480762
       1359893119 2600822924 528734635 1541459225.

(** Padding: a one bit, zero bits up to 56 mod 64, the bit length on 8 bytes. *)
Definition pad (msg : list Z) : list Z :=
  let l := Z.of_nat (length msg) in
  msg ++ [0x80] ++ repeat 0 (Z.to_nat ((55 - l) mod 64)) ++ be_bytes 8 (8 * l).

Fixpoint chunks (size count : nat) (bs : list Z) : list (list Z) :=
  match count with
  | O => []
  | S c => firstn size bs :: chunks size c (skipn size bs)
  end.

(** Message schedule: sixteen block words, then 48 derived ones. *)
Fixpoint extend (n : nat) (w : list Z) : list Z :=
  match n with
  | O => w
  | S n' =>
      let t := length w in
      let at_back k := nth (t - k) w 0 in
      extend n' (w ++ [add32 (add32 (sigma1 (at_back 2%nat)) (at_back 7%nat))
                              (add32 (sigma0 (at_back 15%nat)) (at_back 16%nat))])
  end.

Definition schedule (block : list Z) : list Z :=
  extend 48 (map be_value (chunks 4 16 block)).

Definition round (r : regs) (kw : Z * Z) : regs :=
  let t1 := add32 (add32 (add32 (rh r) (Sigma1 (re r))) (Ch (re r) (rf r) (rg r)))
                  (add32 (fst kw) (snd kw)) in
  let t2 := add32 (Sigma0 (ra r)) (Maj (ra r) (rb r) (rc r)) in
  Regs (add32 t1 t2) (ra r) (rb r) (rc r) (add32 (rd r) t1) (re r) (rf r) (rg r).

Definition compress (h : regs) (block : list Z) : regs :=
  let r := fold_left round (combine K (schedule block)) h in
  Regs (add32 (ra h) (ra r)) (add32 (rb h) (rb r)) (add32 (rc h) (rc r))
       (add32 (rd h) (rd r)) (add32 (re h) (re r)) (add32 (rf h) (rf r))
       (add32 (rg h) (rg r)) (add32 (rh h) (rh r)).

Definition digest (h : regs) : list Z :=
  be_bytes 4 (ra h) ++ be_bytes 4 (rb h) ++ be_bytes 4 (rc h) ++ be_bytes 4 (rd h) ++
  be_bytes 4 (re h) ++ be_bytes 4 (rf h) ++ be_bytes 4 (rg h) ++ be_bytes 4 (rh h).

(** [SHA256(data, len, out)]: the 32 bytes written to [out]. *)
Definition SHA256 (msg : list Z) : list Z :=
  let p := pad msg in
  digest (fold_left compress (chunks 64 (length p / 64) p) H0).
End Sha256.

(** ** IEEE-754 arithmetic of the C++ [float] and [double] types

    Values are [spec_float]s kept in canonical form: every operation below
    ends in the library's rounding to nearest even, as the hardware does. *)

Module IEEE.
Local Open Scope Z_scope.

Section Format.
Variables prec emax : Z.

(** Integer to floating conversion ([static_cast], the usual arithmetic
    conversions, integer-valued literals such as [100.0]). *)
Definition of_Z (z : Z) : spec_float :=
  binary_normalize prec emax z 0 false.

(** Re-rounding of a value of another format into this one; exact when
    the target is the wider one. *)
Definition of_float (x : spec_float) : spec_float :=
  match x with
  | S754_finite s m e => binary_normalize prec emax (cond_Zopp s (Zpos m)) e s
  | _ => x
  end.

(** A value of the format: canonical mantissa, exponent in range. *)
Definition valid (x : spec_float) : Prop :=
  valid_binary prec emax x = true.
End Format.

(** Truncation toward zero of a finite value. *)
Definition trunc (x : spec_float) : Z :=
  match x with
  | S754_finite s m e =>
      cond_Zopp s (if 0 <=? e then Zpos m * 2 ^ e else Zpos m / 2 ^ (- e))
  | _ => 0
  end.

(** [static_cast<uint64_t>] as the ARM64 target performs it (FCVTZU):
    truncation toward zero, NaN to 0, saturation at both ends. *)
Definition to_u64 (x : spec_float) : Z :=
  match x with
  | S754_nan => 0
  | S754_infinity s => if s then 0 else 2^64 - 1
  | _ => Z.max 0 (Z.min (2^64 - 1) (trunc x))
  end.

(** The mantissa [m] shifted left by [k] positions. *)
Definition shl (m : positive) (k : Z) : positive :=
  match k with
  | Zpos p => Pos.iter xO m p
  | _ => m
  end.

(** The number of binary digits of a mantissa. *)
Definition digits (m : positive) : Z := Zpos (digits2_pos m).

(** The normal representation of [(-1)^s * m * 2^e] with [prec] digits,
    for a mantissa of at most [prec] digits. *)
Definition canon (prec : Z) (s : bool) (m : positive) (e : Z) : spec_float :=
  S754_finite s (shl m (prec - digits m)) (e - (prec - digits m)).
End IEEE.

(** [float]: binary32. *)
Module F32.
Definition prec : Z := 24.
Definition emax : Z := 128.
Definition t := spec_float.
Definition add : t -> t -> t := SFadd prec emax.
Definition sub : t -> t -> t := SFsub prec emax.
Definition mul : t -> t -> t := SFmul prec emax.
Definition div : t -> t -> t := SFdiv prec emax.
(** The relational operators; each is false when an operand is NaN. *)
Definition ltb (x y : t) : bool := SFltb x y.
Definition gtb (x y : t) : bool := SFltb y x.
Definition of_Z : Z -> t := IEEE.of_Z prec emax.
Definition to_u64 : t -> Z := IEEE.to_u64.
Definition valid : t -> Prop := IEEE.valid prec emax.
End F32.

(** [double]: binary64. *)
Module F64.
Definition prec : Z := 53.
Definition emax : Z := 1024.
Definition t := spec_float.
Definition add : t -> t -> t := SFadd prec emax.
Definition sub : t -> t -> t := SFsub prec emax.
Definition mul : t -> t -> t := SFmul prec emax.
Definition div : t -> t -> t := SFdiv prec emax.
Definition sqrt : t -> t := SFsqrt prec emax.
Definition abs : t -> t := SFabs.
Definition ltb (x y : t) : bool := SFltb x y.
Definition gtb (x y : t) : bool := SFltb y x.
Definition of_Z : Z -> t := IEEE.of_Z prec emax.
(** The implicit [float] to [double] promotion. *)
Definition of_f32 : F32.t -> t := IEEE.of_float prec emax.
Definition to_u64 : t -> Z := IEEE.to_u64.
End F64.

(** ** AndroidPowerManager (android_power_manager.cpp) *)

Inductive MiningIntensity := DISABLED | LIGHT | MEDIUM | FULL.

(** The stable integer values of the enum class. *)
Definition intensity_code (i : MiningIntensity) : Z :=
match i with DISABLED => 0 | LIGHT => 1 | MEDIUM => 2 | FULL => 3 end.

Module Power.
Local Open Scope Z_scope.

Record AndroidPowerManager := Manager {
  batteryLevel_ : Z;
  isCharging_ : bool;
  currentTemp_ : F32.t;
  canMine_ : bool
}.

(** What [readBatteryLevel], [readChargingState] and [readTemperature]
    returned on one poll of the platform files. *)
Record PowerSnapshot := Snapshot {
  batteryPct : Z;
  charging : bool;
  tempC : F32.t
}.

Definition new_manager : AndroidPowerManager :=
  Manager 100 false (F32.of_Z 30) false.

Definition updateMiningPermission (pm : AndroidPowerManager) : AndroidPowerManager :=
  Manager (batteryLevel_ pm) (isCharging_ pm) (currentTemp_ pm)
          (isCharging_ pm && (80 <=? batteryLevel_ pm) &&
           F32.ltb (currentTemp_ pm) (F32.of_Z 50)).

Definition updatePowerState (snap : PowerSnapshot) (pm : AndroidPowerManager)
  : AndroidPowerManager :=
  updateMiningPermission
    (Manager (batteryPct snap) (charging snap) (tempC snap) (canMine_ pm)).

Definition canStartMining (pm : AndroidPowerManager) : bool := canMine_ pm.

Definition shouldStopMining (pm : AndroidPowerManager) : bool :=
  negb (canMine_ pm) || (batteryLevel_ pm <? 20) ||
  F32.gtb (currentTemp_ pm) (F32.of_Z 50).

Definition determineOptimalIntensity (pm : AndroidPowerManager) : MiningIntensity :=
  if negb (canMine_ pm) then DISABLED
  else if negb (isCharging_ pm) then DISABLED
  else if batteryLevel_ pm <? 80 then DISABLED
  else if F32.gtb (currentTemp_ pm) (F32.of_Z 45) then LIGHT
  else if (95 <? batteryLevel_ pm) && F32.ltb (currentTemp_ pm) (F32.of_Z 40) then FULL
  else if 85 <? batteryLevel_ pm then MEDIUM
  else LIGHT.

Definition setMiningAllowed (allowed : bool) (pm : AndroidPowerManager)
  : AndroidPowerManager :=
  Manager (batteryLevel_ pm) (isCharging_ pm) (currentTemp_ pm) allowed.

(** The decision table of the policy controller, row by row. *)
Definition policy_table (snap : PowerSnapshot) : MiningIntensity :=
  if negb (charging snap) then DISABLED
  else if batteryPct snap <? 80 then DISABLED
  else if F32.gtb (tempC snap) (F32.of_Z 45) then LIGHT
  else if (95 <? batteryPct snap) && F32.ltb (tempC snap) (F32.of_Z 40) then FULL
  else if 85 <? batteryPct snap then MEDIUM
  else LIGHT.

(** A snapshot at a whole number of degrees. *)
Definition snap (b : Z) (c : bool) (t : Z) : PowerSnapshot :=
  Snapshot b c (F32.of_Z t).
End Power.


(** ** ARM64Optimizer (arm64_optimizations.cpp) *)

Module Arm64.
Import Word.
Local Open Scope Z_scope.

Record ARM64Features := Features {
  hasNEON : bool;
  hasSVE : bool;
  hasDotProduct : bool;
  cacheLineSize : Z;
  l2CacheSize : Z
}.

(** [ARM64Features::ARM64Features()]. *)
Definition default_features : ARM64Features :=
  Features false false false 64 (512 * 1024).

(** [detectFeatures]: the ARMv8.2-A feature set is assumed. *)
Definition detectFeatures (f : ARM64Features) : ARM64Features :=
  Features true false true (cacheLineSize f) (l2CacheSize f).

Record ARM64Optimizer := Optimizer {
  features_ : ARM64Features;
  (** whether the translation unit was compiled with [__ARM_NEON] *)
  arm_neon_build : bool
}.

(** [result[i % 32] ^= data[i]] for the bytes of [data], the first of
    which has index [i]. *)
Fixpoint xor_fold (i : nat) (data : list Z) (result : list Z) : list Z :=
  match data with
  | [] => result
  | b :: rest =>
      xor_fold (S i) rest (alter (fun r => Z.lxor r b) (i mod 32)%nat result)
  end.

Definition scalarHash (data : list Z) : list Z :=
  xor_fold 0 data (replicate 32 0).

(** The three NEON intrinsics used: a 16-byte load, a lane-wise exclusive
    or, and a 16-byte store. *)
Definition vld1q_u8 (buf : list Z) (off : nat) : list Z :=
  take 16 (drop off buf).

Definition veorq_u8 (a b : list Z) : list Z :=
  zip_with Z.lxor a b.

Definition vst1q_u8 (buf : list Z) (off : nat) (v : list Z) : list Z :=
  take off buf ++ v ++ drop (off + 16) buf.

(** The chunk loop of [vectorHash], [n] iterations starting at chunk [i]. *)
Fixpoint neon_loop (n i : nat) (data result : list Z) : list Z :=
  match n with
  | O => result
  | S n' =>
      let dataVec := vld1q_u8 data (i * 16) in
      let resultVec := vld1q_u8 result ((i mod 2) * 16) in
      let resultVec := veorq_u8 resultVec dataVec in
      neon_loop n' (S i) data (vst1q_u8 result ((i mod 2) * 16) resultVec)
  end.

Definition vectorHash (a : ARM64Optimizer) (data : list Z) : list Z :=
  if negb (hasNEON (features_ a)) then scalarHash data
  else if arm_neon_build a then
    let chunks := (length data / 16)%nat in
    let result := neon_loop chunks 0 data (replicate 32 0) in
    xor_fold (chunks * 16) (drop (chunks * 16) data) result
  else scalarHash data.

(** [__builtin_bswap32]: the REV instruction. *)
Definition bswap32 (v : Z) : Z :=
  Z.lor (Z.lor (wrap32 (Z.shiftl v 24)) (Z.shiftl (Z.land v 0xff00) 8))
        (Z.lor (Z.land (Z.shiftr v 8) 0xff00) (Z.shiftr v 24)).

(** The body of the loop of [armSpecificHash] on one 32-bit word. *)
Definition arm_word (value : Z) : Z :=
  let value := Z.lor (wrap32 (Z.shiftl value 13)) (Z.shiftr value 19) in
  let value := Z.lxor value (Z.shiftr value 7) in
  let value := Z.lxor value (wrap32 (Z.shiftl value 17)) in
  bswap32 value.

Definition armSpecificHash (state : list Z) : list Z :=
  map arm_word state.
End Arm64.

(** ** MobileXMiner (mobile_randomx.cpp) *)

Module Miner.
Import Word.
Local Open Scope Z_scope.

(** The RandomX cache: its size in bytes and its contents, of which the
    placeholder hash reads at most the first 1024 bytes. *)
Record RandomXCache := Cache { cache_data : list Z; cache_size : Z }.

Record RandomXVM := VM { vm_cache : option RandomXCache; lightMode : bool }.

(** The neural backend behind [NPUIntegration::processNeuralStep]: the
    bytes it writes to [result] when it succeeds. *)
Record NPUIntegration := NPU {
  processNeuralStep : list Z -> option (list Z)
}.

Record MobileXMiner := MinerState {
  mining_ : bool;
  hashesCompleted_ : Z;
  currentIntensity_ : MiningIntensity;
  npuEnabled_ : bool;
  npuInterval_ : Z;
  arm64_ : option Arm64.ARM64Optimizer;
  npu_ : option NPUIntegration;
  randomxVM_ : option RandomXVM
}.

(** What one call of [computeMobileXHash] does: the bytes returned, the
    miner afterwards, and the states handed to the neural backend. *)
Record HashOutcome := Outcome {
  digest : list Z;
  miner_after : MobileXMiner;
  npu_inputs : list (list Z)
}.

(** [MobileXMiner::MobileXMiner()]. *)
Definition new_miner : MobileXMiner :=
  MinerState false 0 MEDIUM true 150 None None None.

(** [initialize] when every component comes up: [neon_build] is the
    compile-time [__ARM_NEON], [backend] the neural backend that answered,
    [cache] the freshly filled RandomX cache. *)
Definition initialize (neon_build : bool) (backend : NPUIntegration)
    (cache : RandomXCache) (m : MobileXMiner) : MobileXMiner :=
  MinerState (mining_ m) (hashesCompleted_ m) (currentIntensity_ m)
    (npuEnabled_ m) (npuInterval_ m)
    (Some (Arm64.Optimizer (Arm64.detectFeatures Arm64.default_features) neon_build))
    (Some backend)
    (Some (VM (Some cache) true)).

Definition set_hashes (m : MobileXMiner) (count : Z) : MobileXMiner :=
  MinerState (mining_ m) count (currentIntensity_ m) (npuEnabled_ m)
    (npuInterval_ m) (arm64_ m) (npu_ m) (randomxVM_ m).

(** [hashesCompleted_.fetch_add(n)] on the 64-bit atomic. *)
Definition fetch_add (n : Z) (m : MobileXMiner) : MobileXMiner :=
  set_hashes m (wrap64 (hashesCompleted_ m + n)).


(** The placeholder RandomX: SHA-256 of the input followed by at most the
    first 1024 bytes of the cache. *)
Definition randomx_calc_hash (vm : RandomXVM) (input : list Z) : list Z :=
  match vm_cache vm with
  | Some c => Sha256.SHA256 (input ++ take (Z.to_nat (Z.min (cache_size c) 1024)) (cache_data c))
  | None => Sha256.SHA256 input
  end.

Definition serializeBlockHeader (header : list Z) : list Z := header.

(** [bytesToUint32s]: declared to return a [std::vector<uint8_t>], it
    copies the buffer with [memcpy] and returns the same bytes. *)
Definition bytesToUint32s (bytes : list Z) : list Z := bytes.

(** [uint32sToBytes]: [memcpy] of the words into a byte vector. *)
Definition uint32sToBytes (data : list Z) : list Z :=
  concat (map (le_bytes 4) data).

(** The loop that mixes the rotating core state into every word. *)
Fixpoint mix_core_state (coreState : Z) (mixed : list Z) : list Z :=
  match mixed with
  | [] => []
  | value :: rest =>
      Z.lxor value coreState ::
      mix_core_state (Z.lor (wrap32 (Z.shiftl coreState 1)) (Z.shiftr coreState 31)) rest
  end.

(** [applyMobileMixing] hands [uint32Data], the [std::vector<uint8_t>]
    that [bytesToUint32s] returned, to [armSpecificHash], which takes a
    [std::vector<uint32_t>], and assigns it to one in the fallback branch:
    C++ has no conversion between the two vector types and the source
    supplies none.  [to_uint32_vector] stands for the conversion a build of
    this function has to add at both places. *)
Definition applyMobileMixing (to_uint32_vector : list Z -> list Z)
    (m : MobileXMiner) (randomxHash : list Z) : list Z :=
  let uint32Data := bytesToUint32s randomxHash in
  let mixed :=
    match arm64_ m with
    | Some _ => Arm64.armSpecificHash (to_uint32_vector uint32Data)
    | None => to_uint32_vector uint32Data
    end in
  let mixed := mix_core_state 0x12345678 mixed in
  let finalBytes := uint32sToBytes mixed in
  Sha256.SHA256 finalBytes.

Definition shouldRunNPU (m : MobileXMiner) : bool :=
  match npuEnabled_ m, npu_ m with
  | true, Some _ => hashesCompleted_ m mod npuInterval_ m =? 0
  | _, _ => false
  end.

(** The fill loop of [runNPUStep]:
    [for (i = 8; i < vmState.size() && i - 8 < stateHash.size(); ++i)]. *)
Fixpoint fill_state (fuel i : nat) (stateHash vmState : list Z) : list Z :=
  match fuel with
  | O => vmState
  | S fuel' =>
      if (i <? length vmState)%nat && (i - 8 <? length stateHash)%nat then
        fill_state fuel' (S i) stateHash
          (<[i := nth ((i - 8) mod length stateHash) stateHash 0]> vmState)
      else vmState
  end.

(** The 2048-byte state [runNPUStep] builds from the hash counter. *)
Definition npu_state (hashCount : Z) : list Z :=
  let vmState := le_bytes 8 hashCount ++ replicate (2048 - 8) 0 in
  let stateHash := Sha256.SHA256 (take 8 vmState) in
  fill_state 2048 8 stateHash vmState.

Definition runNPUStep (m : MobileXMiner) : MobileXMiner * list (list Z) :=
  match npu_ m with
  | None => (m, [])
  | Some npu =>
      let vmState := npu_state (hashesCompleted_ m) in
      match processNeuralStep npu vmState with
      | Some npuResult =>
          if (4 <=? length npuResult)%nat then
            let skip := le_value (take 4 npuResult) mod 1000 in
            (fetch_add skip m, [vmState])
          else (m, [vmState])
      | None => (m, [vmState])
      end
  end.

Definition computeMobileXHash (to_uint32_vector : list Z -> list Z)
    (m : MobileXMiner) (headerBytes : list Z) : HashOutcome :=
  match randomxVM_ m with
  | None => Outcome (replicate 32 0) m []
  | Some vm =>
      let serialized := serializeBlockHeader headerBytes in
      let preprocessed :=
        match arm64_ m with
        | Some a =>
            if Arm64.hasNEON (Arm64.features_ a) then Arm64.vectorHash a serialized
            else serialized
        | None => serialized
        end in
      let vmOutput := randomx_calc_hash vm preprocessed in
      let mixed := applyMobileMixing to_uint32_vector m vmOutput in
      let m := fetch_add 1 m in
      if shouldRunNPU m then
        let (m', calls) := runNPUStep m in Outcome mixed m' calls
      else Outcome mixed m []
  end.

(** *** The mixing stage as the protocol describes it *)

(** Rotation of a 32-bit word to the left by [n] positions. *)
Definition rotl (w : Z) (n : Z) : Z :=
  (w * 2 ^ n) mod 2 ^ 32 + w / 2 ^ (32 - n).

(** The word whose four bytes are those of [w] in the opposite order. *)
Definition byte_reverse (w : Z) : Z :=
  be_value (le_bytes 4 w).

Definition mix_word (w : Z) : Z :=
  let w := rotl w 13 in
  let w := Z.lxor w (w / 2 ^ 7) in
  let w := Z.lxor w ((w * 2 ^ 17) mod 2 ^ 32) in
  byte_reverse w.

(** The core state met by the word at position [i]: 0x12345678 rotated
    left [i] times by one. *)
Definition core_state_at (i : nat) : Z :=
  Nat.iter i (fun c => rotl c 1) 0x12345678.

(** The eight little-endian words of a 32-byte digest. *)
Definition split_words (V : list Z) : list Z :=
  map (fun k => le_value (take 4 (drop (4 * k) V))) (seq 0 8).

(** The state the protocol text prescribes for a neural step: the counter
    on eight little-endian bytes, then its SHA-256 repeated over the
    remaining 2040 bytes. *)
Definition cyclic_state (hashCount : Z) : list Z :=
  let stateHash := Sha256.SHA256 (le_bytes 8 hashCount) in
  le_bytes 8 hashCount ++
  map (fun k => nth (k mod 32) stateHash 0) (seq 0 2040).

(** A backend that always answers, with 2048 zero bytes, and one whose
    answer starts with the little-endian word 123456. *)
Definition idle_backend : NPUIntegration :=
  NPU (fun _ => Some (replicate 2048 0)).

Definition busy_backend : NPUIntegration :=
  NPU (fun _ => Some (le_bytes 4 123456 ++ replicate 2044 0)).

Definition demo_cache : RandomXCache :=
  Cache (replicate 1024 0) (256 * 1024 * 1024).

(** A miner right after a successful [initialize]. *)
Definition fresh_miner : MobileXMiner :=
  initialize true idle_backend demo_cache new_miner.

Definition mobileMix_reference (V : list Z) : list Z :=
  let words := map mix_word (split_words V) in
  let words := imap (fun i w => Z.lxor w (core_state_at i)) words in
  Sha256.SHA256 (concat (map (le_bytes 4) words)).

(** *** The conversion the mixing stage lacks

    The protocol reads the digest as [split_words] does.  The other way
    C++ turns a byte vector into a word vector is element by element,
    [std::vector<uint32_t>(bytes.begin(), bytes.end())]: one word per
    byte, of the same value. *)
Definition one_word_per_byte (bytes : list Z) : list Z := bytes.
End Miner.

(** ** ThermalVerification (thermal_verification.cpp) *)

Module Thermal.
Import Word.
Local Open Scope Z_scope.

Record ThermalProof := Proof {
  cycleCount : Z;
  expectedCycles : Z;
  frequency : Z;
  temperature : F32.t;
  timestamp : Z;
  workHash : list Z
}.

Record ThermalStatistics := Statistics {
  averageTemperature : F32.t;
  minTemperature : F32.t;
  maxTemperature : F32.t;
  stdDevTemperature : F32.t;
  averageFrequency : F64.t;
  sampleCount : Z
}.

Record ARMPMUCounters := Counters {
  cycleCounterSupported_ : bool;
  instructionCounterSupported_ : bool;
  cacheCountersSupported_ : bool
}.

Record ThermalVerification := Verifier {
  baseFrequency_ : Z;
  tolerancePercent_ : F64.t;
  currentTemperature_ : F32.t;
  pmcCounters_ : ARMPMUCounters;
  thermalHistory_ : list ThermalProof
}.

Definition MAX_HISTORY_SIZE : nat := 1000.

(** The clocks of the platform: the successive readings of
    [high_resolution_clock] in nanoseconds and of [system_clock] in
    milliseconds, with the number of readings taken so far. *)
Record Clocks := World {
  hr_clock : nat -> Z;
  hr_reads : nat;
  sys_clock : nat -> Z;
  sys_reads : nat
}.

Definition read_hr (w : Clocks) : Z * Clocks :=
  (hr_clock w (hr_reads w),
   World (hr_clock w) (S (hr_reads w)) (sys_clock w) (sys_reads w)).

Definition getCurrentTimeMs (w : Clocks) : Z * Clocks :=
  (wrap64 (sys_clock w (sys_reads w)),
   World (hr_clock w) (hr_reads w) (sys_clock w) (S (sys_reads w))).

(** [ThermalVerification(baseFreq, tolerance)], defaults 2000 and 5.0. *)
Definition new_verifier (baseFreq : Z) (tolerance : F64.t) : ThermalVerification :=
  Verifier baseFreq tolerance (F32.of_Z 40) (Counters false false false) [].

(** [ARMPMUCounters::initialize]. *)
Definition pmu_initialize (c : ARMPMUCounters) : ARMPMUCounters :=
  Counters true true false.

Definition updateTemperature (t : F32.t) (v : ThermalVerification) : ThermalVerification :=
  Verifier (baseFrequency_ v) (tolerancePercent_ v) t (pmcCounters_ v) (thermalHistory_ v).

(** [initialize], given the temperature [readDeviceTemperature] returned. *)
Definition initialize (initialTemp : F32.t) (v : ThermalVerification) : ThermalVerification :=
  updateTemperature initialTemp
    (Verifier (baseFrequency_ v) (tolerancePercent_ v) (currentTemperature_ v)
              (pmu_initialize (pmcCounters_ v)) (thermalHistory_ v)).

Definition getCurrentTemperature (v : ThermalVerification) : F32.t :=
  currentTemperature_ v.

Definition setTolerancePercent (tolerance : F64.t) (v : ThermalVerification)
  : ThermalVerification :=
  Verifier (baseFrequency_ v) tolerance (currentTemperature_ v) (pmcCounters_ v)
           (thermalHistory_ v).

(** [readCycleCount]: twice the clock reading, computed in [double]. *)
Definition readCycleCount (c : ARMPMUCounters) (w : Clocks) : Z * Clocks :=
  if cycleCounterSupported_ c then
    let (nanos, w) := read_hr w in
    (F64.to_u64 (F64.mul (F64.of_Z nanos) (F64.of_Z 2)), w)
  else (0, w).

Definition sha256Hash (data : list Z) : list Z := Sha256.SHA256 data.

(** [runHalfSpeedHash]: the hash chain it computes; the value is dropped
    by the caller and only the time it took is observed. *)
Definition runHalfSpeedHash (workload : list Z) : list Z :=
  Nat.iter 100 sha256Hash (sha256Hash workload).

Definition calculateExpectedCycles (v : ThermalVerification) (workloadSize : Z) : Z :=
  let baseCycles := wrap64 (workloadSize * 100) in
  let temp := getCurrentTemperature v in
  let thermalMultiplier :=
    if F32.gtb temp (F32.of_Z 45) then
      F64.add (F64.of_Z 1)
        (F64.mul (F64.of_f32 (F32.sub temp (F32.of_Z 45)))
                 (F64.div (F64.of_Z 2) (F64.of_Z 100)))
    else if F32.ltb temp (F32.of_Z 35) then
      F64.sub (F64.of_Z 1)
        (F64.mul (F64.of_f32 (F32.sub (F32.of_Z 35) temp))
                 (F64.div (F64.of_Z 1) (F64.of_Z 100)))
    else F64.of_Z 1 in
  F64.to_u64 (F64.mul (F64.of_Z baseCycles) thermalMultiplier).

Definition encodeProof (proof : ThermalProof) : Z :=
  let tempInt := F32.to_u64 (F32.mul (temperature proof) (F32.of_Z 100)) in
  let data := le_bytes 8 (cycleCount proof) ++ le_bytes 8 (expectedCycles proof) ++
              le_bytes 8 (frequency proof) ++ le_bytes 8 tempInt in
  let hash := sha256Hash data in
  le_value (take 8 hash).

Definition addToHistory (proof : ThermalProof) (v : ThermalVerification)
  : ThermalVerification :=
  let history := thermalHistory_ v ++ [proof] in
  let history :=
    if (MAX_HISTORY_SIZE <? length history)%nat
    then drop (length history - MAX_HISTORY_SIZE) history
    else history in
  Verifier (baseFrequency_ v) (tolerancePercent_ v) (currentTemperature_ v)
           (pmcCounters_ v) history.

(** The [ThermalProof] that [generateThermalProof] fills in. *)
Definition measure (v : ThermalVerification) (w : Clocks) (headerBytes : list Z)
  : ThermalProof * Clocks :=
  let (startCycles, w) := readCycleCount (pmcCounters_ v) w in
  let (startTime, w) := read_hr w in
  let testWorkload := take (Nat.min (length headerBytes) 32) headerBytes in
  let (endCycles, w) := readCycleCount (pmcCounters_ v) w in
  let (endTime, w) := read_hr w in
  let elapsedTime := Z.quot (endTime - startTime) 1000 in
  let cycleDelta := wrap64 (endCycles - startCycles) in
  let elapsedSeconds := F64.div (F64.of_Z elapsedTime) (F64.of_Z 1000000) in
  let effectiveFreq :=
    F64.to_u64 (F64.div (F64.div (F64.of_Z cycleDelta) elapsedSeconds)
                        (F64.of_Z 1000000)) in
  let (now, w) := getCurrentTimeMs w in
  (Proof cycleDelta
         (calculateExpectedCycles v (Z.of_nat (length testWorkload)))
         effectiveFreq
         (getCurrentTemperature v)
         (to_int64 now)
         (take 32 (sha256Hash headerBytes)),
   w).

Definition generateThermalProof (v : ThermalVerification) (w : Clocks)
    (headerBytes : list Z) : Z * ThermalVerification * Clocks :=
  let (proof, w) := measure v w headerBytes in
  (encodeProof proof, addToHistory proof v, w).

Definition serializeHeaderForThermalValidation (headerBytes : list Z) : list Z :=
  if (8 <=? length headerBytes)%nat
  then take (length headerBytes - 8) headerBytes
  else headerBytes.

Definition validateThermalProof (v : ThermalVerification) (w : Clocks)
    (thermalProof : Z) (headerBytes : list Z) : bool * ThermalVerification * Clocks :=
  let validationBytes := serializeHeaderForThermalValidation headerBytes in
  let '(expectedProof, v, w) := generateThermalProof v w validationBytes in
  let toleranceRange :=
    F64.div (F64.mul (F64.of_Z expectedProof) (tolerancePercent_ v)) (F64.of_Z 100) in
  let minAcceptable := F64.to_u64 (F64.sub (F64.of_Z expectedProof) toleranceRange) in
  let maxAcceptable := F64.to_u64 (F64.add (F64.of_Z expectedProof) toleranceRange) in
  ((minAcceptable <=? thermalProof) && (thermalProof <=? maxAcceptable), v, w).

(** [static_cast<int>] of a [size_t] index. *)
Definition int_of_size (i : nat) : Z :=
  let z := wrap32 (Z.of_nat i) in
  if z <? 2 ^ 31 then z else z - 2 ^ 32.

(** The three loops of [detectThermalCheating]. *)
Definition temperature_sum (proofs : list ThermalProof) : F64.t :=
  fold_left (fun sum proof => F64.add sum (F64.of_f32 (temperature proof)))
            proofs (F64.of_Z 0).

Definition temperature_variance (mean : F64.t) (proofs : list ThermalProof) : F64.t :=
  fold_left
    (fun variance proof =>
       let diff := F64.sub (F64.of_f32 (temperature proof)) mean in
       F64.add variance (F64.mul diff diff))
    proofs (F64.of_Z 0).

Definition zScore (mean stdDev : F64.t) (proof : ThermalProof) : F64.t :=
  F64.div (F64.abs (F64.sub (F64.of_f32 (temperature proof)) mean)) stdDev.

Fixpoint outlier_loop (mean stdDev threshold : F64.t) (i : nat)
    (rest : list ThermalProof) (outliers : list Z) : list Z :=
  match rest with
  | [] => outliers
  | proof :: rest' =>
      outlier_loop mean stdDev threshold (S i) rest'
        (if F64.gtb (zScore mean stdDev proof) threshold
         then outliers ++ [int_of_size i]
         else outliers)
  end.

(** [detectThermalCheating], a [const] member: [v] is the verifier it is
    called on, none of whose fields it reads. *)
Definition detectThermalCheating (v : ThermalVerification)
    (proofs : list ThermalProof) (threshold : F64.t) : list Z :=
  if (length proofs <? 10)%nat then []
  else
    let size := F64.of_Z (Z.of_nat (length proofs)) in
    let mean := F64.div (temperature_sum proofs) size in
    let stdDev := F64.sqrt (F64.div (temperature_variance mean proofs) size) in
    outlier_loop mean stdDev threshold 0 proofs [].

(** The values [mean] and [stdDev] hold after the first two loops, and
    the test of the third loop at position [i]. *)
Definition window_mean (proofs : list ThermalProof) : F64.t :=
  F64.div (temperature_sum proofs) (F64.of_Z (Z.of_nat (length proofs))).

Definition window_stddev (proofs : list ThermalProof) : F64.t :=
  F64.sqrt (F64.div (temperature_variance (window_mean proofs) proofs)
                    (F64.of_Z (Z.of_nat (length proofs)))).

Definition suspect (proofs : list ThermalProof) (threshold : F64.t) (i : nat) : bool :=
  match proofs !! i with
  | Some proof =>
      F64.gtb (zScore (window_mean proofs) (window_stddev proofs) proof) threshold
  | None => false
  end.

(** [static_cast<float>] of a [double]. *)
Definition to_float (x : F64.t) : F32.t := IEEE.of_float F32.prec F32.emax x.

(** [std::numeric_limits<float>::max()] and [lowest()]. *)
Definition float_max : F32.t := S754_finite false 16777215 104.
Definition float_lowest : F32.t := S754_finite true 16777215 104.

(** [std::min(a, b)] and [std::max(a, b)] on [float]. *)
Definition float_min (a b : F32.t) : F32.t := if F32.ltb b a then b else a.
Definition float_max_of (a b : F32.t) : F32.t := if F32.ltb a b then b else a.

(** The first loop of [getThermalStatistics]: the totals and the extremes. *)
Definition history_totals (history : list ThermalProof)
  : F64.t * F64.t * F32.t * F32.t :=
  fold_left
    (fun '(totalTemp, totalFreq, minTemp, maxTemp) proof =>
       (F64.add totalTemp (F64.of_f32 (temperature proof)),
        F64.add totalFreq (F64.of_Z (frequency proof)),
        float_min minTemp (temperature proof),
        float_max_of maxTemp (temperature proof)))
    history (F64.of_Z 0, F64.of_Z 0, float_max, float_lowest).

(** Its second loop; the difference is taken in [float]. *)
Definition history_variance (average : F32.t) (history : list ThermalProof) : F64.t :=
  fold_left
    (fun tempVariance proof =>
       let diff := F64.of_f32 (F32.sub (temperature proof) average) in
       F64.add tempVariance (F64.mul diff diff))
    history (F64.of_Z 0).

(** [getThermalStatistics]: the only reader of [thermalHistory_]. *)
Definition getThermalStatistics (v : ThermalVerification) : ThermalStatistics :=
  match thermalHistory_ v with
  | [] => Statistics (F32.of_Z 0) (F32.of_Z 0) (F32.of_Z 0) (F32.of_Z 0) (F64.of_Z 0) 0
  | _ =>
      let '(totalTemp, totalFreq, minTemp, maxTemp) := history_totals (thermalHistory_ v) in
      let count := Z.of_nat (length (thermalHistory_ v)) in
      let average := to_float (F64.div totalTemp (F64.of_Z count)) in
      let tempVariance := history_variance average (thermalHistory_ v) in
      Statistics average minTemp maxTemp
                 (to_float (F64.sqrt (F64.div tempVariance (F64.of_Z count))))
                 (F64.div totalFreq (F64.of_Z count))
                 count
  end.

(** Generation followed by validation of the value obtained, against the
    same header: the verdict of the validation. *)
Definition round_trip (v : ThermalVerification) (w : Clocks) (P : list Z) : bool :=
  let '(proof, v, w) := generateThermalProof v w P in
  let '(ok, _, _) := validateThermalProof v w proof P in
  ok.

(** A verifier after [initialize] at 40 degrees, with the given tolerance. *)
Definition verifier_at_40 (tolerance : Z) : ThermalVerification :=
  initialize (F32.of_Z 40) (new_verifier 2000 (F64.of_Z tolerance)).

(** Clocks that return the listed nanosecond readings in order. *)
Definition clocks_reading (readings : list Z) : Clocks :=
  World (fun k => nth k readings 0) 0 (fun k => 1700000000000 + Z.of_nat k) 0.

(** Two measurements of 150.1 microseconds, identical to the nanosecond. *)
Definition steady_clocks : Clocks :=
  clocks_reading [1000000; 1000100; 1150000; 1150200;
                  5000000; 5000100; 5150000; 5150200].

(** The same, except that the second cycle-counter sample of the second
    measurement comes one nanosecond later. *)
Definition jittery_clocks : Clocks :=
  clocks_reading [1000000; 1000100; 1150000; 1150200;
                  5000000; 5000100; 5150001; 5150200].

(** A proof record carrying a temperature, for building windows. *)
Definition sample (t : F32.t) : ThermalProof :=
  Proof 0 0 0 t 0 (replicate 32 0).

(** A verifier that ran hot after eleven proofs taken at 40 degrees. *)
Definition heated_verifier : ThermalVerification :=
  Verifier 2000 (F64.of_Z 5) (F32.of_Z 60) (Counters true true false)
           (replicate 11 (sample (F32.of_Z 40))).

(** Eleven proofs at 40 degrees followed by one at 60. *)
Definition window_with_outlier : list ThermalProof :=
  replicate 11 (sample (F32.of_Z 40)) ++ [sample (F32.of_Z 60)].

(** Eleven proofs at 40 degrees followed by one at 20. *)
Definition window_with_cold_outlier : list ThermalProof :=
  replicate 11 (sample (F32.of_Z 40)) ++ [sample (F32.of_Z 20)].

(** Every proof of the window carries the temperature [t]. *)
Definition all_at (t : F32.t) (proofs : list ThermalProof) : Prop :=
  Forall (fun proof => temperature proof = t) proofs.
End Thermal.

(** ** The cheat detector as the protocol text states it

    Written from the text, not from the code: over the temperatures of
    the window, as [double]s, the mean and the standard deviation of the
    whole window, and the positions whose z-score [|t - mean| / stddev]
    exceeds the threshold. *)

Module DetectorSpec.
Local Open Scope Z_scope.

Definition total (values : list F64.t) : F64.t :=
  fold_left F64.add values (F64.of_Z 0).

Definition count (values : list F64.t) : F64.t :=
  F64.of_Z (Z.of_nat (length values)).

Definition mean (temps : list F64.t) : F64.t :=
  F64.div (total temps) (count temps).

Definition squared_deviation (temps : list F64.t) (t : F64.t) : F64.t :=
  F64.mul (F64.sub t (mean temps)) (F64.sub t (mean temps)).

Definition stddev (temps : list F64.t) : F64.t :=
  F64.sqrt (F64.div (total (map (squared_deviation temps) temps)) (count temps)).

Definition z_score (temps : list F64.t) (t : F64.t) : F64.t :=
  F64.div (F64.abs (F64.sub t (mean temps))) (stddev temps).

(** Whether the temperature at position [i] is suspect. *)
Definition exceeds (temps : list F64.t) (threshold : F64.t) (i : nat) : bool :=
  match temps !! i with
  | Some t => F64.gtb (z_score temps t) threshold
  | None => false
  end.

(** The suspect positions of a window, in increasing order; none when
    the window has fewer than ten temperatures. *)
Definition suspects (temps : list F64.t) (threshold : F64.t) : list nat :=
  if (length temps <? 10)%nat then []
  else List.filter (exceeds temps threshold) (seq 0 (length temps)).

(** The temperatures of a window of proofs. *)
Definition temperatures (proofs : list Thermal.ThermalProof) : list F64.t :=
  map (fun proof => F64.of_f32 (Thermal.temperature proof)) proofs.
End DetectorSpec.
(** ** The JNI bridge (shell_mining_jni.cpp) *)

Module Jni.
Local Open Scope Z_scope.

(** The lines the bridge itself sends to the Android log. *)
Inductive LogLine :=
| LogCreating
| LogCreateFailed
| LogDestroyed
| LogInvalidPointer
| LogConfiguringNPU
| LogNPUConfigured.

(** The member functions of [AndroidMobileXMiner] that the exported
    functions call on the object behind a handle.  [startMining] receives
    the [jint] as cast to the enumeration; the getters are [const]. *)
Class EngineOps (E : Type) := {
  initialize : E -> bool * E;
  startMining : Z -> E -> bool * E;
  stopMining : E -> bool * E;
  getHashRate : E -> F64.t;
  getRandomXHashRate : E -> F64.t;
  getMobileXHashRate : E -> F64.t;
  getCurrentTemperature : E -> F32.t;
  getNPUUtilization : E -> F32.t;
  isMining : E -> bool;
  generateThermalProof : E -> Z * E
}.

(** The native side of the process: the live engine objects by address,
    and the bridge's log. *)
Record Process (E : Type) := Proc {
  engines : gmap Z E;
  logcat : list LogLine
}.
Arguments Proc {E}.
Arguments engines {E}.
Arguments logcat {E}.

Section Bridge.
Context {E : Type} `{EngineOps E}.

Definition log (line : LogLine) (p : Process E) : Process E :=
  Proc (engines p) (logcat p ++ [line]).

Definition store (ptr : Z) (miner : E) (p : Process E) : Process E :=
  Proc (<[ptr := miner]> (engines p)) (logcat p).

(** Dereferencing a handle that is neither zero nor the address of a live
    engine is undefined: the functions below answer [None] there. *)
Definition deref (ptr : Z) (p : Process E) : option E := engines p !! ptr.

(** [createMiner]: [address] is what [new] returned and [constructed] the
    object the constructor built, [None] when a [std::exception] was
    thrown instead. *)
Definition createMiner (address : Z) (constructed : option E) (p : Process E)
  : Z * Process E :=
  let p := log LogCreating p in
  match constructed with
  | Some miner =>
      let (ok, miner) := initialize miner in
      if ok then (address, store address miner p) else (0, p)
  | None => (0, log LogCreateFailed p)
  end.

Definition destroyMiner (minerPtr : Z) (p : Process E) : option (Process E) :=
  if minerPtr =? 0 then Some p
  else
    match deref minerPtr p with
    | Some _ => Some (log LogDestroyed (Proc (delete minerPtr (engines p)) (logcat p)))
    | None => None
    end.

Definition jni_startMining (minerPtr intensity : Z) (p : Process E)
  : option (bool * Process E) :=
  if minerPtr =? 0 then Some (false, log LogInvalidPointer p)
  else
    match deref minerPtr p with
    | Some miner =>
        let (success, miner) := startMining intensity miner in
        Some (success, store minerPtr miner p)
    | None => None
    end.

Definition jni_stopMining (minerPtr : Z) (p : Process E) : option (bool * Process E) :=
  if minerPtr =? 0 then Some (false, p)
  else
    match deref minerPtr p with
    | Some miner =>
        let (success, miner) := stopMining miner in
        Some (success, store minerPtr miner p)
    | None => None
    end.

(** The shape shared by the read-only exports: a sentinel for the zero
    handle, the engine's answer otherwise. *)
Definition query {R : Type} (sentinel : R) (get : E -> R) (minerPtr : Z)
    (p : Process E) : option R :=
  if minerPtr =? 0 then Some sentinel
  else
    match deref minerPtr p with
    | Some miner => Some (get miner)
    | None => None
    end.

Definition jni_getHashRate : Z -> Process E -> option F64.t :=
  query (F64.of_Z 0) getHashRate.

Definition jni_getRandomXHashRate : Z -> Process E -> option F64.t :=
  query (F64.of_Z 0) getRandomXHashRate.

Definition jni_getMobileXHashRate : Z -> Process E -> option F64.t :=
  query (F64.of_Z 0) getMobileXHashRate.

Definition jni_getCurrentTemperature : Z -> Process E -> option F32.t :=
  query (F32.of_Z 30) getCurrentTemperature.

Definition jni_getNPUUtilization : Z -> Process E -> option F32.t :=
  query (F32.of_Z 0) getNPUUtilization.

Definition jni_isMining : Z -> Process E -> option bool :=
  query false isMining.

Definition jni_generateThermalProof (minerPtr : Z) (p : Process E)
  : option (Z * Process E) :=
  if minerPtr =? 0 then Some (0, p)
  else
    match deref minerPtr p with
    | Some miner =>
        let (proof, miner) := generateThermalProof miner in
        Some (proof, store minerPtr miner p)
    | None => None
    end.

Definition configureNPU (minerPtr : Z) (p : Process E) : Process E :=
  if minerPtr =? 0 then p
  else log LogNPUConfigured (log LogConfiguringNPU p).
End Bridge.

(** An engine reduced to the answers of its getters, for running the
    bridge: it initializes when [probe_ready] holds and mines at the
    intensities 1 to 3. *)
Record ProbeEngine := Probe {
  probe_ready : bool;
  probe_mining : bool;
  probe_rate : F64.t;
  probe_temperature : F32.t;
  probe_utilization : F32.t
}.

Definition probe_set_mining (b : bool) (e : ProbeEngine) : ProbeEngine :=
  Probe (probe_ready e) b (probe_rate e) (probe_temperature e) (probe_utilization e).

#[export] Instance probe_ops : EngineOps ProbeEngine := {
  initialize e := (probe_ready e, e);
  startMining intensity e :=
    if probe_mining e then (true, e)
    else if (1 <=? intensity) && (intensity <=? 3) then (true, probe_set_mining true e)
    else (false, e);
  stopMining e := (true, probe_set_mining false e);
  getHashRate := probe_rate;
  getRandomXHashRate e := F64.mul (probe_rate e) (F64.div (F64.of_Z 7) (F64.of_Z 10));
  getMobileXHashRate e := F64.mul (probe_rate e) (F64.div (F64.of_Z 3) (F64.of_Z 10));
  getCurrentTemperature := probe_temperature;
  getNPUUtilization := probe_utilization;
  isMining := probe_mining;
  generateThermalProof e := (0, e)
}.

Definition no_engines : Process ProbeEngine := Proc ∅ [].
End Jni.

(** ** ThermalVerification, the remaining members *)

Module ThermalMore.
Import Word Thermal.
Local Open Scope Z_scope.

(** [decodeProof], with the clock it reads for the timestamp. *)
Definition decodeProof (v : ThermalVerification) (w : Clocks) (encodedProof : Z)
    (workHash : list Z) : ThermalProof * Clocks :=
  let (now, w) := getCurrentTimeMs w in
  (Proof (Z.land encodedProof 0xFFFFFFFF)
         (Z.land (Z.shiftr encodedProof 32) 0xFFFFFFFF)
         (baseFrequency_ v)
         (getCurrentTemperature v)
         (to_int64 now)
         (if (32 <=? length workHash)%nat then take 32 workHash else replicate 32 0),
   w).

(** A run of [generateThermalProof] over successive headers. *)
Fixpoint generate_all (v : ThermalVerification) (w : Clocks) (headers : list (list Z))
  : ThermalVerification * Clocks :=
  match headers with
  | [] => (v, w)
  | header :: rest =>
      let '(_, v, w) := generateThermalProof v w header in
      generate_all v w rest
  end.
End ThermalMore.

(** ** AndroidPowerManager, the platform readers *)

Module PowerIO.
Import Power.
Local Open Scope Z_scope.

(** The files the readers open, in the order they try them. *)
Inductive CapacityFile :=
| BatteryCapacity | Bat0Capacity | Bat1Capacity | KernelBatteryCapacity.

Inductive OnlineFile := AcOnline | UsbOnline | WirelessOnline.

Inductive ThermalFile := ThermalZone0 | ThermalZone1 | VirtualThermalZone0.

(** The first word of the battery status file. *)
Inductive StatusWord := Charging | Full | OtherStatus.

(** What the platform files hold: [None] for a file that cannot be opened
    or whose content does not parse. *)
Record Sysfs := Files {
  capacity : CapacityFile -> option Z;
  status : option StatusWord;
  online : OnlineFile -> option Z;
  battery_temp : option Z;
  thermal_zone : ThermalFile -> option Z
}.

(** [std::clamp(level, 0, 100)]. *)
Definition clamp (v lo hi : Z) : Z :=
  if v <? lo then lo else if hi <? v then hi else v.

(** The fallback loops: the first readable file of the list wins. *)
Fixpoint first_level (fs : Sysfs) (paths : list CapacityFile) : option Z :=
  match paths with
  | [] => None
  | path :: rest =>
      match capacity fs path with
      | Some level => Some (clamp level 0 100)
      | None => first_level fs rest
      end
  end.

Definition readBatteryLevel (fs : Sysfs) : Z :=
  match capacity fs BatteryCapacity with
  | Some level => clamp level 0 100
  | None =>
      match first_level fs [Bat0Capacity; Bat1Capacity; KernelBatteryCapacity] with
      | Some level => level
      | None => 85
      end
  end.

Fixpoint any_online (fs : Sysfs) (paths : list OnlineFile) : bool :=
  match paths with
  | [] => false
  | path :: rest =>
      match online fs path with
      | Some 1 => true
      | _ => any_online fs rest
      end
  end.

Definition readChargingState (fs : Sysfs) : bool :=
  match status fs with
  | Some Charging | Some Full => true
  | Some OtherStatus => false
  | None => any_online fs [AcOnline; UsbOnline; WirelessOnline]
  end.

Fixpoint first_zone (fs : Sysfs) (paths : list ThermalFile) : option F32.t :=
  match paths with
  | [] => None
  | path :: rest =>
      match thermal_zone fs path with
      | Some tempMilliCelsius =>
          Some (F32.div (F32.of_Z tempMilliCelsius) (F32.of_Z 1000))
      | None => first_zone fs rest
      end
  end.

Definition readTemperature (fs : Sysfs) : F32.t :=
  match battery_temp fs with
  | Some tempTenthsCelsius => F32.div (F32.of_Z tempTenthsCelsius) (F32.of_Z 10)
  | None =>
      match first_zone fs [ThermalZone0; ThermalZone1; VirtualThermalZone0] with
      | Some temp => temp
      | None => F32.of_Z 35
      end
  end.

(** [updatePowerState] on the files as they are. *)
Definition poll (fs : Sysfs) (pm : AndroidPowerManager) : AndroidPowerManager :=
  updatePowerState
    (Snapshot (readBatteryLevel fs) (readChargingState fs) (readTemperature fs)) pm.

(** [initialize]. *)
Definition initialize (fs : Sysfs) : AndroidPowerManager := poll fs new_manager.

(** A platform on which no file can be read. *)
Definition no_files : Sysfs :=
  Files (fun _ => None) None (fun _ => None) None (fun _ => None).

(** A phone on the charger whose status file says "Not charging". *)
Definition plugged_not_charging : Sysfs :=
  Files (fun _ => Some 90) (Some OtherStatus) (fun _ => Some 1) (Some 300) (fun _ => None).
End PowerIO.

(** ** HeterogeneousScheduler (arm64_optimizations.cpp) *)

Module Sched.
Import Word.
Local Open Scope Z_scope.

Record CoreTopology := Topology {
  totalCores : nat;
  bigCores : nat;
  littleCores : nat;
  bigCoreIds : list nat;
  littleCoreIds : list nat
}.

Record HeterogeneousScheduler := Scheduler {
  topology_ : CoreTopology;
  activeCores_ : list bool;
  currentIntensity_ : Z
}.

(** [HeterogeneousScheduler()], on top of [CoreTopology()]. *)
Definition new_scheduler : HeterogeneousScheduler :=
  Scheduler (Topology 0 0 0 [] []) [] 0.

(** [detectCoreTopology]: [android] tells which branch was compiled and
    [concurrency] is what [hardware_concurrency] answered; the identifiers
    are pushed behind those already there. *)
Definition detectCoreTopology (android : bool) (concurrency : nat) (t : CoreTopology)
  : CoreTopology :=
  if android then
    let little := (concurrency / 2)%nat in
    Topology concurrency (concurrency - little) little
             (bigCoreIds t ++ seq little (concurrency - little))
             (littleCoreIds t ++ seq 0 little)
  else
    Topology concurrency concurrency 0 (bigCoreIds t ++ seq 0 concurrency)
             (littleCoreIds t).

(** [std::vector::resize(n, false)]. *)
Definition resize (n : nat) (cores : list bool) : list bool :=
  take n cores ++ replicate (n - length cores) false.

Definition initialize (android : bool) (concurrency : nat) (s : HeterogeneousScheduler)
  : HeterogeneousScheduler :=
  let topology := detectCoreTopology android concurrency (topology_ s) in
  Scheduler topology (resize (totalCores topology) (activeCores_ s)) (currentIntensity_ s).

(** [std::fill(begin, end, false)]. *)
Definition all_off (cores : list bool) : list bool := map (fun _ => false) cores.

Definition shutdown (s : HeterogeneousScheduler) : HeterogeneousScheduler :=
  Scheduler (topology_ s) (all_off (activeCores_ s)) (currentIntensity_ s).

(** One activation loop of [configureHeterogeneousCores]: it stops as soon
    as [requested] cores are on and skips identifiers beyond the vector. *)
Fixpoint activate (requested activated : Z) (ids : list nat) (cores : list bool)
  : list bool :=
  match ids with
  | [] => cores
  | coreId :: rest =>
      if requested <=? activated then cores
      else if (coreId <? length cores)%nat
      then activate requested (activated + 1) rest (<[coreId := true]> cores)
      else activate requested activated rest cores
  end.

Definition configureHeterogeneousCores (bigCoreCount littleCoreCount : Z)
    (s : HeterogeneousScheduler) : HeterogeneousScheduler :=
  let cores := all_off (activeCores_ s) in
  let cores := activate bigCoreCount 0 (bigCoreIds (topology_ s)) cores in
  let cores := activate littleCoreCount 0 (littleCoreIds (topology_ s)) cores in
  Scheduler (topology_ s) cores (currentIntensity_ s).

(** The loop of [getCoreState] from core [i] on: [state |= (1u << i)]. *)
Fixpoint bitmap (i : Z) (cores : list bool) (state : Z) : Z :=
  match cores with
  | [] => state
  | core :: rest =>
      bitmap (i + 1) rest (if core then Z.lor state (wrap32 (Z.shiftl 1 i)) else state)
  end.

Definition getCoreState (s : HeterogeneousScheduler) : Z :=
  bitmap 0 (take (Nat.min (length (activeCores_ s)) 32) (activeCores_ s)) 0.

(** [std::count(begin, end, true)], converted to [int]. *)
Definition count_true (cores : list bool) : Z :=
  Z.of_nat (length (List.filter (fun core => core) cores)).

Definition getActiveCores (s : HeterogeneousScheduler) : Z :=
  count_true (activeCores_ s).

(** The loop of [reduceIntensity], from index [i] down to 1. *)
Fixpoint switch_off_last (i : nat) (cores : list bool) : list bool :=
  match i with
  | O => cores
  | S i' =>
      match cores !! i with
      | Some true => <[i := false]> cores
      | _ => switch_off_last i' cores
      end
  end.

Definition reduceIntensity (s : HeterogeneousScheduler) : HeterogeneousScheduler :=
  if 0 <? currentIntensity_ s then
    let s := Scheduler (topology_ s) (activeCores_ s) (currentIntensity_ s - 1) in
    if 1 <? getActiveCores s then
      Scheduler (topology_ s)
                (switch_off_last (length (activeCores_ s) - 1) (activeCores_ s))
                (currentIntensity_ s)
    else s
  else s.

(** The loop of [increaseIntensity]: the first core that is off. *)
Fixpoint switch_on_first (cores : list bool) : list bool :=
  match cores with
  | [] => []
  | core :: rest => if core then core :: switch_on_first rest else true :: rest
  end.

(** [increaseIntensity]; the level is an [int] that is only ever
    incremented here, and its overflow is left out. *)
Definition increaseIntensity (s : HeterogeneousScheduler) : HeterogeneousScheduler :=
  Scheduler (topology_ s) (switch_on_first (activeCores_ s)) (currentIntensity_ s + 1).

(** A scheduler brought up on an Android device with [n] cores. *)
Definition android_scheduler (n : nat) : HeterogeneousScheduler :=
  initialize true n new_scheduler.
End Sched.

(** ** The neural step on the CPU (npu_integration.cpp) *)

Module Npu.
Import Word.
Local Open Scope Z_scope.

Record Tensor := MkTensor {
  data : list F32.t;
  shape : list Z
}.

(** [Tensor()]. *)
Definition empty_tensor : Tensor := MkTensor [] [].

(** [0.0f]. *)
Definition zero : F32.t := S754_zero false.

(** [Tensor::size]: the product of the dimensions in [size_t]. *)
Definition size (t : Tensor) : Z :=
  match shape t with
  | [] => Z.of_nat (length (data t))
  | dims => fold_left (fun total dim => wrap64 (total * dim)) dims 1
  end.

Definition isValid (t : Tensor) : bool :=
  match data t, shape t with
  | [], _ => false
  | _, [] => false
  | _, _ => Z.of_nat (length (data t)) =? size t
  end.

(** [std::vector<float>::resize(n)]: new elements are [0.0f]. *)
Definition resize (n : nat) (values : list F32.t) : list F32.t :=
  take n values ++ replicate (n - length values) zero.

(** [std::clamp(v, lo, hi)]. *)
Definition clamp (v lo hi : F32.t) : F32.t :=
  if F32.ltb v lo then lo else if F32.ltb hi v then hi else v.

(** [static_cast<float>(b) / 255.0f]. *)
Definition to_unit (b : Z) : F32.t := F32.div (F32.of_Z b) (F32.of_Z 255).

(** [static_cast<uint8_t>(std::clamp(v * 255.0f, 0.0f, 255.0f))]. *)
Definition to_byte (v : F32.t) : Z :=
  F32.to_u64 (clamp (F32.mul v (F32.of_Z 255)) zero (F32.of_Z 255)) mod 256.

(** [stateToTensor]: the first 3072 bytes as values in [0, 1], zeros
    behind a shorter state. *)
Definition stateToTensor (state : list Z) : Tensor :=
  let n := Nat.min 3072 (length state) in
  MkTensor (map to_unit (take n state) ++ replicate (3072 - n) zero) [32; 32; 3].

(** [tensorToState]: 2048 bytes, those beyond the tensor's data zero. *)
Definition tensorToState (tensor : Tensor) : list Z :=
  let n := Nat.min (length (data tensor)) 2048 in
  map to_byte (take n (data tensor)) ++ replicate (2048 - n) 0.

(** The 3x3 kernel of [softwareConvolution]. *)
Definition kernel : list (list F32.t) :=
  [[zero; zero; zero]; [zero; F32.of_Z 1; zero]; [zero; zero; zero]].

Definition kernel_at (ky kx : Z) : F32.t :=
  nth (Z.to_nat (kx + 1)) (nth (Z.to_nat (ky + 1)) kernel []) zero.

(** The loop over the three channels of one source pixel. *)
Definition channel_sum (input : list F32.t) (srcY srcX : Z) : F32.t :=
  fold_left
    (fun channelSum c =>
       let srcIdx := (srcY * 32 + srcX) * 3 + c in
       if srcIdx <? Thermal.int_of_size (length input)
       then F32.add channelSum (nth (Z.to_nat srcIdx) input zero)
       else channelSum)
    [0; 1; 2] zero.

(** The offsets [(ky, kx)] in the order the two kernel loops visit them. *)
Definition offsets : list (Z * Z) :=
  [(-1, -1); (-1, 0); (-1, 1); (0, -1); (0, 0); (0, 1); (1, -1); (1, 0); (1, 1)].

(** The value [sum] holds after the kernel loops for the pixel [(y, x)]. *)
Definition pixel (input : list F32.t) (y x : Z) : F32.t :=
  fold_left
    (fun sum '(ky, kx) =>
       let channelSum := F32.div (channel_sum input (y + ky) (x + kx)) (F32.of_Z 3) in
       F32.add sum (F32.mul channelSum (kernel_at ky kx)))
    offsets zero.

(** [1 .. 30]. *)
Definition inner : list Z := map Z.of_nat (seq 1 30).

(** The pixels [(y, x)] the two outer loops visit, in order. *)
Definition pixels : list (Z * Z) :=
  flat_map (fun y => map (fun x => (y, x)) inner) inner.

(** [softwareConvolution]: [output] comes in as the caller left it. *)
Definition softwareConvolution (input output : Tensor) : Tensor :=
  MkTensor
    (fold_left
       (fun out '(y, x) =>
          let dstIdx := y * 32 + x in
          if dstIdx <? Thermal.int_of_size (length out)
          then <[Z.to_nat dstIdx := pixel (data input) y x]> out
          else out)
       pixels (resize (32 * 32) (data output)))
    [32; 32; 1].

(** [CPUNeuralFallback::executeConvolution], without its metrics. *)
Definition cpu_executeConvolution (input output : Tensor) : bool * Tensor :=
  if isValid input then (true, softwareConvolution input output) else (false, output).

(** The [NPUAdapter] interface as [NPUIntegration] uses it. *)
Record NPUAdapter := Adapter {
  adapter_initialize : bool;
  isAvailable : bool;
  adapter_executeConvolution : Tensor -> Tensor -> bool * Tensor
}.

Record NPUIntegration := Integration {
  primaryAdapter_ : option NPUAdapter;
  fallbackAdapter_ : bool;
  npuAvailable_ : bool;
  usesFallback_ : bool
}.

(** [NPUIntegration()]. *)
Definition new_integration : NPUIntegration := Integration None false false true.

(** [initializeNNAPI]: [nnapi] is the adapter of an Android build, [None]
    elsewhere. *)
Definition initializeNNAPI (nnapi : option NPUAdapter) (n : NPUIntegration)
  : bool * NPUIntegration :=
  match nnapi with
  | Some adapter =>
      if adapter_initialize adapter
      then (true, Integration (Some adapter) (fallbackAdapter_ n) true false)
      else (false, Integration (Some adapter) (fallbackAdapter_ n) (npuAvailable_ n)
                               (usesFallback_ n))
  | None => (false, n)
  end.

Definition initializeCPUFallback (n : NPUIntegration) : NPUIntegration :=
  Integration (primaryAdapter_ n) true (npuAvailable_ n) (usesFallback_ n).

Definition shutdown (n : NPUIntegration) : NPUIntegration :=
  Integration None false false true.

Definition isNPUAvailable (n : NPUIntegration) : bool :=
  npuAvailable_ n &&
  match primaryAdapter_ n with
  | Some adapter => isAvailable adapter
  | None => false
  end.

(** The second half of [executeConvolution]. *)
Definition fallback_convolution (n : NPUIntegration) (input output : Tensor)
  : bool * Tensor * NPUIntegration :=
  if fallbackAdapter_ n
  then let (success, output) := cpu_executeConvolution input output in (success, output, n)
  else (false, output, n).

Definition executeConvolution (n : NPUIntegration) (input output : Tensor)
  : bool * Tensor * NPUIntegration :=
  match primaryAdapter_ n with
  | Some adapter =>
      if isNPUAvailable n && negb (usesFallback_ n) then
        let (success, output) := adapter_executeConvolution adapter input output in
        if success then (true, output, n)
        else fallback_convolution
               (Integration (primaryAdapter_ n) (fallbackAdapter_ n) (npuAvailable_ n) true)
               input output
      else fallback_convolution n input output
  | None => fallback_convolution n input output
  end.

(** [processNeuralStep]: the bytes assigned to [result], if any. *)
Definition processNeuralStep (n : NPUIntegration) (vmState : list Z)
  : option (list Z) * NPUIntegration :=
  let inputTensor := stateToTensor vmState in
  let '(success, outputTensor, n) := executeConvolution n inputTensor empty_tensor in
  if success then (Some (tensorToState outputTensor), n) else (None, n).

(** The integration [MobileXMiner::initialize] builds: NNAPI first, the
    CPU fallback only if no NPU is available then. *)
Definition miner_integration (nnapi : option NPUAdapter) : NPUIntegration :=
  let n := snd (initializeNNAPI nnapi new_integration) in
  if isNPUAvailable n then n else initializeCPUFallback n.

(** The integration as the backend a miner holds: the bytes a neural
    step assigns, for an integration that the step leaves as it is. *)
Definition backend_of (n : NPUIntegration) : Miner.NPUIntegration :=
  Miner.NPU (fun vmState => fst (processNeuralStep n vmState)).

(** An NNAPI adapter that finds no device. *)
Definition absent_adapter : NPUAdapter :=
  Adapter false false (fun _ output => (false, output)).

(** An adapter that comes up and then fails every convolution. *)
Definition failing_adapter : NPUAdapter :=
  Adapter true true (fun _ output => (false, output)).
End Npu.

(** * Properties *)

(** ** SHA-256: the standard test vectors and the digest size *)

Module Sha256Facts.
Import Word Sha256.
Local Open Scope Z_scope.

Example sha256_abc :
  SHA256 [97; 98; 99] =
  [0xba; 0x78; 0x16; 0xbf; 0x8f; 0x01; 0xcf; 0xea; 0x41; 0x41; 0x40; 0xde;
   0x5d; 0xae; 0x22; 0x23; 0xb0; 0x03; 0x61; 0xa3; 0x96; 0x17; 0x7a; 0x9c;
   0xb4; 0x10; 0xff; 0x61; 0xf2; 0x00; 0x15; 0xad].
Proof. vm_compute. reflexivity. Qed.

Example sha256_two_blocks :
  SHA256 (repeat 0 56) =
  [212; 129; 122; 165; 73; 118; 40; 231; 199; 126; 107; 96; 97; 7; 4; 43;
   187; 163; 19; 8; 136; 197; 244; 122; 55; 94; 97; 121; 190; 120; 159; 187].
Proof. vm_compute. reflexivity. Qed.

Lemma length_le_bytes n x : length (le_bytes n x) = n.
Proof. revert x. induction n as [|n IH]; intros x; simpl; [reflexivity|]. now rewrite IH. Qed.

Lemma length_SHA256 msg : length (SHA256 msg) = 32%nat.
Proof.
  unfold SHA256, digest, be_bytes.
  rewrite !length_app, !length_rev, !length_le_bytes. reflexivity.
Qed.
End Sha256Facts.

(** ** Shifts, masks and byte order *)

Module WordFacts.
Import Word.
Local Open Scope Z_scope.

Ltac euclid := Z.to_euclidean_division_equations; lia.

(** An "or" of two fields that do not overlap is their sum. *)
Lemma lor_fields a b k :
  0 <= k -> 0 <= a < 2 ^ k -> Z.lor a (b * 2 ^ k) = a + b * 2 ^ k.
Proof.
  intros Hk Ha.
  rewrite <- Z.lxor_lor, <- Z.add_nocarry_lxor; try reflexivity;
    apply Z.bits_inj'; intros n Hn; rewrite Z.land_spec, Z.bits_0;
    (destruct (Z.lt_ge_cases n k) as [Hlt|Hge];
     [ rewrite Z.mul_pow2_bits_low by lia; apply andb_false_r
     | rewrite <- (Z.mod_small a (2 ^ k)) by lia;
       rewrite Z.mod_pow2_bits_high by lia; reflexivity ]).
Qed.

(** The mask 0xff00 selects the second byte. *)
Lemma land_ff00 x :
  Z.land x 0xff00 = ((x / 2 ^ 8) mod 2 ^ 8) * 2 ^ 8.
Proof.
  rewrite <- (Z.land_ones (x / 2 ^ 8) 8) by lia.
  change 0xff00 with (Z.ones 8 * 2 ^ 8).
  apply Z.bits_inj'; intros n Hn.
  rewrite Z.land_spec.
  destruct (Z.lt_ge_cases n 8) as [Hlt|Hge].
  - rewrite !Z.mul_pow2_bits_low by lia. apply andb_false_r.
  - rewrite !Z.mul_pow2_bits by lia. rewrite Z.land_spec.
    rewrite Z.div_pow2_bits by lia. f_equal. f_equal. lia.
Qed.

Lemma lxor_u32 a b :
  0 <= a < 2 ^ 32 -> 0 <= b < 2 ^ 32 -> 0 <= Z.lxor a b < 2 ^ 32.
Proof.
  intros Ha Hb.
  assert (H0 : 0 <= Z.lxor a b) by (apply Z.lxor_nonneg; lia).
  split; [exact H0|].
  destruct (Z.eq_dec (Z.lxor a b) 0) as [->|Hne]; [lia|].
  apply Z.log2_lt_pow2; [lia|].
  pose proof (Z.log2_lxor a b ltac:(lia) ltac:(lia)) as Hlog.
  assert (Z.log2 a < 32).
  { destruct (Z.eq_dec a 0) as [->|]; [simpl; lia|apply Z.log2_lt_pow2; lia]. }
  assert (Z.log2 b < 32).
  { destruct (Z.eq_dec b 0) as [->|]; [simpl; lia|apply Z.log2_lt_pow2; lia]. }
  lia.
Qed.

Lemma le_value_u32 b0 b1 b2 b3 :
  is_byte b0 -> is_byte b1 -> is_byte b2 -> is_byte b3 ->
  0 <= le_value [b0; b1; b2; b3] < 2 ^ 32.
Proof. unfold is_byte, le_value. lia. Qed.
End WordFacts.

(** ** The power policy *)

Module PowerFacts.
Import Power.
Local Open Scope Z_scope.

Example scenario_full :
  determineOptimalIntensity (updatePowerState (snap 100 true 30) new_manager) = FULL.
Proof. reflexivity. Qed.

Example scenario_throttled :
  determineOptimalIntensity (updatePowerState (snap 90 true 46) new_manager) = LIGHT.
Proof. reflexivity. Qed.

Example scenario_on_battery :
  let pm := updatePowerState (snap 50 false 35) new_manager in
  determineOptimalIntensity pm = DISABLED /\ shouldStopMining pm = true.
Proof. split; reflexivity. Qed.

(** C6: after a power-state update the permission flag is exactly
    charging, battery at least 80 and temperature below 50, and the stop
    condition is exactly: not permitted, or battery below 20, or
    temperature above 50. *)
Theorem permission_after_update (s : PowerSnapshot) (pm : AndroidPowerManager) :
  let pm' := updatePowerState s pm in
  (canStartMining pm' = true <->
     charging s = true /\ 80 <= batteryPct s /\ F32.ltb (tempC s) (F32.of_Z 50) = true) /\
  (shouldStopMining pm' = true <->
     canStartMining pm' = false \/ batteryPct s < 20 \/
     F32.gtb (tempC s) (F32.of_Z 50) = true).
Proof.
  cbn -[F32.of_Z F32.ltb F32.gtb Z.leb Z.ltb]. split.
  - rewrite !andb_true_iff, Z.leb_le. tauto.
  - unfold shouldStopMining; cbn -[F32.of_Z F32.ltb F32.gtb Z.leb Z.ltb].
    rewrite !orb_true_iff, negb_true_iff, Z.ltb_lt. tauto.
Qed.

Lemma intensity_guarded (s : PowerSnapshot) (pm : AndroidPowerManager) :
  determineOptimalIntensity (updatePowerState s pm) =
    if F32.ltb (tempC s) (F32.of_Z 50) then policy_table s else DISABLED.
Proof.
  unfold determineOptimalIntensity, updatePowerState, updateMiningPermission, policy_table.
  cbn -[F32.of_Z F32.ltb F32.gtb Z.leb Z.ltb].
  destruct (charging s); cbn -[F32.of_Z F32.ltb F32.gtb Z.leb Z.ltb].
  - destruct (Z.leb_spec 80 (batteryPct s)) as [Hge|Hlt];
      destruct (Z.ltb_spec (batteryPct s) 80); try lia;
      cbn -[F32.of_Z F32.ltb F32.gtb Z.leb Z.ltb];
      destruct (F32.ltb (tempC s) (F32.of_Z 50)); reflexivity.
  - destruct (F32.ltb (tempC s) (F32.of_Z 50)); reflexivity.
Qed.

(** C2, as the code has it: the permission flag is consulted first, so
    the table applies below 50 degrees and everything else is DISABLED;
    at battery 85, charging, 42 degrees the answer is LIGHT. *)
Theorem intensity_after_update (s : PowerSnapshot) (pm : AndroidPowerManager) :
  determineOptimalIntensity (updatePowerState s pm)
    = (if F32.ltb (tempC s) (F32.of_Z 50) then policy_table s else DISABLED) /\
  determineOptimalIntensity (updatePowerState (snap 85 true 42) pm) = LIGHT.
Proof.
  split; [apply intensity_guarded|].
  rewrite intensity_guarded. reflexivity.
Qed.

(** C2 fails as stated: at 85 per cent the code answers LIGHT, and from 50
    degrees upward it answers DISABLED where the table says LIGHT. *)
Lemma intensity_table_counterexample :
  determineOptimalIntensity (updatePowerState (snap 85 true 42) new_manager) <> MEDIUM /\
  determineOptimalIntensity (updatePowerState (snap 90 true 50) new_manager)
    <> policy_table (snap 90 true 50).
Proof. split; vm_compute; discriminate. Qed.

Example intensity_85_42 :
  determineOptimalIntensity (updatePowerState (snap 85 true 42) new_manager) = LIGHT.
Proof. reflexivity. Qed.
End PowerFacts.
(** ** Exact cases of binary64 arithmetic *)

Module FloatFacts.
Import IEEE.
Local Open Scope Z_scope.

(** *** Digits and shifts *)

Lemma digits_log2 (m : positive) : digits m = Z.log2 (Zpos m) + 1.
Proof.
  unfold digits.
  assert (Hsize : forall p, digits2_pos p = Pos.size p).
  { induction p as [p IH|p IH|]; simpl; now rewrite ?IH. }
  rewrite Hsize. destruct m; simpl; lia.
Qed.

Lemma digits_pos (m : positive) : 0 < digits m.
Proof. unfold digits. lia. Qed.

Lemma digits_bounds (m : positive) :
  2 ^ (digits m - 1) <= Zpos m < 2 ^ digits m.
Proof.
  rewrite digits_log2.
  replace (Z.log2 (Z.pos m) + 1 - 1) with (Z.log2 (Z.pos m)) by lia.
  replace (Z.log2 (Z.pos m) + 1) with (Z.succ (Z.log2 (Z.pos m))) by lia.
  apply Z.log2_spec. lia.
Qed.

Lemma digits_unique (m : positive) (k : Z) :
  2 ^ (k - 1) <= Zpos m < 2 ^ k -> digits m = k.
Proof.
  intros Hk. rewrite digits_log2.
  assert (0 < k).
  { destruct (Z.lt_ge_cases 0 k) as [|Hle]; [assumption|].
    assert (2 ^ k <= 2 ^ 0) by (apply Z.pow_le_mono_r; lia).
    change (2 ^ 0) with 1 in *. lia. }
  rewrite (Z.log2_unique (Zpos m) (k - 1)); [lia|lia|].
  replace (Z.succ (k - 1)) with k by lia. exact Hk.
Qed.

Lemma digits_le (a b : positive) : Zpos a <= Zpos b -> digits a <= digits b.
Proof.
  intros Hab. rewrite !digits_log2.
  apply Z.add_le_mono_r, Z.log2_le_mono. exact Hab.
Qed.

Lemma digits_le_pow2 (m : positive) (k : Z) :
  0 <= k -> Zpos m < 2 ^ k -> digits m <= k.
Proof.
  intros Hk Hm. pose proof (digits_bounds m) as [Hlo _].
  destruct (Z.lt_ge_cases k (digits m)) as [Hlt|]; [|lia].
  assert (2 ^ k <= 2 ^ (digits m - 1)) by (apply Z.pow_le_mono_r; lia).
  lia.
Qed.

Lemma shl_value (m : positive) (k : Z) :
  0 <= k -> Zpos (shl m k) = Zpos m * 2 ^ k.
Proof.
  intros Hk. destruct k as [|p|p]; [simpl; lia| |lia].
  unfold shl. induction p as [|p IH] using Pos.peano_ind.
  - simpl. lia.
  - rewrite Pos.iter_succ, Pos2Z.inj_succ, Z.pow_succ_r by lia.
    rewrite Pos2Z.inj_xO, IH by lia. lia.
Qed.

Lemma shl_shl (m : positive) (j k : Z) :
  0 <= j -> 0 <= k -> shl (shl m j) k = shl m (j + k).
Proof.
  intros Hj Hk. apply Pos2Z.inj.
  rewrite !shl_value, Z.pow_add_r by lia. lia.
Qed.

Lemma digits_shl (m : positive) (k : Z) :
  0 <= k -> digits (shl m k) = digits m + k.
Proof.
  intros Hk. apply digits_unique. rewrite shl_value by lia.
  pose proof (digits_bounds m) as [Hlo Hhi]. pose proof (digits_pos m).
  replace (digits m + k - 1) with (digits m - 1 + k) by lia.
  rewrite !Z.pow_add_r by lia.
  assert (0 < 2 ^ k) by (apply Z.pow_pos_nonneg; lia).
  nia.
Qed.

(** Shifting right the zeros a left shift brought in is exact. *)
Lemma shr_shl (m : positive) (k : positive) :
  SpecFloat.iter_pos shr_1 k (Build_shr_record (Zpos (Pos.iter xO m k)) false false)
  = Build_shr_record (Zpos m) false false.
Proof.
  assert (Hiter : forall (A : Type) (f : A -> A) p x, SpecFloat.iter_pos f p x = Pos.iter f x p).
  { intros A f p. induction p as [p IH|p IH|]; intros x; simpl.
    - rewrite !IH. now rewrite 2 Pos.iter_swap.
    - now rewrite !IH.
    - reflexivity. }
  rewrite Hiter. induction k as [|k IH] using Pos.peano_ind.
  - reflexivity.
  - rewrite Pos.iter_succ_r. rewrite Pos.iter_succ. simpl shr_1. exact IH.
Qed.


(** *** Rounding a value that needs none *)

Lemma fexp64 (x : Z) : fexp 53 1024 x = Z.max (x - 53) (-1074).
Proof. reflexivity. Qed.

(** The right shift that brings a mantissa back to 53 digits loses nothing
    when the digits shifted out are zeros. *)
Lemma shr_fexp_exact (q : positive) (r ez : Z) :
  digits q = 53 -> 0 <= r -> -1074 <= ez + r ->
  shr_fexp 53 1024 (Zpos (shl q r)) ez loc_Exact
  = (Build_shr_record (Zpos q) false false, ez + r).
Proof.
  intros Hq Hr He. unfold shr_fexp, Zdigits2.
  fold (digits (shl q r)). rewrite digits_shl, Hq, fexp64 by lia.
  replace (Z.max (53 + r + ez - 53) (-1074) - ez) with r by lia.
  cbn [shr_record_of_loc]. unfold shr.
  destruct r as [|p|p]; cbn [shl]; [f_equal; lia|now rewrite shr_shl|lia].
Qed.

Lemma round_aux_exact (s : bool) (P : positive) (j ez : Z) :
  0 <= j -> digits P <= 53 -> 53 <= digits P + j ->
  -1074 <= ez + j - (53 - digits P) <= 971 ->
  binary_round_aux 53 1024 s (Zpos (shl P j)) ez loc_Exact = canon 53 s P (ez + j).
Proof.
  intros Hj HP Hd He. unfold binary_round_aux.
  set (r := digits P + j - 53).
  set (q := shl P (53 - digits P)).
  assert (Hq : digits q = 53) by (unfold q; rewrite digits_shl; lia).
  replace (shl P j) with (shl q r)
    by (unfold q, r; rewrite shl_shl by lia; f_equal; lia).
  rewrite (shr_fexp_exact q r ez) by (unfold r; lia).
  cbn [shr_m loc_of_shr_record round_nearest_even].
  replace (Zpos q) with (Zpos (shl q 0)) at 1 by reflexivity.
  rewrite (shr_fexp_exact q 0 (ez + r)) by (unfold r; lia).
  cbn [shr_m]. rewrite Z.add_0_r.
  replace (ez + r <=? 1024 - 53) with true
    by (symmetry; apply Z.leb_le; unfold r; lia).
  unfold canon. fold q. f_equal. unfold r. lia.
Qed.

(** [binary_round] returns the normal form of any value that fits 53
    digits, however its mantissa was scaled. *)
Lemma round_exact (s : bool) (P : positive) (j ez : Z) :
  0 <= j -> digits P <= 53 ->
  -1074 <= ez + j - (53 - digits P) <= 971 ->
  binary_round 53 1024 s (shl P j) ez = canon 53 s P (ez + j).
Proof.
  intros Hj HP He. unfold binary_round.
  fold (digits (shl P j)). rewrite digits_shl, fexp64 by lia.
  replace (Z.max (digits P + j + ez - 53) (-1074)) with (digits P + j + ez - 53) by lia.
  unfold shl_align.
  destruct (digits P + j + ez - 53 - ez) as [|d|d] eqn:Hshift.
  - apply round_aux_exact; lia.
  - apply round_aux_exact; lia.
  - change (Pos.iter xO (shl P j) d) with (shl (shl P j) (Zpos d)).
    rewrite shl_shl by lia.
    rewrite round_aux_exact by lia.
    f_equal. lia.
Qed.

Lemma normalize_exact (s : bool) (P : positive) (j ez : Z) (szero : bool) :
  0 <= j -> digits P <= 53 ->
  -1074 <= ez + j - (53 - digits P) <= 971 ->
  binary_normalize 53 1024 (cond_Zopp s (Zpos (shl P j))) ez szero
  = canon 53 s P (ez + j).
Proof.
  intros Hj HP He. destruct s; cbn [cond_Zopp Z.opp binary_normalize];
    now apply round_exact.
Qed.

(** *** Exact conversions, sums and quotients *)

Lemma of_Z_canon (n : positive) :
  digits n <= 53 -> F64.of_Z (Zpos n) = canon 53 false n 0.
Proof.
  intros Hn. pose proof (digits_pos n).
  unfold F64.of_Z, of_Z, F64.prec, F64.emax.
  replace (Zpos n) with (cond_Zopp false (Zpos (shl n 0))) by reflexivity.
  rewrite normalize_exact by lia. reflexivity.
Qed.

(** What validity in binary32 says of a finite value. *)
Lemma valid_f32_finite (s : bool) (m : positive) (e : Z) :
  F32.valid (S754_finite s m e) -> digits m <= 24 /\ -149 <= e <= 104.
Proof.
  unfold F32.valid, valid, valid_binary, bounded, canonical_mantissa.
  intros Hv. apply andb_true_iff in Hv. destruct Hv as [Hc Hb].
  apply Z.eqb_eq in Hc. apply Z.leb_le in Hb.
  fold (digits m) in Hc. unfold F32.prec, F32.emax in *.
  change (fexp 24 128 (digits m + e)) with (Z.max (digits m + e - 24) (-149)) in Hc.
  lia.
Qed.

(** The promotion of a [float] to [double] is exact. *)
Lemma of_f32_canon (s : bool) (m : positive) (e : Z) :
  F32.valid (S754_finite s m e) ->
  F64.of_f32 (S754_finite s m e) = canon 53 s m e.
Proof.
  intros Hv. apply valid_f32_finite in Hv. pose proof (digits_pos m).
  unfold F64.of_f32, of_float, F64.prec, F64.emax.
  replace (Zpos m) with (Zpos (shl m 0)) by reflexivity.
  rewrite normalize_exact by lia. f_equal. lia.
Qed.

Lemma digits_mul_le (a b : positive) : digits (a * b) <= digits a + digits b.
Proof.
  pose proof (digits_bounds a) as [_ Ha]. pose proof (digits_bounds b) as [_ Hb].
  pose proof (digits_pos a). pose proof (digits_pos b).
  apply digits_le_pow2; [lia|].
  rewrite Pos2Z.inj_mul, Z.pow_add_r by lia. nia.
Qed.

Lemma digits_mul_ge (a b : positive) : digits b <= digits (a * b).
Proof. apply digits_le. rewrite Pos2Z.inj_mul. nia. Qed.

(** Adding two values of the same sign whose sum fits 53 digits is exact. *)
Lemma add_canon (s : bool) (A B : positive) (e : Z) :
  digits B <= digits A -> digits (A + B) <= 53 -> -1000 <= e <= 900 ->
  F64.add (canon 53 s A e) (canon 53 s B e) = canon 53 s (A + B) e.
Proof.
  intros HBA Hsum He.
  pose proof (digits_pos A). pose proof (digits_pos B).
  assert (HA : digits A <= 53).
  { etransitivity; [|exact Hsum]. apply digits_le. lia. }
  unfold F64.add, F64.prec, F64.emax, canon, SFadd.
  replace (Z.min (e - (53 - digits A)) (e - (53 - digits B)))
    with (e - (53 - digits B)) by lia.
  assert (Hx : fst (shl_align (shl A (53 - digits A)) (e - (53 - digits A))
                              (e - (53 - digits B)))
               = shl A (53 - digits B)).
  { unfold shl_align.
    destruct (e - (53 - digits B) - (e - (53 - digits A))) as [|d|d] eqn:Hd; cbn [fst].
    - f_equal. lia.
    - f_equal. lia.
    - change (Pos.iter xO (shl A (53 - digits A)) d)
        with (shl (shl A (53 - digits A)) (Zpos d)).
      rewrite shl_shl by lia. f_equal. lia. }
  assert (Hy : fst (shl_align (shl B (53 - digits B)) (e - (53 - digits B))
                              (e - (53 - digits B)))
               = shl B (53 - digits B)).
  { unfold shl_align. now rewrite Z.sub_diag. }
  rewrite Hx, Hy.
  assert (Hadd : cond_Zopp s (Zpos (shl A (53 - digits B))) +
                 cond_Zopp s (Zpos (shl B (53 - digits B)))
                 = cond_Zopp s (Zpos (shl (A + B) (53 - digits B)))).
  { assert (Zpos (shl A (53 - digits B)) + Zpos (shl B (53 - digits B))
            = Zpos (shl (A + B) (53 - digits B))).
    { rewrite !shl_value by lia. lia. }
    destruct s; cbn [cond_Zopp]; lia. }
  pose proof (digits_pos (A + B)).
  rewrite Hadd. rewrite normalize_exact by lia.
  unfold canon. f_equal. lia.
Qed.

(** Dividing [n * m] by [n] gives [m] back, exactly. *)
Lemma div_canon (s : bool) (n m : positive) (e : Z) :
  digits (n * m) <= 53 -> -900 <= e <= 900 ->
  F64.div (canon 53 s (n * m) e) (canon 53 false n 0) = canon 53 s m e.
Proof.
  intros Hnm He.
  pose proof (digits_pos n). pose proof (digits_pos m).
  pose proof (digits_mul_le n m). pose proof (digits_mul_ge n m).
  assert (digits n <= digits (n * m)) by (rewrite Pos.mul_comm; apply digits_mul_ge).
  set (a := 53 - digits (n * m)). set (b := 53 - digits n).
  unfold F64.div, F64.prec, F64.emax, canon, SFdiv, SFdiv_core_binary, Zdigits2.
  fold a b. fold (digits (shl (n * m) a)) (digits (shl n b)).
  rewrite !digits_shl by (unfold a, b; lia).
  replace (digits (n * m) + a) with 53 by (unfold a; lia).
  replace (digits n + b) with 53 by (unfold b; lia).
  rewrite fexp64.
  replace (Z.min (Z.max (53 + (e - a) - (53 + (0 - b)) - 53) (-1074)) (e - a - (0 - b)))
    with (e - a + b - 53) by (unfold a, b; lia).
  replace (e - a - (0 - b) - (e - a + b - 53)) with 53 by lia.
  rewrite Z.shiftl_mul_pow2 by lia.
  set (q := shl m (a + 53 - b)).
  assert (Hq : Zpos (shl (n * m) a) * 2 ^ 53 = Zpos q * Zpos (shl n b)).
  { unfold q. rewrite !shl_value by (unfold a, b; lia).
    rewrite Pos2Z.inj_mul.
    replace (a + 53 - b) with (a + 53 + - b) by lia.
    assert (Hp : 2 ^ (a + 53) = 2 ^ (a + 53 - b) * 2 ^ b).
    { rewrite <- Z.pow_add_r by (unfold a, b; lia). f_equal. lia. }
    rewrite (Z.pow_add_r 2 a 53) in Hp by (unfold a; lia).
    replace (a + 53 + - b) with (a + 53 - b) by lia. nia. }
  assert (Hdiv : Z.div_eucl (Zpos (shl (n * m) a) * 2 ^ 53) (Zpos (shl n b)) = (Zpos q, 0)).
  { rewrite Hq.
    pose proof (Z.div_mul (Zpos q) (Zpos (shl n b)) ltac:(lia)) as Hd.
    pose proof (Z.mod_mul (Zpos q) (Zpos (shl n b)) ltac:(lia)) as Hm.
    unfold Z.div, Z.modulo in Hd, Hm.
    destruct (Z.div_eucl (Zpos q * Zpos (shl n b)) (Zpos (shl n b))) as [q' r'].
    now subst. }
  rewrite Hdiv.
  assert (Hloc : new_location (Zpos (shl n b)) 0 = loc_Exact).
  { unfold new_location, new_location_even, new_location_odd.
    destruct (Z.even _); reflexivity. }
  rewrite Hloc, xorb_false_r.
  unfold q. rewrite round_aux_exact by (unfold a, b; lia).
  unfold canon. f_equal. lia.
Qed.
End FloatFacts.
(** ** The NEON hash against the scalar one *)

Module Arm64Facts.
Import Arm64.
Local Open Scope nat_scope.

Lemma length_xor_fold data : forall i result,
  length (xor_fold i data result) = length result.
Proof.
  induction data as [|b rest IH]; intros i result; cbn [xor_fold]; [reflexivity|].
  rewrite IH. apply length_alter.
Qed.

Lemma xor_fold_app a : forall b i result,
  xor_fold i (a ++ b) result = xor_fold (i + length a) b (xor_fold i a result).
Proof.
  induction a as [|x a IH]; intros b i result; cbn [xor_fold app length].
  - now rewrite Nat.add_0_r.
  - rewrite IH. f_equal. lia.
Qed.

(** Only the residue of the starting index matters. *)
Lemma xor_fold_residue data : forall i j result,
  i mod 32 = j mod 32 -> xor_fold i data result = xor_fold j data result.
Proof.
  induction data as [|b rest IH]; intros i j result Hij; cbn [xor_fold]; [reflexivity|].
  rewrite Hij. apply IH.
  replace (S i) with (1 + i) by lia. replace (S j) with (1 + j) by lia.
  rewrite (Nat.Div0.add_mod 1 i), (Nat.Div0.add_mod 1 j), Hij. reflexivity.
Qed.

Lemma chunk_start_residue i : (i * 16) mod 32 = ((i mod 2) * 16) mod 32.
Proof.
  rewrite (Nat.div_mod_eq i 2) at 1.
  replace ((2 * (i / 2) + i mod 2) * 16) with ((i mod 2) * 16 + (i / 2) * 32) by lia.
  now rewrite Nat.Div0.mod_add.
Qed.

(** One NEON iteration is sixteen scalar steps. *)
Lemma neon_step_scalar i chunk result :
  length chunk = 16 -> length result = 32 ->
  vst1q_u8 result ((i mod 2) * 16)
    (veorq_u8 (vld1q_u8 result ((i mod 2) * 16)) chunk)
  = xor_fold (i * 16) chunk result.
Proof.
  intros Hc Hr.
  rewrite (xor_fold_residue chunk (i * 16) ((i mod 2) * 16) result (chunk_start_residue i)).
  do 16 (destruct chunk as [|? chunk]; [discriminate Hc|]).
  destruct chunk; [|discriminate Hc].
  do 32 (destruct result as [|? result]; [discriminate Hr|]).
  destruct result; [|discriminate Hr].
  destruct (Nat.mod_bound_pos i 2) as [_ Hlt]; [lia|lia|].
  destruct (i mod 2) as [|[|p]]; [reflexivity|reflexivity|lia].
Qed.

Lemma neon_loop_scalar n : forall i data result,
  length result = 32 -> (i + n) * 16 <= length data ->
  neon_loop n i data result
  = xor_fold (i * 16) (take (n * 16) (drop (i * 16) data)) result.
Proof.
  induction n as [|n IH]; intros i data result Hr Hlen; cbn [neon_loop]; cbv zeta.
  - reflexivity.
  - assert (Hchunk : length (vld1q_u8 data (i * 16)) = 16).
    { unfold vld1q_u8. rewrite length_take, length_drop. lia. }
    rewrite (neon_step_scalar i _ result Hchunk Hr).
    rewrite IH; [|now rewrite length_xor_fold|lia].
    replace (S n * 16) with (16 + n * 16) by lia.
    rewrite <- take_take_drop, xor_fold_app, drop_drop.
    fold (vld1q_u8 data (i * 16)). rewrite Hchunk.
    f_equal; [lia|]. f_equal. f_equal. lia.
Qed.

(** C8: on every input the NEON [vectorHash] returns byte for byte what
    the scalar fallback returns. *)
Theorem vectorHash_is_scalarHash (a : ARM64Optimizer) (data : list Z) :
  vectorHash a data = scalarHash data.
Proof.
  unfold vectorHash.
  destruct (negb (hasNEON (features_ a))); [reflexivity|].
  destruct (arm_neon_build a); [|reflexivity].
  set (chunks := length data / 16).
  assert (Hle : chunks * 16 <= length data).
  { unfold chunks. pose proof (Nat.div_mod_eq (length data) 16). lia. }
  rewrite neon_loop_scalar; [|apply length_replicate|simpl; lia].
  unfold scalarHash. simpl (0 * 16). rewrite drop_0.
  rewrite <- (take_drop (chunks * 16) data) at 3.
  rewrite xor_fold_app. f_equal.
  rewrite length_take. lia.
Qed.

Example vectorHash_40_bytes :
  vectorHash (Optimizer (detectFeatures default_features) true)
             (map Z.of_nat (seq 1 40))
  = [32; 32; 32; 32; 32; 32; 32; 32; 9; 10; 11; 12; 13; 14; 15; 16;
     17; 18; 19; 20; 21; 22; 23; 24; 25; 26; 27; 28; 29; 30; 31; 32]%Z.
Proof. vm_compute. reflexivity. Qed.
End Arm64Facts.

(** ** The MobileX hash pipeline *)

Module MinerFacts.
Import Word Miner.
Local Open Scope Z_scope.

(** *** When the neural step runs *)

Lemma npu_inputs_runNPUStep m :
  is_Some (npu_ m) -> snd (runNPUStep m) <> [].
Proof.
  intros [npu Hnpu]. unfold runNPUStep. rewrite Hnpu.
  destruct (processNeuralStep npu _) as [out|]; [|discriminate].
  destruct (4 <=? length out)%nat; discriminate.
Qed.

Lemma shouldRunNPU_true m :
  shouldRunNPU m = true <->
  npuEnabled_ m = true /\ is_Some (npu_ m) /\
  hashesCompleted_ m mod npuInterval_ m = 0.
Proof.
  unfold shouldRunNPU.
  destruct (npuEnabled_ m), (npu_ m) as [npu|]; rewrite ?Z.eqb_eq;
    (split; [intros H; try discriminate H | intros (H1 & [? H2] & H3); congruence]).
  repeat split; [now exists npu|exact H].
Qed.

Lemma npu_step_condition (to_uint32_vector : list Z -> list Z)
    (m : MobileXMiner) (header : list Z) :
  npuInterval_ m = 150 ->
  (npu_inputs (computeMobileXHash to_uint32_vector m header) <> [] <->
   is_Some (randomxVM_ m) /\ npuEnabled_ m = true /\ is_Some (npu_ m) /\
   wrap64 (hashesCompleted_ m + 1) mod 150 = 0).
Proof.
  intros Hint. unfold computeMobileXHash.
  destruct (randomxVM_ m) as [vm|]; cbn [npu_inputs].
  2: { split; [congruence|]. intros ([? H] & _). discriminate H. }
  set (m1 := fetch_add 1 m).
  assert (Hrun := shouldRunNPU_true m1).
  assert (Hi : npuInterval_ m1 = 150) by exact Hint.
  rewrite Hi in Hrun.
  change (npuEnabled_ m1) with (npuEnabled_ m) in Hrun.
  change (npu_ m1) with (npu_ m) in Hrun.
  change (hashesCompleted_ m1) with (wrap64 (hashesCompleted_ m + 1)) in Hrun.
  destruct (shouldRunNPU m1) eqn:Hs.
  - destruct Hrun as [Hrun _]. specialize (Hrun eq_refl).
    pose proof (npu_inputs_runNPUStep m1 (proj1 (proj2 Hrun))) as Hne.
    destruct (runNPUStep m1) as [m' calls]. cbn [npu_inputs snd] in *.
    split; [|intros _; exact Hne].
    intros _. split; [now exists vm|exact Hrun].
  - cbn [npu_inputs]. split; [congruence|].
    intros (_ & H). destruct Hrun as [_ Hrun]. specialize (Hrun H). discriminate.
Qed.

(** C1, as the code has it: the counter is incremented before it is
    tested, so a call that finds the counter at [c] runs the neural step
    exactly when the VM exists, the NPU is enabled and present, and
    [c + 1] (on 64 bits) is a multiple of 150; with the counter at 0 no
    neural step runs. *)
Theorem npu_step_schedule (to_uint32_vector : list Z -> list Z)
    (m : MobileXMiner) (header : list Z) :
  npuInterval_ m = 150 ->
  (npu_inputs (computeMobileXHash to_uint32_vector m header) <> [] <->
   is_Some (randomxVM_ m) /\ npuEnabled_ m = true /\ is_Some (npu_ m) /\
   wrap64 (hashesCompleted_ m + 1) mod 150 = 0) /\
  (hashesCompleted_ m = 0 ->
   npu_inputs (computeMobileXHash to_uint32_vector m header) = []).
Proof.
  intros Hint. split; [now apply npu_step_condition|].
  intros Hzero.
  destruct (npu_inputs (computeMobileXHash to_uint32_vector m header)) as [|x l] eqn:Hin;
    [reflexivity|].
  assert (Hne : npu_inputs (computeMobileXHash to_uint32_vector m header) <> [])
    by (rewrite Hin; discriminate).
  apply (npu_step_condition to_uint32_vector m header Hint) in Hne.
  destruct Hne as (_ & _ & _ & Hmod). rewrite Hzero in Hmod. discriminate Hmod.
Qed.

Lemma npu_step_schedule_witness :
  npuInterval_ (set_hashes fresh_miner 149) = 150 /\
  (npu_inputs (computeMobileXHash split_words (set_hashes fresh_miner 149) (replicate 32 0))
   <> [] <->
   is_Some (randomxVM_ (set_hashes fresh_miner 149)) /\
   npuEnabled_ (set_hashes fresh_miner 149) = true /\
   is_Some (npu_ (set_hashes fresh_miner 149)) /\
   wrap64 (hashesCompleted_ (set_hashes fresh_miner 149) + 1) mod 150 = 0).
Proof.
  split; [reflexivity|].
  apply (npu_step_schedule split_words (set_hashes fresh_miner 149) (replicate 32 0)).
  reflexivity.
Defined.

(** C1 fails as stated: the first hash of a miner finds the counter at 0,
    a multiple of 150, and no neural step runs. *)
Lemma first_hash_skips_npu :
  hashesCompleted_ fresh_miner mod 150 = 0 /\
  npu_inputs (computeMobileXHash split_words fresh_miner (replicate 32 0)) = [].
Proof. split; vm_compute; reflexivity. Qed.

Example npu_runs_on_150th_hash :
  npu_inputs (computeMobileXHash split_words (set_hashes fresh_miner 149) (replicate 32 0))
  = [npu_state 150].
Proof. vm_compute. reflexivity. Qed.


(** *** The state handed to the neural step *)

(** What the fill loop leaves: the counter, one copy of its SHA-256, and
    2008 bytes still zero. *)
Lemma npu_state_layout (c : Z) :
  npu_state c = le_bytes 8 c ++ Sha256.SHA256 (le_bytes 8 c) ++ replicate 2008 0.
Proof.
  unfold npu_state.
  rewrite take_app_length' by (now rewrite Sha256Facts.length_le_bytes).
  pose proof (Sha256Facts.length_SHA256 (le_bytes 8 c)) as Hh.
  pose proof (Sha256Facts.length_le_bytes 8 c) as Hc.
  generalize dependent (Sha256.SHA256 (le_bytes 8 c)).
  generalize dependent (le_bytes 8 c).
  intros l Hl h Hh.
  do 8 (destruct l as [|? l]; [discriminate Hl|]).
  destruct l; [|discriminate Hl].
  do 32 (destruct h as [|? h]; [discriminate Hh|]).
  destruct h; [|discriminate Hh].
  vm_compute. reflexivity.
Qed.

(** C4, the failing input: at counter 150 byte 40 of the state is zero,
    where the repeated hash would start again with its first byte, 85. *)
Theorem npu_state_not_cyclic :
  nth 40 (npu_state 150) 0 = 0 /\
  nth 40 (cyclic_state 150) 0 = 85 /\
  npu_state 150 <> cyclic_state 150.
Proof.
  split; [vm_compute; reflexivity|]. split; [vm_compute; reflexivity|].
  intros H. apply (f_equal (fun l => nth 40 l 0)) in H.
  vm_compute in H. discriminate H.
Qed.

(** The first eight bytes are the counter and the next 32 its hash, as the
    protocol says; the divergence is confined to bytes 40 to 2047. *)
Lemma npu_state_prefix (c : Z) :
  take 40 (npu_state c) = take 40 (cyclic_state c).
Proof.
  rewrite npu_state_layout. unfold cyclic_state.
  pose proof (Sha256Facts.length_SHA256 (le_bytes 8 c)) as Hh.
  pose proof (Sha256Facts.length_le_bytes 8 c) as Hc.
  generalize dependent (Sha256.SHA256 (le_bytes 8 c)).
  generalize dependent (le_bytes 8 c).
  intros l Hl h Hh.
  do 8 (destruct l as [|? l]; [discriminate Hl|]).
  destruct l; [|discriminate Hl].
  do 32 (destruct h as [|? h]; [discriminate Hh|]).
  destruct h; [|discriminate Hh].
  reflexivity.
Qed.

(** The skip: when the backend answers with at least four bytes, their
    little-endian value modulo 1000 is added to the counter. *)
Lemma runNPUStep_skip m npu out :
  npu_ m = Some npu ->
  processNeuralStep npu (npu_state (hashesCompleted_ m)) = Some out ->
  (4 <= length out)%nat ->
  hashesCompleted_ (fst (runNPUStep m))
  = wrap64 (hashesCompleted_ m + le_value (take 4 out) mod 1000).
Proof.
  intros Hn Hp Hlen. unfold runNPUStep. rewrite Hn, Hp.
  destruct (Nat.leb_spec 4 (length out)); [reflexivity|lia].
Qed.

Example skip_after_150th_hash :
  hashesCompleted_
    (miner_after (computeMobileXHash split_words
       (set_hashes (initialize true busy_backend demo_cache new_miner) 149)
       (replicate 32 0)))
  = 150 + 456.
Proof. vm_compute. reflexivity. Qed.

(** *** The mixing stage *)

Lemma rotl_u32 w n :
  0 < n < 32 -> 0 <= w < 2 ^ 32 -> 0 <= rotl w n < 2 ^ 32.
Proof.
  intros Hn Hw. unfold rotl.
  replace (2 ^ 32) with (2 ^ (32 - n) * 2 ^ n) by (rewrite <- Z.pow_add_r by lia; f_equal; lia).
  rewrite Zmult_mod_distr_r.
  assert (0 < 2 ^ n) by (apply Z.pow_pos_nonneg; lia).
  assert (0 < 2 ^ (32 - n)) by (apply Z.pow_pos_nonneg; lia).
  assert (0 <= w mod 2 ^ (32 - n) < 2 ^ (32 - n)) by (apply Z.mod_pos_bound; lia).
  assert (0 <= w / 2 ^ (32 - n) < 2 ^ n).
  { split; [apply Z.div_pos; lia|].
    apply Z.div_lt_upper_bound; [lia|].
    rewrite <- Z.pow_add_r by lia. replace (32 - n + n) with 32 by lia. lia. }
  nia.
Qed.

(** The shift-and-or idiom of the sources is the rotation. *)
Lemma rotate_idiom w n :
  0 < n < 32 -> 0 <= w < 2 ^ 32 ->
  Z.lor (wrap32 (Z.shiftl w n)) (Z.shiftr w (32 - n)) = rotl w n.
Proof.
  intros Hn Hw. unfold rotl, wrap32.
  rewrite Z.shiftl_mul_pow2, Z.shiftr_div_pow2 by lia.
  replace (2 ^ 32) with (2 ^ (32 - n) * 2 ^ n) by (rewrite <- Z.pow_add_r by lia; f_equal; lia).
  rewrite Zmult_mod_distr_r, Z.lor_comm.
  rewrite WordFacts.lor_fields; [lia|lia|].
  split; [apply Z.div_pos; [lia|apply Z.pow_pos_nonneg; lia]|].
  apply Z.div_lt_upper_bound; [apply Z.pow_pos_nonneg; lia|].
  rewrite <- Z.pow_add_r by lia. replace (32 - n + n) with 32 by lia. lia.
Qed.

(** [__builtin_bswap32] reverses the four bytes of a word. *)
Lemma bswap32_reverses v :
  0 <= v < 2 ^ 32 -> Arm64.bswap32 v = byte_reverse v.
Proof.
  intros Hv. unfold Arm64.bswap32, byte_reverse, be_value, wrap32.
  cbn [le_bytes rev app le_value].
  rewrite !WordFacts.land_ff00.
  rewrite !Z.shiftl_mul_pow2, !Z.shiftr_div_pow2 by lia.
  change (2 ^ 32) with (2 ^ 8 * 2 ^ 24). rewrite Zmult_mod_distr_r.
  set (b0 := v mod 2 ^ 8).
  set (b1 := (v / 2 ^ 8) mod 2 ^ 8).
  set (b2 := (v / 2 ^ 8 / 2 ^ 8) mod 2 ^ 8).
  set (b3 := v / 2 ^ 24).
  assert (Hb0 : 0 <= b0 < 256) by (subst b0; WordFacts.euclid).
  assert (Hb1 : 0 <= b1 < 256) by (subst b1; WordFacts.euclid).
  assert (Hb2 : 0 <= b2 < 256) by (subst b2; WordFacts.euclid).
  assert (Hb3 : 0 <= b3 < 256) by (subst b3; WordFacts.euclid).
  replace (v mod 256) with b0 by reflexivity.
  replace ((v / 256) mod 256) with b1 by reflexivity.
  replace ((v / 256 / 256) mod 256) with b2 by reflexivity.
  replace ((v / 256 / 256 / 256) mod 256) with b3 by (subst b3; WordFacts.euclid).
  rewrite (Z.lor_comm (b2 * 2 ^ 8) b3).
  rewrite (WordFacts.lor_fields b3 b2 8) by lia.
  rewrite (Z.lor_comm (b0 * 2 ^ 24) (b1 * 2 ^ 8 * 2 ^ 8)).
  rewrite (WordFacts.lor_fields (b1 * 2 ^ 8 * 2 ^ 8) b0 24) by lia.
  rewrite Z.lor_comm.
  replace (b1 * 2 ^ 8 * 2 ^ 8 + b0 * 2 ^ 24) with ((b1 + b0 * 2 ^ 8) * 2 ^ 16) by lia.
  rewrite WordFacts.lor_fields by lia.
  lia.
Qed.

Lemma arm_word_is_mix_word w :
  0 <= w < 2 ^ 32 -> Arm64.arm_word w = mix_word w.
Proof.
  intros Hw. unfold Arm64.arm_word, mix_word.
  change 19 with (32 - 13). rewrite (rotate_idiom w 13) by lia.
  pose proof (rotl_u32 w 13 ltac:(lia) Hw) as H1.
  set (w1 := rotl w 13) in *.
  rewrite Z.shiftr_div_pow2 by lia.
  assert (H1' : 0 <= w1 / 2 ^ 7 < 2 ^ 32) by WordFacts.euclid.
  pose proof (WordFacts.lxor_u32 _ _ H1 H1') as H2.
  set (w2 := Z.lxor w1 (w1 / 2 ^ 7)) in *.
  unfold wrap32. rewrite Z.shiftl_mul_pow2 by lia.
  apply bswap32_reverses.
  apply WordFacts.lxor_u32; [exact H2|].
  apply Z.mod_pos_bound. lia.
Qed.

(** The loop over the core state visits position [i] with the initial
    state rotated [i] times. *)
Lemma mix_core_state_positions ws : forall c,
  0 <= c < 2 ^ 32 ->
  mix_core_state c ws
  = imap (fun i w => Z.lxor w (Nat.iter i (fun c => rotl c 1) c)) ws.
Proof.
  induction ws as [|w ws IH]; intros c Hc; cbn [mix_core_state imap]; [reflexivity|].
  f_equal.
  change 31 with (32 - 1). rewrite (rotate_idiom c 1) by lia.
  rewrite IH by (apply rotl_u32; lia).
  apply imap_ext. intros i x _. cbn [compose].
  f_equal. symmetry. exact (Nat.iter_succ_r i (fun c0 => rotl c0 1) c).
Qed.

(** Once the digest is read as eight little-endian words, the rest of
    the stage is the reference transform: each word rotated left by 13,
    folded with its shifts by 7 and 17 and byte-reversed, then mixed with
    the rotating core state 0x12345678, written back in little-endian
    order and hashed with SHA-256. *)
Lemma mixing_of_le_words (m : MobileXMiner) (V : list Z) :
  is_Some (arm64_ m) -> length V = 32%nat -> Forall is_byte V ->
  applyMobileMixing split_words m V = mobileMix_reference V.
Proof.
  intros [a Ha] Hlen Hbytes.
  unfold applyMobileMixing, mobileMix_reference, uint32sToBytes. rewrite Ha.
  f_equal. f_equal. f_equal.
  rewrite mix_core_state_positions by lia.
  unfold core_state_at. f_equal.
  unfold Arm64.armSpecificHash, bytesToUint32s.
  do 32 (destruct V as [|? V]; [discriminate Hlen|]).
  destruct V; [|discriminate Hlen].
  repeat match goal with
         | H : Forall _ (_ :: _) |- _ => apply Forall_cons in H; destruct H as [? H]
         end.
  cbn [split_words seq map take drop Nat.mul Nat.add].
  rewrite !arm_word_is_mix_word by (apply WordFacts.le_value_u32; assumption).
  reflexivity.
Qed.

(** C3, the defect: [applyMobileMixing] never forms the eight
    little-endian words of the reference definition.  [bytesToUint32s]
    returns the bytes it was given, 32 of them for a digest, and the
    function passes that byte vector where a vector of 32-bit words is
    required, which C++ does not convert.  What the stage computes hangs
    on the conversion a build has to add: with the little-endian reading
    it is the reference definition on every digest; with one word per
    byte it is not, and the first hash of a fresh miner, on a header of
    80 zero bytes, comes out different. *)
Theorem applyMobileMixing_lacks_conversion :
  (forall V, bytesToUint32s V = V) /\
  (forall m V, is_Some (arm64_ m) -> length V = 32%nat -> Forall is_byte V ->
     applyMobileMixing split_words m V = mobileMix_reference V) /\
  (let V := Sha256.SHA256 (replicate 32 0 ++ replicate 1024 0) in
   let header := replicate 80 0 in
   digest (computeMobileXHash split_words fresh_miner header) = mobileMix_reference V /\
   take 4 (mobileMix_reference V) = [243; 75; 114; 164] /\
   take 4 (digest (computeMobileXHash one_word_per_byte fresh_miner header))
   = [125; 199; 193; 202] /\
   digest (computeMobileXHash one_word_per_byte fresh_miner header)
   <> mobileMix_reference V).
Proof.
  split; [reflexivity|]. split; [exact mixing_of_le_words|].
  intros V header.
  assert (Hle : digest (computeMobileXHash split_words fresh_miner header)
                = mobileMix_reference V) by (vm_compute; reflexivity).
  assert (Href : take 4 (mobileMix_reference V) = [243; 75; 114; 164])
    by (vm_compute; reflexivity).
  assert (Hone : take 4 (digest (computeMobileXHash one_word_per_byte fresh_miner header))
                 = [125; 199; 193; 202]) by (vm_compute; reflexivity).
  split; [exact Hle|]. split; [exact Href|]. split; [exact Hone|].
  intros H. rewrite H, Href in Hone. discriminate Hone.
Qed.

(** The two readings on the same digest: eight words against thirty-two. *)
Example conversions_differ :
  length (split_words (replicate 32 1)) = 8%nat /\
  length (one_word_per_byte (bytesToUint32s (replicate 32 1))) = 32%nat /\
  length (uint32sToBytes (Arm64.armSpecificHash (one_word_per_byte (replicate 32 1))))
  = 128%nat.
Proof. repeat split. Qed.

(** Without the optimizer the word transform is skipped. *)
Example mixing_without_optimizer :
  applyMobileMixing split_words new_miner (replicate 32 1)
  <> mobileMix_reference (replicate 32 1).
Proof.
  intros H. apply (f_equal (fun l => nth 0 l 0)) in H. vm_compute in H. discriminate H.
Qed.

Example mix_word_1 : mix_word 1 = 0x40208040 /\ Arm64.arm_word 1 = 0x40208040.
Proof. split; vm_compute; reflexivity. Qed.
End MinerFacts.
(** ** Thermal proofs: history and validation *)

Module ThermalFacts.
Import Word Thermal.
Local Open Scope Z_scope.

Lemma thermalHistory_addToHistory p v :
  thermalHistory_ (addToHistory p v)
  = drop (S (length (thermalHistory_ v)) - MAX_HISTORY_SIZE) (thermalHistory_ v ++ [p]).
Proof.
  unfold addToHistory; cbn [thermalHistory_].
  rewrite length_app; cbn [length]. rewrite Nat.add_1_r.
  destruct (Nat.ltb_spec MAX_HISTORY_SIZE (S (length (thermalHistory_ v)))) as [Hlt|Hge].
  - reflexivity.
  - replace (S (length (thermalHistory_ v)) - MAX_HISTORY_SIZE)%nat with 0%nat by lia.
    reflexivity.
Qed.

Lemma thermalHistory_generate v w header :
  thermalHistory_ (snd (fst (generateThermalProof v w header)))
  = thermalHistory_ (addToHistory (fst (measure v w header)) v).
Proof.
  unfold generateThermalProof. destruct (measure v w header) as [p w']. reflexivity.
Qed.

Lemma thermalHistory_validate v w proof header :
  thermalHistory_ (snd (fst (validateThermalProof v w proof header)))
  = thermalHistory_
      (snd (fst (generateThermalProof v w (serializeHeaderForThermalValidation header)))).
Proof.
  unfold validateThermalProof.
  destruct (generateThermalProof v w _) as [[e v'] w']. reflexivity.
Qed.

Lemma sampleCount_history (v : ThermalVerification) :
  sampleCount (getThermalStatistics v) = Z.of_nat (length (thermalHistory_ v)).
Proof.
  unfold getThermalStatistics.
  destruct (thermalHistory_ v) as [|first rest]; [reflexivity|].
  destruct (history_totals (first :: rest)) as [[[totalTemp totalFreq] minTemp] maxTemp].
  reflexivity.
Qed.

(** C10, as the code has it: a validation regenerates a proof and appends
    it to the history, dropping the oldest entries beyond the cap of
    1000, so the history grows by one entry until it is full and the
    sample count [getThermalStatistics] reports moves with it; the cheat
    detector reads the window it is given and nothing of the verifier, so
    its answer is the same before and after. *)
Theorem validate_appends_to_history (v : ThermalVerification) (w : Clocks)
    (proof : Z) (header : list Z) :
  let v' := snd (fst (validateThermalProof v w proof header)) in
  let p := fst (measure v w (serializeHeaderForThermalValidation header)) in
  let n := length (thermalHistory_ v) in
  thermalHistory_ v' = drop (S n - 1000) (thermalHistory_ v ++ [p]) /\
  last (thermalHistory_ v') = Some p /\
  length (thermalHistory_ v') = Nat.min (S n) 1000 /\
  ((n < 1000)%nat -> thermalHistory_ v' = thermalHistory_ v ++ [p]) /\
  sampleCount (getThermalStatistics v) = Z.of_nat n /\
  sampleCount (getThermalStatistics v') = Z.of_nat (Nat.min (S n) 1000) /\
  (forall proofs threshold,
     detectThermalCheating v' proofs threshold = detectThermalCheating v proofs threshold).
Proof.
  intros v' p n.
  assert (Hhistory : thermalHistory_ v' = drop (S n - 1000) (thermalHistory_ v ++ [p])).
  { subst v'.
    rewrite thermalHistory_validate, thermalHistory_generate, thermalHistory_addToHistory.
    reflexivity. }
  assert (Hlength : length (thermalHistory_ v') = Nat.min (S n) 1000).
  { rewrite Hhistory, length_drop, length_app. cbn [length]. fold n. lia. }
  split; [exact Hhistory|]. split; [|split; [exact Hlength|split; [|split; [|split]]]].
  - rewrite Hhistory, drop_app_le by (fold n; lia). apply last_snoc.
  - intros Hn. rewrite Hhistory. replace (S n - 1000)%nat with 0%nat by lia. reflexivity.
  - apply sampleCount_history.
  - now rewrite sampleCount_history, Hlength.
  - reflexivity.
Qed.

(** C10 fails as stated: a validation on a verifier that ran hot adds a
    proof at 60 degrees to a history of eleven at 40, and the statistics
    of the history move, but the detector, asked about the same window
    before and after, computes the same mean and answers the same. *)
Lemma detector_ignores_history :
  let v := heated_verifier in
  let v' := snd (fst (validateThermalProof v steady_clocks 0 (replicate 40 0))) in
  let window := replicate 12 (sample (F32.of_Z 40)) in
  sampleCount (getThermalStatistics v) = 11 /\
  sampleCount (getThermalStatistics v') = 12 /\
  maxTemperature (getThermalStatistics v) = F32.of_Z 40 /\
  maxTemperature (getThermalStatistics v') = F32.of_Z 60 /\
  window_mean window = F64.of_Z 40 /\
  detectThermalCheating v window (F64.of_Z 2) = [] /\
  detectThermalCheating v' window (F64.of_Z 2) = [] /\
  detectThermalCheating v window_with_outlier (F64.of_Z 2) = [11] /\
  detectThermalCheating v' window_with_outlier (F64.of_Z 2) = [11].
Proof. vm_compute. repeat split. Qed.

(** What [getThermalStatistics] reports on the history of that verifier
    after the validation: eleven proofs at 40 degrees and one at 60. *)
Example statistics_after_validation :
  let v' := snd (fst (validateThermalProof heated_verifier steady_clocks 0
                        (replicate 40 0))) in
  let stats := getThermalStatistics v' in
  let milli x := F64.to_u64 (F64.mul (F64.of_Z 1000) (F64.of_f32 x)) in
  milli (averageTemperature stats) = 41666 /\
  milli (minTemperature stats) = 40000 /\
  milli (maxTemperature stats) = 60000 /\
  milli (stdDevTemperature stats) = 5527.
Proof. vm_compute. repeat split. Qed.

(** The same regeneration is what [generateThermalProof] itself does. *)
Lemma generate_appends_to_history v w header :
  (length (thermalHistory_ v) < 1000)%nat ->
  thermalHistory_ (snd (fst (generateThermalProof v w header)))
  = thermalHistory_ v ++ [fst (measure v w header)].
Proof.
  intros Hn. rewrite thermalHistory_generate, thermalHistory_addToHistory.
  change MAX_HISTORY_SIZE with 1000%nat.
  replace (S (length (thermalHistory_ v)) - 1000)%nat with 0%nat by lia. reflexivity.
Qed.

(** C5, the failing input: a 40-byte header, the default tolerance of 5
    per cent, and a second measurement whose cycle sample is one nanosecond
    off: the proof just generated is rejected. *)
Theorem round_trip_rejected :
  round_trip (verifier_at_40 5) jittery_clocks (replicate 40 0) = false.
Proof. vm_compute. reflexivity. Qed.

(** With measurements identical to the nanosecond the same proof passes... *)
Example round_trip_steady :
  round_trip (verifier_at_40 5) steady_clocks (replicate 40 0) = true.
Proof. vm_compute. reflexivity. Qed.

(** ... unless the header has between 8 and 39 bytes, for the validation
    then measures a shorter workload than the generation did ... *)
Example round_trip_short_header :
  round_trip (verifier_at_40 5) steady_clocks (replicate 32 0) = false.
Proof. vm_compute. reflexivity. Qed.

(** ... while a header of fewer than 8 bytes is validated as it is ... *)
Example round_trip_tiny_header :
  round_trip (verifier_at_40 5) steady_clocks (replicate 4 0) = true.
Proof. vm_compute. reflexivity. Qed.

(** ... or the tolerance is zero, for the bounds are the proof rounded to
    a [double]. *)
Example round_trip_zero_tolerance :
  round_trip (verifier_at_40 0) steady_clocks (replicate 40 0) = false.
Proof. vm_compute. reflexivity. Qed.

Example generated_proof_steady :
  fst (fst (generateThermalProof (verifier_at_40 5) steady_clocks (replicate 40 0)))
  = 6331476942483380269.
Proof. vm_compute. reflexivity. Qed.
End ThermalFacts.

(** ** The cheat detector *)

Module DetectorFacts.
Import IEEE Thermal.
Local Open Scope Z_scope.

(** *** The outlier loop lists the suspect indices *)

Lemma outlier_loop_indices mean stdDev threshold rest : forall i outliers,
  outlier_loop mean stdDev threshold i rest outliers
  = outliers ++
    map (fun ip => int_of_size (fst ip))
        (List.filter (fun ip => F64.gtb (zScore mean stdDev (snd ip)) threshold)
                     (combine (seq i (length rest)) rest)).
Proof.
  induction rest as [|proof rest IH]; intros i outliers; cbn [outlier_loop].
  - cbn. now rewrite app_nil_r.
  - rewrite IH. cbn [length seq combine List.filter fst snd].
    destruct (F64.gtb (zScore mean stdDev proof) threshold); cbn [map fst].
    + now rewrite <- app_assoc.
    + reflexivity.
Qed.

Lemma combine_seq_lookup (proofs : list ThermalProof) (f : ThermalProof -> bool) :
  forall i,
  map fst (List.filter (fun ip => f (snd ip)) (combine (seq i (length proofs)) proofs))
  = List.filter (fun k => match proofs !! (k - i)%nat with
                          | Some proof => f proof
                          | None => false
                          end)
                (seq i (length proofs)).
Proof.
  induction proofs as [|proof proofs IH]; intros i; [reflexivity|].
  cbn [length seq combine List.filter snd]. rewrite Nat.sub_diag. cbn [lookup list_lookup].
  assert (Htail : List.filter
            (fun k => match (proof :: proofs) !! (k - i)%nat with
                      | Some p => f p
                      | None => false
                      end) (seq (S i) (length proofs))
          = List.filter
            (fun k => match proofs !! (k - S i)%nat with
                      | Some p => f p
                      | None => false
                      end) (seq (S i) (length proofs))).
  { apply List.filter_ext_in. intros k Hk. apply in_seq in Hk.
    replace (k - i)%nat with (S (k - S i)) by lia. reflexivity. }
  destruct (f proof); cbn [map fst]; rewrite IH, Htail; reflexivity.
Qed.

Lemma int_of_size_small (i : nat) : Z.of_nat i < 2 ^ 31 -> int_of_size i = Z.of_nat i.
Proof.
  intros Hi. unfold int_of_size, Word.wrap32.
  rewrite Z.mod_small by lia.
  destruct (Z.ltb_spec (Z.of_nat i) (2 ^ 31)); lia.
Qed.

(** For at least ten proofs the detector returns, in increasing order,
    the positions whose z-score exceeds the threshold. *)
Lemma detect_lists_suspects (v : ThermalVerification) (proofs : list ThermalProof)
    (threshold : F64.t) :
  (10 <= length proofs)%nat -> Z.of_nat (length proofs) < 2 ^ 31 ->
  detectThermalCheating v proofs threshold
  = map Z.of_nat (List.filter (suspect proofs threshold) (seq 0 (length proofs))).
Proof.
  intros Hmin Hmax. unfold detectThermalCheating.
  destruct (Nat.ltb_spec (length proofs) 10) as [|_]; [lia|].
  rewrite outlier_loop_indices. cbn [app].
  fold (window_mean proofs). fold (window_stddev proofs).
  pose (f := fun proof => F64.gtb (zScore (window_mean proofs) (window_stddev proofs) proof)
                                  threshold).
  rewrite <- (map_map fst int_of_size).
  pose proof (combine_seq_lookup proofs f 0) as Hc. subst f. cbv beta in Hc.
  rewrite Hc. clear Hc.
  assert (Hfilter : forall k,
            match proofs !! (k - 0)%nat with
            | Some proof =>
                F64.gtb (zScore (window_mean proofs) (window_stddev proofs) proof) threshold
            | None => false
            end = suspect proofs threshold k).
  { intros k. rewrite Nat.sub_0_r. reflexivity. }
  rewrite (List.filter_ext _ _ Hfilter).
  apply map_ext_in. intros k Hk.
  apply List.filter_In in Hk. destruct Hk as [Hk _]. apply in_seq in Hk.
  apply int_of_size_small. lia.
Qed.

Lemma filter_none {A} (f : A -> bool) (l : list A) :
  (forall x, In x l -> f x = false) -> List.filter f l = [].
Proof.
  induction l as [|x l IH]; intros Hf; [reflexivity|]. cbn [List.filter].
  rewrite (Hf x (or_introl eq_refl)). apply IH. intros y Hy. apply Hf. now right.
Qed.

(** A predicate that holds at one position only selects that position. *)
Lemma filter_only (f : nat -> bool) (n i : nat) :
  (i < n)%nat -> (forall j, (j < n)%nat -> f j = true <-> j = i) ->
  List.filter f (seq 0 n) = [i].
Proof.
  intros Hi Hf.
  replace n with (i + S (n - S i))%nat by lia.
  rewrite seq_app, List.filter_app. cbn [seq List.filter Nat.add].
  rewrite (proj2 (Hf i Hi) eq_refl).
  rewrite !filter_none; [reflexivity| |].
  - intros j Hj. apply in_seq in Hj.
    destruct (f j) eqn:Hfj; [|reflexivity]. apply Hf in Hfj; lia.
  - intros j Hj. apply in_seq in Hj.
    destruct (f j) eqn:Hfj; [|reflexivity]. apply Hf in Hfj; lia.
Qed.


(** *** A window of equal temperatures *)

Lemma sum_fixed (t : F32.t) (acc : F64.t) (proofs : list ThermalProof) :
  all_at t proofs -> F64.add acc (F64.of_f32 t) = acc ->
  fold_left (fun sum proof => F64.add sum (F64.of_f32 (temperature proof))) proofs acc
  = acc.
Proof.
  intros Hall Hfix. induction Hall as [|proof proofs Ht _ IH]; [reflexivity|].
  cbn [fold_left]. now rewrite Ht, Hfix.
Qed.

(** The running sum of [k] more copies of a finite temperature is exact
    as long as it fits 53 digits. *)
Lemma sum_steps (s : bool) (m : positive) (e : Z) (proofs : list ThermalProof) :
  F32.valid (S754_finite s m e) -> all_at (S754_finite s m e) proofs ->
  forall c, 0 < c -> (c + Z.of_nat (length proofs)) * Zpos m < 2 ^ 53 ->
  fold_left (fun sum proof => F64.add sum (F64.of_f32 (temperature proof))) proofs
            (canon 53 s (Z.to_pos c * m) e)
  = canon 53 s (Z.to_pos (c + Z.of_nat (length proofs)) * m) e.
Proof.
  intros Hv Hall. pose proof (FloatFacts.valid_f32_finite s m e Hv) as [Hm He].
  induction Hall as [|proof proofs Ht _ IH]; intros c Hc Hfit.
  - cbn [fold_left length]. now rewrite Z.add_0_r.
  - cbn [fold_left]. rewrite Ht, FloatFacts.of_f32_canon by exact Hv.
    cbn [length] in Hfit. rewrite Nat2Z.inj_succ in Hfit.
    assert (Hnext : (Z.to_pos c * m + m)%positive = (Z.to_pos (c + 1) * m)%positive).
    { apply Pos2Z.inj. rewrite Pos2Z.inj_add, !Pos2Z.inj_mul, !Z2Pos.id by lia. lia. }
    rewrite FloatFacts.add_canon.
    + rewrite Hnext, IH by lia. cbn [length]. rewrite Nat2Z.inj_succ.
      do 3 f_equal. lia.
    + apply FloatFacts.digits_mul_ge.
    + rewrite Hnext. apply FloatFacts.digits_le_pow2; [lia|].
      rewrite Pos2Z.inj_mul, Z2Pos.id by lia. nia.
    + lia.
Qed.

Lemma mean_finite (s : bool) (m : positive) (e : Z) (proofs : list ThermalProof) :
  F32.valid (S754_finite s m e) -> all_at (S754_finite s m e) proofs ->
  (0 < length proofs)%nat -> Z.of_nat (length proofs) <= 2 ^ 29 ->
  window_mean proofs = canon 53 s m e.
Proof.
  intros Hv Hall Hpos Hmax.
  pose proof (FloatFacts.valid_f32_finite s m e Hv) as [Hm He].
  pose proof (FloatFacts.digits_bounds m) as [_ Hm'].
  assert (Hm24 : Zpos m < 2 ^ 24).
  { eapply Z.lt_le_trans; [exact Hm'|]. apply Z.pow_le_mono_r; lia. }
  unfold window_mean, temperature_sum.
  destruct Hall as [|proof rest Ht Hrest]; [cbn in Hpos; lia|].
  cbn [fold_left]. rewrite Ht, FloatFacts.of_f32_canon by exact Hv.
  cbn [length] in *. rewrite Nat2Z.inj_succ in *.
  assert (Hstart : F64.add (F64.of_Z 0) (canon 53 s m e)
                   = canon 53 s (Z.to_pos 1 * m) e) by reflexivity.
  rewrite Hstart, (sum_steps s m e rest Hv Hrest 1) by nia.
  set (n := Z.to_pos (1 + Z.of_nat (length rest))).
  assert (Hn : Z.succ (Z.of_nat (length rest)) = Zpos n) by (unfold n; lia).
  rewrite Hn, FloatFacts.of_Z_canon.
  - apply FloatFacts.div_canon; [|lia].
    apply FloatFacts.digits_le_pow2; [lia|]. rewrite Pos2Z.inj_mul. nia.
  - apply FloatFacts.digits_le_pow2; lia.
Qed.

(** On such a window every difference to the mean is a zero or a NaN. *)
Lemma diff_of_equal (t : F32.t) (proofs : list ThermalProof) :
  F32.valid t -> all_at t proofs ->
  (0 < length proofs)%nat -> Z.of_nat (length proofs) <= 2 ^ 29 ->
  let diff := F64.sub (F64.of_f32 t) (window_mean proofs) in
  diff = S754_nan \/ exists sz, diff = S754_zero sz.
Proof.
  intros Hv Hall Hpos Hmax.
  set (n := Z.to_pos (Z.of_nat (length proofs))).
  assert (Hn : Z.of_nat (length proofs) = Zpos n) by (unfold n; lia).
  assert (Hsize : exists mn en, F64.of_Z (Z.of_nat (length proofs)) = S754_finite false mn en).
  { rewrite Hn, FloatFacts.of_Z_canon by (apply FloatFacts.digits_le_pow2; lia).
    unfold canon. eauto. }
  destruct Hsize as (mn & en & Hsize).
  destruct t as [sz|si| |s m e].
  - right. unfold window_mean, temperature_sum.
    rewrite (sum_fixed (S754_zero sz) (F64.of_Z 0) proofs Hall)
      by (destruct sz; reflexivity).
    rewrite Hsize. destruct sz; eexists; reflexivity.
  - left. unfold window_mean, temperature_sum.
    destruct Hall as [|proof rest Ht Hrest]; [cbn in Hpos; lia|].
    cbn [fold_left]. rewrite Ht.
    rewrite (sum_fixed (S754_infinity si) _ rest Hrest) by (destruct si; reflexivity).
    rewrite Hsize. destruct si; reflexivity.
  - left. unfold window_mean, temperature_sum.
    destruct Hall as [|proof rest Ht Hrest]; [cbn in Hpos; lia|].
    cbn [fold_left]. rewrite Ht.
    rewrite (sum_fixed S754_nan _ rest Hrest) by reflexivity.
    reflexivity.
  - right. exists false.
    rewrite (mean_finite s m e proofs Hv Hall Hpos Hmax).
    rewrite FloatFacts.of_f32_canon by exact Hv.
    unfold canon, F64.sub, SFsub.
    rewrite Z.min_id. unfold shl_align. rewrite Z.sub_diag. cbn [fst].
    reflexivity.
Qed.

Lemma variance_of_zero_diffs (mean : F64.t) (proofs : list ThermalProof) :
  Forall (fun proof => exists sz,
            F64.sub (F64.of_f32 (temperature proof)) mean = S754_zero sz) proofs ->
  temperature_variance mean proofs = S754_zero false.
Proof.
  unfold temperature_variance. change (F64.of_Z 0) with (S754_zero false).
  induction 1 as [|proof proofs [sz Hz] _ IH]; [reflexivity|].
  cbn [fold_left]. rewrite Hz.
  replace (F64.add (S754_zero false) (F64.mul (S754_zero sz) (S754_zero sz)))
    with (S754_zero false) by (destruct sz; reflexivity).
  exact IH.
Qed.

(** Hence no z-score is a number, and none compares above a threshold. *)
Lemma suspect_of_equal (t : F32.t) (proofs : list ThermalProof) (threshold : F64.t) :
  F32.valid t -> all_at t proofs ->
  (0 < length proofs)%nat -> Z.of_nat (length proofs) <= 2 ^ 29 ->
  forall i, suspect proofs threshold i = false.
Proof.
  intros Hv Hall Hpos Hmax i. unfold suspect.
  destruct (proofs !! i) as [proof|] eqn:Hi; [|reflexivity].
  assert (Ht : temperature proof = t).
  { unfold all_at in Hall. rewrite Forall_lookup in Hall. exact (Hall i proof Hi). }
  assert (Hnan : zScore (window_mean proofs) (window_stddev proofs) proof = S754_nan).
  { unfold zScore. rewrite Ht.
    destruct (diff_of_equal t proofs Hv Hall Hpos Hmax) as [Hd|[sz Hd]]; rewrite Hd.
    - reflexivity.
    - unfold window_stddev.
      rewrite variance_of_zero_diffs.
      + set (n := Z.to_pos (Z.of_nat (length proofs))).
        assert (Hn : Z.of_nat (length proofs) = Zpos n) by (unfold n; lia).
        rewrite Hn, FloatFacts.of_Z_canon by (apply FloatFacts.digits_le_pow2; lia).
        reflexivity.
      + eapply Forall_impl; [exact Hall|]. cbv beta. intros p Hp. rewrite Hp.
        exists sz. exact Hd. }
  rewrite Hnan. unfold F64.gtb, SFltb. destruct threshold; reflexivity.
Qed.

(** *** The code against the text *)

Lemma fold_left_add_map {A : Type} (g : A -> F64.t) (l : list A) : forall acc,
  fold_left (fun sum x => F64.add sum (g x)) l acc = fold_left F64.add (map g l) acc.
Proof. induction l as [|x l IH]; intros acc; [reflexivity|]. cbn [fold_left map]. apply IH. Qed.

Lemma window_mean_spec (proofs : list ThermalProof) :
  window_mean proofs = DetectorSpec.mean (DetectorSpec.temperatures proofs).
Proof.
  unfold window_mean, temperature_sum, DetectorSpec.mean, DetectorSpec.total,
    DetectorSpec.count, DetectorSpec.temperatures.
  now rewrite fold_left_add_map, length_map.
Qed.

Lemma window_stddev_spec (proofs : list ThermalProof) :
  window_stddev proofs = DetectorSpec.stddev (DetectorSpec.temperatures proofs).
Proof.
  unfold window_stddev, temperature_variance.
  rewrite window_mean_spec, fold_left_add_map.
  unfold DetectorSpec.stddev, DetectorSpec.count, DetectorSpec.total.
  set (temps := DetectorSpec.temperatures proofs).
  replace (length temps) with (length proofs) by (symmetry; apply length_map).
  do 3 f_equal.
  transitivity (map (DetectorSpec.squared_deviation temps)
                    (map (fun proof => F64.of_f32 (temperature proof)) proofs));
    [|reflexivity].
  rewrite map_map. reflexivity.
Qed.

Lemma suspect_spec (proofs : list ThermalProof) (threshold : F64.t) (i : nat) :
  suspect proofs threshold i
  = DetectorSpec.exceeds (DetectorSpec.temperatures proofs) threshold i.
Proof.
  unfold suspect, DetectorSpec.exceeds, DetectorSpec.temperatures at 1.
  change (map ?f proofs) with (f <$> proofs). rewrite list_lookup_fmap.
  destruct (proofs !! i) as [proof|]; [|reflexivity]. cbn [fmap option_fmap option_map].
  unfold zScore, DetectorSpec.z_score.
  now rewrite window_mean_spec, window_stddev_spec.
Qed.

Lemma detect_is_spec (v : ThermalVerification) (proofs : list ThermalProof)
    (threshold : F64.t) :
  Z.of_nat (length proofs) < 2 ^ 31 ->
  detectThermalCheating v proofs threshold
  = map Z.of_nat (DetectorSpec.suspects (DetectorSpec.temperatures proofs) threshold).
Proof.
  intros Hmax. unfold DetectorSpec.suspects.
  assert (Hlen : length (DetectorSpec.temperatures proofs) = length proofs)
    by apply length_map.
  rewrite Hlen.
  destruct (Nat.ltb_spec (length proofs) 10) as [Hfew|Hmany].
  - unfold detectThermalCheating.
    destruct (Nat.ltb_spec (length proofs) 10); [reflexivity|lia].
  - rewrite detect_lists_suspects by lia.
    f_equal. apply List.filter_ext. intros i. apply suspect_spec.
Qed.

(** *** The detector *)

(** C7: on windows of fewer than 2^31 proofs, the range of the [int]
    positions returned, the detector computes what the text says: nothing
    for fewer than ten proofs, otherwise the positions, in increasing
    order, whose z-score |t - mean| / stddev over the whole window exceeds
    the threshold, the text's quantities being evaluated in [double] on
    the window's temperatures.  So a window of ten or more equal
    temperatures yields the empty list (up to 2^29 proofs, where the sum
    of the temperatures is exact), and a window with exactly one position
    whose z-score exceeds the threshold yields that position alone. *)
Theorem detectThermalCheating_spec (v : ThermalVerification)
    (proofs : list ThermalProof) (threshold : F64.t) :
  let temps := DetectorSpec.temperatures proofs in
  (Z.of_nat (length proofs) < 2 ^ 31 ->
   detectThermalCheating v proofs threshold
   = map Z.of_nat (DetectorSpec.suspects temps threshold)) /\
  ((length proofs < 10)%nat -> detectThermalCheating v proofs threshold = []) /\
  (forall t, (10 <= length proofs)%nat -> Z.of_nat (length proofs) <= 2 ^ 29 ->
   F32.valid t -> all_at t proofs ->
   detectThermalCheating v proofs threshold = []) /\
  (forall i, (10 <= length proofs)%nat -> Z.of_nat (length proofs) < 2 ^ 31 ->
   (i < length proofs)%nat ->
   (forall j, (j < length proofs)%nat ->
      DetectorSpec.exceeds temps threshold j = true <-> j = i) ->
   detectThermalCheating v proofs threshold = [Z.of_nat i]).
Proof.
  intros temps. split; [|split; [|split]].
  - apply detect_is_spec.
  - intros Hlt. unfold detectThermalCheating.
    destruct (Nat.ltb_spec (length proofs) 10); [reflexivity|lia].
  - intros t Hmin Hmax Hv Hall.
    rewrite detect_lists_suspects by lia.
    rewrite filter_none; [reflexivity|].
    intros i _. apply (suspect_of_equal t); [assumption|assumption|lia|assumption].
  - intros i Hmin Hmax Hi Honly.
    rewrite detect_lists_suspects by assumption.
    rewrite (filter_only _ _ i Hi); [reflexivity|].
    intros j Hj. rewrite suspect_spec. now apply Honly.
Qed.

Lemma detectThermalCheating_spec_witness :
  let v := verifier_at_40 5 in
  detectThermalCheating v window_with_outlier (F64.of_Z 2) = [11] /\
  detectThermalCheating v window_with_cold_outlier (F64.of_Z 2) = [11] /\
  detectThermalCheating v (replicate 12 (sample (F32.of_Z 40))) (F64.of_Z 2) = [] /\
  detectThermalCheating v (replicate 9 (sample (F32.of_Z 40))) (F64.of_Z 2) = [].
Proof.
  intros v. split; [|split; [|split]].
  - destruct (detectThermalCheating_spec v window_with_outlier (F64.of_Z 2))
      as (Hlist & _).
    rewrite Hlist; [vm_compute; reflexivity|vm_compute; reflexivity].
  - destruct (detectThermalCheating_spec v window_with_cold_outlier (F64.of_Z 2))
      as (Hlist & _).
    rewrite Hlist; [vm_compute; reflexivity|vm_compute; reflexivity].
  - destruct (detectThermalCheating_spec v (replicate 12 (sample (F32.of_Z 40)))
                (F64.of_Z 2))
      as (_ & _ & Hequal & _).
    apply (Hequal (F32.of_Z 40)).
    + vm_compute; lia.
    + vm_compute; discriminate.
    + reflexivity.
    + apply Forall_replicate. reflexivity.
  - destruct (detectThermalCheating_spec v (replicate 9 (sample (F32.of_Z 40))) (F64.of_Z 2))
      as (Hfew & _).
    rewrite Hfew; [vm_compute; reflexivity|vm_compute; reflexivity].
Defined.

(** The text's quantities on the window of eleven proofs at 40 degrees
    and one at 60: the mean is 41.66..., the deviation 5.52..., and the
    z-scores are 0.30 at 40 degrees and 3.31, the square root of 11, at
    60; with one at 20 instead the scores are the same. *)
Example spec_values_hot_outlier :
  let temps := DetectorSpec.temperatures window_with_outlier in
  let milli x := F64.to_u64 (F64.mul (F64.of_Z 1000) x) in
  milli (DetectorSpec.mean temps) = 41666 /\
  milli (DetectorSpec.stddev temps) = 5527 /\
  milli (DetectorSpec.z_score temps (F64.of_Z 40)) = 301 /\
  milli (DetectorSpec.z_score temps (F64.of_Z 60)) = 3316.
Proof. vm_compute. repeat split. Qed.

Example spec_values_cold_outlier :
  let temps := DetectorSpec.temperatures window_with_cold_outlier in
  let milli x := F64.to_u64 (F64.mul (F64.of_Z 1000) x) in
  milli (DetectorSpec.mean temps) = 38333 /\
  milli (DetectorSpec.stddev temps) = 5527 /\
  milli (DetectorSpec.z_score temps (F64.of_Z 40)) = 301 /\
  milli (DetectorSpec.z_score temps (F64.of_Z 20)) = 3316.
Proof. vm_compute. repeat split. Qed.

Example outlier_threshold_2 :
  detectThermalCheating (verifier_at_40 5) window_with_outlier (F64.of_Z 2) = [11].
Proof. vm_compute. reflexivity. Qed.

Example outlier_threshold_10 :
  detectThermalCheating (verifier_at_40 5) window_with_outlier (F64.of_Z 10) = [].
Proof. vm_compute. reflexivity. Qed.

(** A temperature that is not a multiple of a power of two, such as
    36.6, changes nothing: the mean of equal values is that value. *)
Example equal_window_inexact_decimal :
  let t := F32.div (F32.of_Z 366) (F32.of_Z 10) in
  window_mean (replicate 1000 (sample t)) = F64.of_f32 t /\
  detectThermalCheating (verifier_at_40 5) (replicate 1000 (sample t)) (F64.of_Z 0) = [].
Proof. vm_compute. split; reflexivity. Qed.
End DetectorFacts.
(** ** The foreign-function surface on a zero handle *)

Module JniFacts.
Import Jni.
Local Open Scope Z_scope.

Section Bridge.
Context {E : Type} `{EngineOps E}.

Lemma query_null {R : Type} (sentinel : R) (get : E -> R) (p : Process E) :
  query sentinel get 0 p = Some sentinel.
Proof. reflexivity. Qed.

(** C9, as the code has it: [createMiner] answers the zero handle and
    keeps no object when construction throws or [initialize] fails; on a
    zero handle every other export returns its sentinel, which is zero or
    false except for the temperature, 30.0, and changes nothing, except
    that [startMining] writes one error line to the log. *)
Theorem null_handle_surface (p : Process E) :
  (forall address,
     fst (createMiner address None p) = 0 /\
     engines (snd (createMiner address None p)) = engines p) /\
  (forall address miner,
     fst (initialize miner) = false ->
     fst (createMiner address (Some miner) p) = 0 /\
     engines (snd (createMiner address (Some miner) p)) = engines p) /\
  (forall intensity,
     jni_startMining 0 intensity p = Some (false, log LogInvalidPointer p)) /\
  jni_stopMining 0 p = Some (false, p) /\
  jni_getHashRate 0 p = Some (S754_zero false) /\
  jni_getRandomXHashRate 0 p = Some (S754_zero false) /\
  jni_getMobileXHashRate 0 p = Some (S754_zero false) /\
  jni_getCurrentTemperature 0 p = Some (F32.of_Z 30) /\
  jni_getNPUUtilization 0 p = Some (S754_zero false) /\
  jni_isMining 0 p = Some false /\
  jni_generateThermalProof 0 p = Some (0, p) /\
  configureNPU 0 p = p /\
  destroyMiner 0 p = Some p.
Proof.
  split; [intros address; split; reflexivity|].
  split.
  { intros address miner Hinit. unfold createMiner.
    destruct (initialize miner) as [ok miner']. cbn [fst] in Hinit. subst ok.
    split; reflexivity. }
  repeat split.
Qed.
End Bridge.

(** C9 fails as stated for the temperature: on a zero handle the bridge
    answers 30.0, which is not a zero value. *)
Lemma null_temperature_is_30 :
  jni_getCurrentTemperature 0 no_engines = Some (F32.of_Z 30) /\
  F32.of_Z 30 <> S754_zero false /\
  SFeqb (F32.of_Z 30) (S754_zero false) = false.
Proof. split; [reflexivity|split; [discriminate|reflexivity]]. Qed.

Example create_fails_then_succeeds :
  let broken := Probe false false (F64.of_Z 0) (F32.of_Z 35) (F32.of_Z 0) in
  let working := Probe true false (F64.of_Z 0) (F32.of_Z 35) (F32.of_Z 0) in
  fst (createMiner 4096 (Some broken) no_engines) = 0 /\
  fst (createMiner 4096 (Some working) no_engines) = 4096 /\
  jni_getCurrentTemperature 4096 (snd (createMiner 4096 (Some working) no_engines))
    = Some (F32.of_Z 35).
Proof. repeat split; vm_compute; reflexivity. Qed.
End JniFacts.

(** ** More on the XOR fold *)

Module Arm64More.
Import Arm64.
Local Open Scope nat_scope.

Lemma vectorHash_as_fold (a : ARM64Optimizer) (data : list Z) :
  vectorHash a data = xor_fold 0 data (replicate 32 0%Z).
Proof.
  unfold vectorHash, scalarHash.
  destruct (negb (hasNEON (features_ a))); [reflexivity|].
  destruct (arm_neon_build a); [|reflexivity].
  set (chunks := length data / 16).
  assert (Hle : chunks * 16 <= length data).
  { unfold chunks. pose proof (Nat.div_mod_eq (length data) 16). lia. }
  rewrite Arm64Facts.neon_loop_scalar; [|apply length_replicate|simpl; lia].
  simpl (0 * 16). rewrite drop_0.
  rewrite <- (take_drop (chunks * 16) data) at 3.
  rewrite Arm64Facts.xor_fold_app. f_equal.
  rewrite length_take. lia.
Qed.

(** X1: on an input of at most 32 bytes the hash is the input itself,
    padded with zeros to 32 bytes; in particular the preprocessing of a
    32-byte header returns the header. *)
Theorem vectorHash_short_input (a : ARM64Optimizer) (data : list Z) :
  length data <= 32 ->
  vectorHash a data = data ++ replicate (32 - length data) 0%Z.
Proof.
  intros Hlen. rewrite vectorHash_as_fold.
  do 33 (destruct data as [|? data]; [reflexivity|]).
  cbn [length] in Hlen. lia.
Qed.

Lemma vectorHash_short_input_witness :
  length [1; 2; 3]%Z <= 32 /\
  vectorHash (Optimizer (detectFeatures default_features) true) [1; 2; 3]%Z
  = [1; 2; 3]%Z ++ replicate (32 - length [1; 2; 3]%Z) 0%Z.
Proof.
  assert (H : length [1; 2; 3]%Z <= 32) by (cbn; lia).
  exact (conj H (vectorHash_short_input _ _ H)).
Defined.

Lemma alter_zip_with_xor (v : Z) : forall (r s : list Z) (k : nat),
  alter (fun x => Z.lxor x v) k (zip_with Z.lxor r s)
  = zip_with Z.lxor r (alter (fun x => Z.lxor x v) k s).
Proof.
  induction r as [|x r IH]; intros s k; [reflexivity|].
  destruct s as [|y s]; [reflexivity|].
  destruct k as [|k]; cbn [zip_with alter list_alter].
  - now rewrite Z.lxor_assoc.
  - f_equal. apply IH.
Qed.

Lemma zip_with_xor_zeros (r : list Z) :
  zip_with Z.lxor r (replicate (length r) 0%Z) = r.
Proof.
  induction r as [|x r IH]; [reflexivity|].
  cbn [length replicate zip_with]. now rewrite Z.lxor_0_r, IH.
Qed.

Lemma zip_with_xor_assoc : forall (a b c : list Z),
  zip_with Z.lxor (zip_with Z.lxor a b) c = zip_with Z.lxor a (zip_with Z.lxor b c).
Proof.
  induction a as [|x a IH]; intros b c; [reflexivity|].
  destruct b as [|y b]; [reflexivity|]. destruct c as [|z c]; [reflexivity|].
  cbn [zip_with]. now rewrite Z.lxor_assoc, IH.
Qed.

(** Folding into a non-zero accumulator is folding into zeros and
    combining afterwards. *)
Lemma xor_fold_accumulator (data : list Z) : forall (i : nat) (r : list Z),
  length r = 32 ->
  xor_fold i data r = zip_with Z.lxor r (xor_fold i data (replicate 32 0%Z)).
Proof.
  induction data as [|b data IH]; intros i r Hr; cbn [xor_fold].
  - rewrite <- Hr. symmetry. apply zip_with_xor_zeros.
  - rewrite IH by (now rewrite length_alter).
    rewrite (IH (S i) (alter _ _ (replicate 32 0%Z)))
      by (now rewrite length_alter, length_replicate).
    rewrite <- zip_with_xor_assoc. f_equal.
    rewrite <- alter_zip_with_xor. f_equal.
    rewrite <- Hr. symmetry. apply zip_with_xor_zeros.
Qed.

(** X2: the hash of a concatenation whose first part is a whole number of
    32-byte blocks is the byte-wise exclusive or of the two hashes. *)
Theorem scalarHash_app (a b : list Z) :
  length a mod 32 = 0 ->
  scalarHash (a ++ b) = zip_with Z.lxor (scalarHash a) (scalarHash b).
Proof.
  intros Ha. unfold scalarHash.
  rewrite Arm64Facts.xor_fold_app.
  rewrite (Arm64Facts.xor_fold_residue b (0 + length a) 0)
    by (now rewrite Nat.add_0_l, Ha).
  apply xor_fold_accumulator.
  now rewrite Arm64Facts.length_xor_fold, length_replicate.
Qed.

Lemma scalarHash_app_witness :
  length (replicate 32 7%Z) mod 32 = 0 /\
  scalarHash (replicate 32 7%Z ++ [1; 2]%Z)
  = zip_with Z.lxor (scalarHash (replicate 32 7%Z)) (scalarHash [1; 2]%Z).
Proof.
  assert (H : length (replicate 32 7%Z) mod 32 = 0) by reflexivity.
  exact (conj H (scalarHash_app _ _ H)).
Defined.
End Arm64More.

(** ** More on the hash pipeline *)

Module MinerMore.
Import Word Miner.
Local Open Scope Z_scope.

(** The bytes returned, without the bookkeeping. *)
Lemma digest_computeMobileXHash (to_uint32_vector : list Z -> list Z)
    (m : MobileXMiner) (header : list Z) :
  digest (computeMobileXHash to_uint32_vector m header)
  = match randomxVM_ m with
    | None => replicate 32 0
    | Some vm =>
        applyMobileMixing to_uint32_vector m
          (randomx_calc_hash vm
             (match arm64_ m with
              | Some a =>
                  if Arm64.hasNEON (Arm64.features_ a)
                  then Arm64.vectorHash a (serializeBlockHeader header)
                  else serializeBlockHeader header
              | None => serializeBlockHeader header
              end))
    end.
Proof.
  unfold computeMobileXHash. destruct (randomxVM_ m) as [vm|]; [|reflexivity].
  destruct (shouldRunNPU (fetch_add 1 m)); [|reflexivity].
  destruct (runNPUStep (fetch_add 1 m)). reflexivity.
Qed.

(** X3: whatever the header and the state of the miner, the hash returned
    has exactly 32 bytes. *)
Theorem computeMobileXHash_length (to_uint32_vector : list Z -> list Z)
    (m : MobileXMiner) (header : list Z) :
  length (digest (computeMobileXHash to_uint32_vector m header)) = 32%nat.
Proof.
  rewrite digest_computeMobileXHash.
  destruct (randomxVM_ m) as [vm|]; [|apply length_replicate].
  unfold applyMobileMixing. apply Sha256Facts.length_SHA256.
Qed.



Lemma runNPUStep_counter (m : MobileXMiner) :
  exists skip, 0 <= skip < 1000 /\
    fst (runNPUStep m) = set_hashes m (wrap64 (hashesCompleted_ m + skip)) \/
    fst (runNPUStep m) = m.
Proof.
  unfold runNPUStep. destruct (npu_ m) as [npu|].
  - destruct (processNeuralStep npu _) as [out|].
    + destruct (4 <=? length out)%nat.
      * exists (le_value (take 4 out) mod 1000). left. split; [|reflexivity].
        apply Z.mod_pos_bound. lia.
      * exists 0. right. reflexivity.
    + exists 0. right. reflexivity.
  - exists 0. right. reflexivity.
Qed.

(** X5: a call without a VM leaves the miner as it was; any other call
    moves the counter forward by one plus a skip below 1000, modulo 2^64,
    and changes nothing else. *)
Theorem computeMobileXHash_counter (to_uint32_vector : list Z -> list Z)
    (m : MobileXMiner) (header : list Z) :
  (randomxVM_ m = None -> miner_after (computeMobileXHash to_uint32_vector m header) = m) /\
  (is_Some (randomxVM_ m) ->
   exists skip, 0 <= skip < 1000 /\
     miner_after (computeMobileXHash to_uint32_vector m header)
     = set_hashes m (wrap64 (hashesCompleted_ m + 1 + skip))).
Proof.
  unfold computeMobileXHash. split.
  - intros Hvm. now rewrite Hvm.
  - intros [vm Hvm]. rewrite Hvm.
    assert (Hstep : forall skip,
              set_hashes (fetch_add 1 m)
                (wrap64 (hashesCompleted_ (fetch_add 1 m) + skip))
              = set_hashes m (wrap64 (hashesCompleted_ m + 1 + skip))).
    { intros skip. unfold fetch_add, set_hashes, wrap64; cbn.
      now rewrite Zplus_mod_idemp_l. }
    assert (Hnone : fetch_add 1 m = set_hashes m (wrap64 (hashesCompleted_ m + 1 + 0))).
    { unfold fetch_add. now rewrite Z.add_0_r. }
    destruct (shouldRunNPU (fetch_add 1 m)).
    + destruct (runNPUStep_counter (fetch_add 1 m)) as [skip [[Hs Hm]|Hm]];
        destruct (runNPUStep (fetch_add 1 m)) as [m1 calls];
        cbn [fst miner_after] in *; subst m1.
      * exists skip. split; [exact Hs|apply Hstep].
      * exists 0. split; [lia|exact Hnone].
    + exists 0. split; [lia|exact Hnone].
Qed.
End MinerMore.

(** ** More on thermal proofs *)

Module ThermalMoreFacts.
Import Word IEEE Thermal ThermalMore.
Local Open Scope Z_scope.

(** X6: the value of a thermal proof depends on the header through the
    length of its first 32 bytes only: two headers with as many bytes, up
    to 32, get the same proof from the same verifier and clocks. *)
Theorem proof_ignores_header_bytes (v : ThermalVerification) (w : Clocks)
    (h1 h2 : list Z) :
  Nat.min (length h1) 32 = Nat.min (length h2) 32 ->
  fst (fst (generateThermalProof v w h1)) = fst (fst (generateThermalProof v w h2)).
Proof.
  intros Hlen. unfold generateThermalProof, measure.
  destruct (readCycleCount (pmcCounters_ v) w) as [c0 w0].
  destruct (read_hr w0) as [t0 w1].
  destruct (readCycleCount (pmcCounters_ v) w1) as [c1 w2].
  destruct (read_hr w2) as [t1 w3].
  destruct (getCurrentTimeMs w3) as [now w4].
  cbn [fst]. unfold encodeProof. cbn [cycleCount expectedCycles frequency temperature].
  assert (Hmin : forall h : list Z,
            Nat.min (Nat.min (length h) 32) (length h) = Nat.min (length h) 32)
    by (intros; lia).
  rewrite !length_take, !Hmin, Hlen.
  reflexivity.
Qed.

Lemma proof_ignores_header_bytes_witness :
  Nat.min (length (replicate 40 0)) 32 = Nat.min (length (replicate 32 255)) 32 /\
  fst (fst (generateThermalProof (verifier_at_40 5) steady_clocks (replicate 40 0)))
  = fst (fst (generateThermalProof (verifier_at_40 5) steady_clocks (replicate 32 255))).
Proof.
  assert (H : Nat.min (length (replicate 40 0)) 32 = Nat.min (length (replicate 32 255)) 32)
    by reflexivity.
  exact (conj H (proof_ignores_header_bytes _ _ _ _ H)).
Defined.

(** X7: embedding a proof as the last eight bytes of a header and
    stripping it for validation gives the header back; a header shorter
    than eight bytes is left alone, and a longer one loses eight bytes. *)
Theorem strip_embedded_proof (header : list Z) (proof : Z) :
  serializeHeaderForThermalValidation (header ++ le_bytes 8 proof) = header /\
  ((length header < 8)%nat -> serializeHeaderForThermalValidation header = header) /\
  ((8 <= length header)%nat ->
   length (serializeHeaderForThermalValidation header) = (length header - 8)%nat).
Proof.
  unfold serializeHeaderForThermalValidation. repeat split.
  - rewrite length_app, Sha256Facts.length_le_bytes.
    destruct (Nat.leb_spec 8 (length header + 8)); [|lia].
    replace (length header + 8 - 8)%nat with (length header) by lia.
    apply take_app_length.
  - intros Hlt. destruct (Nat.leb_spec 8 (length header)); [lia|reflexivity].
  - intros Hge. destruct (Nat.leb_spec 8 (length header)); [|lia].
    rewrite length_take. lia.
Qed.

Lemma addToHistory_length (p : ThermalProof) (v : ThermalVerification) :
  length (thermalHistory_ (addToHistory p v))
  = Nat.min (S (length (thermalHistory_ v))) 1000.
Proof.
  rewrite ThermalFacts.thermalHistory_addToHistory.
  rewrite length_drop, length_app. cbn [length]. unfold MAX_HISTORY_SIZE. lia.
Qed.

(** X8: a run of generations never lets the history exceed 1000 entries:
    after [k] proofs a history of [n] entries holds [min (n + k) 1000]. *)
Theorem history_is_capped (headers : list (list Z)) :
  forall (v : ThermalVerification) (w : Clocks),
  (length (thermalHistory_ v) <= 1000)%nat ->
  length (thermalHistory_ (fst (generate_all v w headers)))
  = Nat.min (length (thermalHistory_ v) + length headers) 1000.
Proof.
  induction headers as [|header rest IH]; intros v w Hn; cbn [generate_all length].
  - cbn [fst]. lia.
  - unfold generateThermalProof. destruct (measure v w header) as [p w'].
    rewrite IH; rewrite addToHistory_length; lia.
Qed.

Lemma history_is_capped_witness :
  (length (thermalHistory_ heated_verifier) <= 1000)%nat /\
  length (thermalHistory_
            (fst (generate_all heated_verifier steady_clocks [[1]; [2]; [3]])))
  = Nat.min (length (thermalHistory_ heated_verifier) + 3) 1000.
Proof.
  assert (H : (length (thermalHistory_ heated_verifier) <= 1000)%nat) by (cbn; lia).
  exact (conj H (history_is_capped [[1]; [2]; [3]] heated_verifier steady_clocks H)).
Defined.

(** X9: a verifier whose cycle counter is not supported, as before
    [initialize], records a cycle count and a frequency of zero whatever
    the clocks say. *)
Theorem no_counter_no_measure (v : ThermalVerification) (w : Clocks) (header : list Z) :
  cycleCounterSupported_ (pmcCounters_ v) = false ->
  cycleCount (fst (measure v w header)) = 0 /\
  frequency (fst (measure v w header)) = 0.
Proof.
  intros Hsup. unfold measure, readCycleCount. rewrite Hsup.
  destruct (read_hr w) as [t0 w1]. destruct (read_hr w1) as [t1 w2].
  destruct (getCurrentTimeMs w2) as [now w3].
  cbn [fst cycleCount frequency]. split; [reflexivity|].
  change (wrap64 (0 - 0)) with 0. change (F64.of_Z 0) with (S754_zero false).
  generalize (F64.div (F64.of_Z (Z.quot (t1 - t0) 1000)) (F64.of_Z 1000000)).
  intros x. destruct x as [s|s| |s m e]; try destruct s; reflexivity.
Qed.

Lemma no_counter_no_measure_witness :
  cycleCounterSupported_ (pmcCounters_ (new_verifier 2000 (F64.of_Z 5))) = false /\
  cycleCount (fst (measure (new_verifier 2000 (F64.of_Z 5)) jittery_clocks [1; 2; 3])) = 0 /\
  frequency (fst (measure (new_verifier 2000 (F64.of_Z 5)) jittery_clocks [1; 2; 3])) = 0.
Proof.
  assert (H : cycleCounterSupported_ (pmcCounters_ (new_verifier 2000 (F64.of_Z 5))) = false)
    by reflexivity.
  exact (conj H (no_counter_no_measure _ jittery_clocks [1; 2; 3] H)).
Defined.

(** X10: [decodeProof] splits the 64-bit value into its low and high
    halves: they recombine to the value, each is below 2^32, and the
    frequency reported is the configured base frequency, not a
    measurement. *)
Theorem decodeProof_halves (v : ThermalVerification) (w : Clocks) (encoded : Z)
    (workHash : list Z) :
  0 <= encoded < 2 ^ 64 ->
  let p := fst (decodeProof v w encoded workHash) in
  cycleCount p + 2 ^ 32 * expectedCycles p = encoded /\
  0 <= cycleCount p < 2 ^ 32 /\ 0 <= expectedCycles p < 2 ^ 32 /\
  frequency p = baseFrequency_ v.
Proof.
  intros Henc. unfold decodeProof. destruct (getCurrentTimeMs w) as [now w'].
  cbn [fst cycleCount expectedCycles frequency].
  change 0xFFFFFFFF with (Z.ones 32).
  rewrite !Z.land_ones, Z.shiftr_div_pow2 by lia.
  repeat split; try WordFacts.euclid.
Qed.

Lemma decodeProof_halves_witness :
  0 <= 6331476942483380269 < 2 ^ 64 /\
  cycleCount (fst (decodeProof (verifier_at_40 5) steady_clocks 6331476942483380269 []))
  + 2 ^ 32 * expectedCycles
               (fst (decodeProof (verifier_at_40 5) steady_clocks 6331476942483380269 []))
  = 6331476942483380269.
Proof.
  assert (H : 0 <= 6331476942483380269 < 2 ^ 64) by lia.
  exact (conj H (proj1 (decodeProof_halves (verifier_at_40 5) steady_clocks _ [] H))).
Defined.


(** Multiplying by 1.0 and converting back to an integer are exact below
    2^53. *)
Lemma times_one_exact (b : positive) :
  Zpos b < 2 ^ 53 ->
  F64.to_u64 (F64.mul (F64.of_Z (Zpos b)) (F64.of_Z 1)) = Zpos b.
Proof.
  intros Hb.
  assert (Hd : digits b <= 53) by (apply FloatFacts.digits_le_pow2; lia).
  pose proof (FloatFacts.digits_pos b) as Hpos.
  rewrite FloatFacts.of_Z_canon by exact Hd.
  change (F64.of_Z 1) with (S754_finite false (shl 1 52) (-52)).
  unfold F64.mul, F64.prec, F64.emax, canon, SFmul. cbn [xorb].
  assert (Hprod : (shl b (53 - digits b) * shl 1 52)%positive
                  = shl b (53 - digits b + 52)).
  { apply Pos2Z.inj. rewrite Pos2Z.inj_mul, !FloatFacts.shl_value by lia.
    rewrite Z.pow_add_r by lia. lia. }
  rewrite Hprod, FloatFacts.round_aux_exact by lia.
  unfold canon, F64.to_u64, to_u64, trunc. cbn [cond_Zopp].
  set (a := 53 - digits b).
  assert (Ha0 : 0 <= a) by (unfold a; lia). clearbody a.
  replace (0 - a + -52 + (a + 52) - a) with (- a) by lia.
  rewrite FloatFacts.shl_value by lia.
  destruct (Z.leb_spec 0 (- a)) as [Ha|Ha].
  - replace a with 0 by lia. change (- 0) with 0.
    rewrite Z.pow_0_r, !Z.mul_1_r. lia.
  - rewrite Z.opp_involutive, Z.div_mul by (apply Z.pow_nonzero; lia).
    lia.
Qed.

(** X11: between 35 and 45 degrees, bounds included, and whenever the
    temperature is not a number, the expected cycle count is exactly 100
    per byte of workload. *)
Theorem expected_cycles_in_band (v : ThermalVerification) (workloadSize : Z) :
  F32.gtb (getCurrentTemperature v) (F32.of_Z 45) = false ->
  F32.ltb (getCurrentTemperature v) (F32.of_Z 35) = false ->
  0 <= workloadSize * 100 < 2 ^ 53 ->
  calculateExpectedCycles v workloadSize = workloadSize * 100.
Proof.
  intros Hhot Hcold Hsize. unfold calculateExpectedCycles.
  rewrite Hhot, Hcold. unfold wrap64. rewrite Z.mod_small by lia.
  destruct (workloadSize * 100) as [|b|b] eqn:Hb; [reflexivity| |lia].
  apply times_one_exact. lia.
Qed.

Lemma expected_cycles_in_band_witness :
  F32.gtb (getCurrentTemperature (verifier_at_40 5)) (F32.of_Z 45) = false /\
  F32.ltb (getCurrentTemperature (verifier_at_40 5)) (F32.of_Z 35) = false /\
  0 <= 32 * 100 < 2 ^ 53 /\
  calculateExpectedCycles (verifier_at_40 5) 32 = 32 * 100.
Proof.
  assert (H1 : F32.gtb (getCurrentTemperature (verifier_at_40 5)) (F32.of_Z 45) = false)
    by reflexivity.
  assert (H2 : F32.ltb (getCurrentTemperature (verifier_at_40 5)) (F32.of_Z 35) = false)
    by reflexivity.
  assert (H3 : 0 <= 32 * 100 < 2 ^ 53) by lia.
  exact (conj H1 (conj H2 (conj H3 (expected_cycles_in_band _ 32 H1 H2 H3)))).
Defined.

Example expected_cycles_hot_and_cold :
  calculateExpectedCycles (updateTemperature (F32.of_Z 55) (verifier_at_40 5)) 32 = 3840 /\
  calculateExpectedCycles (updateTemperature (F32.of_Z 25) (verifier_at_40 5)) 32 = 2880.
Proof. vm_compute. split; reflexivity. Qed.
End ThermalMoreFacts.
(** ** More on the power policy *)

Module PowerMore.
Import Power PowerIO.
Local Open Scope Z_scope.

(** The order of the floats is asymmetric. *)
Lemma ltb_asym (x y : spec_float) : SFltb x y = true -> SFltb y x = false.
Proof.
  unfold SFltb, SFcompare.
  destruct x as [[]|[]| |[] m1 e1], y as [[]|[]| |[] m2 e2];
    try discriminate; try reflexivity.
  all: rewrite (Z.compare_antisym e1 e2); destruct (e1 ?= e2) eqn:He; cbn;
    try discriminate; try reflexivity.
  all: change (Pos.compare_cont Eq m1 m2) with (Pos.compare_cont (CompOpp Eq) m1 m2);
    rewrite <- (Pos.compare_cont_antisym m2 m1 Eq);
    destruct (Pos.compare_cont Eq m2 m1); cbn; try discriminate; try reflexivity.
Qed.

(** X12: after a power-state update the two queries are complementary:
    mining should stop exactly when it may not start. *)
Theorem stop_is_not_start (s : PowerSnapshot) (pm : AndroidPowerManager) :
  shouldStopMining (updatePowerState s pm) = negb (canStartMining (updatePowerState s pm)).
Proof.
  unfold shouldStopMining, canStartMining, updatePowerState, updateMiningPermission.
  cbn [canMine_ batteryLevel_ currentTemp_ isCharging_].
  destruct (charging s); [|reflexivity]. cbn [andb].
  destruct (Z.leb_spec 80 (batteryPct s)) as [Hb|Hb]; [|reflexivity]. cbn [andb].
  destruct (F32.ltb (tempC s) (F32.of_Z 50)) eqn:Ht; [|reflexivity].
  cbn [negb orb].
  destruct (Z.ltb_spec (batteryPct s) 20); [lia|]. cbn [orb].
  unfold F32.gtb. apply ltb_asym. exact Ht.
Qed.

(** X13: the manual override replaces the permission flag only: allowed,
    the intensity is the table value for the stored readings, so the
    charging and battery rows still apply while the cut at 50 degrees does
    not; denied, it is DISABLED; and the next update discards the
    override. *)
Theorem override_scope (allowed : bool) (s : PowerSnapshot) (pm : AndroidPowerManager) :
  determineOptimalIntensity (setMiningAllowed allowed pm)
    = (if allowed
       then policy_table (Snapshot (batteryLevel_ pm) (isCharging_ pm) (currentTemp_ pm))
       else DISABLED) /\
  updatePowerState s (setMiningAllowed allowed pm) = updatePowerState s pm.
Proof. split; [destruct allowed; reflexivity|reflexivity]. Qed.

Example override_at_60_degrees :
  let pm := updatePowerState (snap 90 true 60) new_manager in
  determineOptimalIntensity pm = DISABLED /\
  determineOptimalIntensity (setMiningAllowed true pm) = LIGHT.
Proof. split; reflexivity. Qed.

Lemma clamp_range (v : Z) : 0 <= clamp v 0 100 <= 100.
Proof.
  unfold clamp. destruct (Z.ltb_spec v 0); [lia|]. destruct (Z.ltb_spec 100 v); lia.
Qed.

Lemma first_level_range (fs : Sysfs) (paths : list CapacityFile) (level : Z) :
  first_level fs paths = Some level -> 0 <= level <= 100.
Proof.
  induction paths as [|path rest IH]; cbn [first_level]; [discriminate|].
  destruct (capacity fs path) as [l|]; [|exact IH].
  intros [= <-]. apply clamp_range.
Qed.

(** X14: whatever the platform files hold, the battery level read is
    between 0 and 100, and with no readable file the readers answer 85 per
    cent, not charging and 35 degrees, on which mining is not permitted. *)
Theorem readers_are_safe (fs : Sysfs) :
  0 <= readBatteryLevel fs <= 100 /\
  readBatteryLevel no_files = 85 /\
  readChargingState no_files = false /\
  readTemperature no_files = F32.of_Z 35 /\
  canStartMining (initialize no_files) = false.
Proof.
  split; [|repeat split].
  unfold readBatteryLevel.
  destruct (capacity fs BatteryCapacity) as [l|]; [apply clamp_range|].
  destruct (first_level fs _) as [l|] eqn:Hl; [|lia].
  exact (first_level_range fs _ l Hl).
Qed.

(** A readable status file decides the charging state alone: the
    device counts as charging exactly when the word is Charging or Full,
    and the supply files are consulted only when the status cannot be
    read. *)
Theorem status_file_decides (fs : Sysfs) (word : StatusWord) :
  status fs = Some word ->
  readChargingState fs
  = match word with Charging | Full => true | OtherStatus => false end.
Proof. intros Hs. unfold readChargingState. rewrite Hs. now destruct word. Qed.

Lemma status_file_decides_witness :
  status plugged_not_charging = Some OtherStatus /\
  readChargingState plugged_not_charging = false /\
  any_online plugged_not_charging [AcOnline; UsbOnline; WirelessOnline] = true.
Proof.
  assert (H : status plugged_not_charging = Some OtherStatus) by reflexivity.
  exact (conj H (conj (status_file_decides plugged_not_charging OtherStatus H) eq_refl)).
Defined.
End PowerMore.

(** ** More on the bridge: handles of live engines *)

Module JniMore.
Import Jni.
Local Open Scope Z_scope.

Section Bridge.
Context {E : Type} `{EngineOps E}.

(** X15: a successful [createMiner] returns the address of the new
    object as the handle, the initialized engine is what every query on
    that handle sees, and no other handle is affected. *)
Theorem create_stores_engine (p : Process E) (address : Z) (miner miner' : E) :
  initialize miner = (true, miner') -> address <> 0 ->
  let p' := snd (createMiner address (Some miner) p) in
  fst (createMiner address (Some miner) p) = address /\
  jni_isMining address p' = Some (isMining miner') /\
  jni_getCurrentTemperature address p' = Some (getCurrentTemperature miner') /\
  jni_getHashRate address p' = Some (getHashRate miner') /\
  (forall other, other <> address -> deref other p' = deref other p).
Proof.
  intros Hinit Haddr. unfold createMiner. rewrite Hinit. cbn [fst snd].
  assert (Hz : (address =? 0) = false) by (now apply Z.eqb_neq).
  unfold jni_isMining, jni_getCurrentTemperature, jni_getHashRate, query, deref, store, log.
  cbn [engines]. rewrite Hz, lookup_insert_eq.
  repeat split. intros other Hother. now rewrite lookup_insert_ne.
Qed.

(** X16: destroying the handle a successful [createMiner] returned at a
    free address restores the set of live engines, and the handle is dead
    afterwards: using it again is undefined. *)
Theorem create_destroy_round_trip (p : Process E) (address : Z) (miner miner' : E) :
  initialize miner = (true, miner') -> address <> 0 -> engines p !! address = None ->
  exists p'',
    destroyMiner address (snd (createMiner address (Some miner) p)) = Some p'' /\
    engines p'' = engines p /\
    jni_isMining address p'' = None /\
    destroyMiner address p'' = None.
Proof.
  intros Hinit Haddr Hfree. unfold createMiner. rewrite Hinit. cbn [snd].
  assert (Hz : (address =? 0) = false) by (now apply Z.eqb_neq).
  unfold destroyMiner, deref, store, log. cbn [engines]. rewrite Hz, lookup_insert_eq.
  eexists. split; [reflexivity|]. cbn [engines logcat].
  rewrite delete_insert_eq, delete_id by exact Hfree.
  split; [reflexivity|].
  unfold jni_isMining, query, deref. cbn [engines]. rewrite Hz, Hfree. split; reflexivity.
Qed.
End Bridge.

Lemma create_stores_engine_witness :
  let working := Probe true false (F64.of_Z 0) (F32.of_Z 35) (F32.of_Z 0) in
  initialize working = (true, working) /\ 4096 <> 0 /\
  fst (createMiner 4096 (Some working) no_engines) = 4096.
Proof.
  intros working.
  assert (H1 : initialize working = (true, working)) by reflexivity.
  assert (H2 : 4096 <> 0) by discriminate.
  exact (conj H1 (conj H2 (proj1 (create_stores_engine no_engines 4096 working working H1 H2)))).
Defined.

Lemma create_destroy_round_trip_witness :
  let working := Probe true false (F64.of_Z 0) (F32.of_Z 35) (F32.of_Z 0) in
  initialize working = (true, working) /\ 4096 <> 0 /\
  engines no_engines !! 4096 = None /\
  exists p'',
    destroyMiner 4096 (snd (createMiner 4096 (Some working) no_engines)) = Some p'' /\
    engines p'' = engines no_engines /\
    jni_isMining 4096 p'' = None /\
    destroyMiner 4096 p'' = None.
Proof.
  intros working.
  assert (H1 : initialize working = (true, working)) by reflexivity.
  assert (H2 : 4096 <> 0) by discriminate.
  assert (H3 : engines no_engines !! 4096 = None) by reflexivity.
  exact (conj H1 (conj H2 (conj H3
    (create_destroy_round_trip no_engines 4096 working working H1 H2 H3)))).
Defined.
End JniMore.


(** ** The heterogeneous scheduler *)

Module SchedFacts.
Import Word Sched.
Local Open Scope Z_scope.

Ltac decide_order :=
  repeat match goal with
  | |- context [(?a <? ?b)%nat] =>
      first [rewrite (proj2 (Nat.ltb_lt a b)) by lia
            |rewrite (proj2 (Nat.ltb_ge a b)) by lia]
  | |- context [(?a <=? ?b)%nat] =>
      first [rewrite (proj2 (Nat.leb_le a b)) by lia
            |rewrite (proj2 (Nat.leb_gt a b)) by lia]
  | |- context [?a <? ?b] =>
      first [rewrite (proj2 (Z.ltb_lt a b)) by lia
            |rewrite (proj2 (Z.ltb_ge a b)) by lia]
  | |- context [?a <=? ?b] =>
      first [rewrite (proj2 (Z.leb_le a b)) by lia
            |rewrite (proj2 (Z.leb_gt a b)) by lia]
  end.

Lemma length_activate (requested : Z) (ids : list nat) :
  forall activated cores, length (activate requested activated ids cores) = length cores.
Proof.
  induction ids as [|coreId rest IH]; intros activated cores; cbn [activate];
    [reflexivity|].
  destruct (requested <=? activated); [reflexivity|].
  destruct (coreId <? length cores)%nat; rewrite IH; [apply length_insert|reflexivity].
Qed.

Lemma count_true_cons (c : bool) (cores : list bool) :
  count_true (c :: cores) = (if c then 1 else 0) + count_true cores.
Proof. unfold count_true. destruct c; cbn [List.filter length]; lia. Qed.

Lemma count_all_off (cores : list bool) : count_true (all_off cores) = 0.
Proof.
  induction cores as [|c rest IH]; [reflexivity|].
  cbn [all_off map]. rewrite count_true_cons. exact IH.
Qed.

Lemma length_all_off (cores : list bool) : length (all_off cores) = length cores.
Proof. apply length_map. Qed.

Lemma count_le_length (cores : list bool) :
  0 <= count_true cores <= Z.of_nat (length cores).
Proof.
  induction cores as [|c rest IH]; [unfold count_true; cbn; lia|].
  rewrite count_true_cons. cbn [length]. destruct c; lia.
Qed.

Lemma count_insert_true (cores : list bool) :
  forall i, count_true (<[i := true]> cores) <= count_true cores + 1.
Proof.
  induction cores as [|c rest IH]; intros [|i]; cbn; try lia.
  - change (count_true (true :: rest) <= count_true (c :: rest) + 1).
    rewrite !count_true_cons. destruct c; lia.
  - change (count_true (c :: <[i := true]> rest) <= count_true (c :: rest) + 1).
    rewrite !count_true_cons. specialize (IH i). lia.
Qed.

Lemma count_activate (requested : Z) (ids : list nat) :
  forall activated cores,
  count_true (activate requested activated ids cores)
  <= count_true cores + Z.max 0 (requested - activated).
Proof.
  induction ids as [|coreId rest IH]; intros activated cores; cbn [activate]; [lia|].
  destruct (Z.leb_spec requested activated); [lia|].
  destruct (coreId <? length cores)%nat.
  - specialize (IH (activated + 1) (<[coreId := true]> cores)).
    pose proof (count_insert_true cores coreId). lia.
  - specialize (IH activated cores). lia.
Qed.

(** X17: whatever the topology, configuring never switches on more cores
    than were asked for (a negative request counts as none), nor more than
    the vector holds, and the vector keeps its length. *)
Theorem configure_respects_request (b l : Z) (s : HeterogeneousScheduler) :
  getActiveCores (configureHeterogeneousCores b l s) <= Z.max 0 b + Z.max 0 l /\
  getActiveCores (configureHeterogeneousCores b l s) <= Z.of_nat (length (activeCores_ s)) /\
  length (activeCores_ (configureHeterogeneousCores b l s)) = length (activeCores_ s).
Proof.
  unfold getActiveCores, configureHeterogeneousCores. cbn [activeCores_].
  assert (Hlen : length (activate l 0 (littleCoreIds (topology_ s))
                           (activate b 0 (bigCoreIds (topology_ s))
                              (all_off (activeCores_ s))))
                 = length (activeCores_ s))
    by now rewrite !length_activate, length_all_off.
  repeat split.
  - pose proof (count_activate l (littleCoreIds (topology_ s)) 0
                  (activate b 0 (bigCoreIds (topology_ s)) (all_off (activeCores_ s)))).
    pose proof (count_activate b (bigCoreIds (topology_ s)) 0 (all_off (activeCores_ s))).
    pose proof (count_all_off (activeCores_ s)). lia.
  - rewrite <- Hlen. apply count_le_length.
  - exact Hlen.
Qed.

Lemma lookup_activate_seq (requested : Z) (k : nat) :
  forall (start : nat) (activated : Z) (cores : list bool) (i : nat),
  (start + k <= length cores)%nat ->
  activate requested activated (seq start k) cores !! i
  = if (start <=? i)%nat && (i <? start + k)%nat
       && (activated + Z.of_nat (i - start) <? requested)
    then Some true else cores !! i.
Proof.
  induction k as [|k IH]; intros start activated cores i Hlen; cbn [seq activate].
  - destruct (Nat.leb_spec start i); [|reflexivity]. now decide_order.
  - destruct (Z.leb_spec requested activated) as [Hfull|Hroom].
    + destruct (Nat.leb_spec start i); [|reflexivity].
      destruct (Nat.ltb_spec i (start + S k)); [|reflexivity]. now decide_order.
    + replace (start <? length cores)%nat with true
        by (symmetry; apply Nat.ltb_lt; lia).
      rewrite IH by (rewrite length_insert; lia).
      destruct (Nat.eq_dec i start) as [->|Hne].
      * rewrite list_lookup_insert_eq by lia. decide_order.
        replace (start - start)%nat with 0%nat by lia.
        cbn [andb]. now decide_order.
      * rewrite list_lookup_insert_ne by lia.
        destruct (Nat.leb_spec start i) as [Hge|Hlt]; [|now decide_order].
        replace (activated + 1 + Z.of_nat (i - S start))
          with (activated + Z.of_nat (i - start)) by lia.
        replace (S start + k)%nat with (start + S k)%nat by lia.
        now decide_order.
Qed.

Lemma lookup_replicate_app {A : Type} (k : nat) (x : A) (rest : list A) (i : nat) :
  (replicate k x ++ rest) !! i
  = if (i <? k)%nat then Some x else rest !! (i - k)%nat.
Proof.
  destruct (Nat.ltb_spec i k).
  - rewrite lookup_app_l by (rewrite length_replicate; lia).
    now apply lookup_replicate_2.
  - rewrite lookup_app_r by (rewrite length_replicate; lia).
    now rewrite length_replicate.
Qed.

Lemma lookup_replicate_end {A : Type} (k : nat) (x : A) (i : nat) :
  replicate k x !! i = if (i <? k)%nat then Some x else None.
Proof.
  destruct (Nat.ltb_spec i k).
  - now apply lookup_replicate_2.
  - apply lookup_ge_None. rewrite length_replicate. lia.
Qed.

Lemma count_app (xs ys : list bool) :
  count_true (xs ++ ys) = count_true xs + count_true ys.
Proof. unfold count_true. rewrite List.filter_app, length_app. lia. Qed.

Lemma count_replicate (k : nat) (c : bool) :
  count_true (replicate k c) = if c then Z.of_nat k else 0.
Proof.
  induction k as [|k IH]; [now destruct c|].
  cbn [replicate]. rewrite count_true_cons. destruct c; lia.
Qed.

Lemma android_scheduler_fields (n : nat) :
  android_scheduler n
  = Scheduler (Topology n (n - n / 2) (n / 2) (seq (n / 2) (n - n / 2)) (seq 0 (n / 2)))
              (replicate n false) 0.
Proof.
  unfold android_scheduler, initialize, detectCoreTopology, new_scheduler, resize.
  cbn [topology_ activeCores_ currentIntensity_ totalCores bigCoreIds littleCoreIds
       app length].
  now rewrite take_nil, Nat.sub_0_r.
Qed.

Lemma all_off_replicate (n : nat) : all_off (replicate n false) = replicate n false.
Proof. induction n as [|n IH]; [reflexivity|]. cbn. f_equal. exact IH. Qed.

(** X18: on an Android device with [n] cores the little cores are
    [0 .. n/2 - 1] and the big ones the rest; a configuration switches on
    the first [l] little and the first [b] big cores, as many as there
    are, and nothing else, so the number of active cores is
    [min l (n/2) + min b (n - n/2)]. *)
Theorem configure_android_layout (n : nat) (b l : Z) :
  let little := (n / 2)%nat in
  let big := (n - little)%nat in
  let L := Z.to_nat (Z.min (Z.max 0 l) (Z.of_nat little)) in
  let B := Z.to_nat (Z.min (Z.max 0 b) (Z.of_nat big)) in
  activeCores_ (configureHeterogeneousCores b l (android_scheduler n))
  = replicate L true ++ replicate (little - L) false
    ++ replicate B true ++ replicate (big - B) false /\
  getActiveCores (configureHeterogeneousCores b l (android_scheduler n))
  = Z.of_nat L + Z.of_nat B.
Proof.
  intros little big L B.
  assert (Hlittle : (little <= n)%nat) by (apply Nat.Div0.div_le_upper_bound; lia).
  assert (Hlayout :
    activeCores_ (configureHeterogeneousCores b l (android_scheduler n))
    = replicate L true ++ replicate (little - L) false
      ++ replicate B true ++ replicate (big - B) false).
  { rewrite android_scheduler_fields. unfold configureHeterogeneousCores.
    cbn [topology_ activeCores_ bigCoreIds littleCoreIds].
    rewrite all_off_replicate. fold little. fold big.
    subst L B big. clearbody little.
    apply list_eq. intros i.
    rewrite lookup_activate_seq
      by (rewrite length_activate, length_replicate; lia).
    rewrite lookup_activate_seq by (rewrite length_replicate; lia).
    rewrite !lookup_replicate_app, !lookup_replicate_end.
    destruct (Nat.ltb_spec i little) as [Hi|Hi].
    - destruct (Z.ltb_spec (Z.of_nat i) l) as [Hl|Hl].
      + replace (0 + Z.of_nat (i - 0)) with (Z.of_nat i) by lia.
        now decide_order.
      + replace (0 + Z.of_nat (i - 0)) with (Z.of_nat i) by lia.
        now decide_order.
    - destruct (Nat.ltb_spec i n) as [Hn|Hn].
      + destruct (Z.ltb_spec (Z.of_nat (i - little)) b) as [Hb|Hb].
        * replace (0 + Z.of_nat (i - 0)) with (Z.of_nat i) by lia.
          replace (0 + Z.of_nat (i - little)) with (Z.of_nat (i - little)) by lia.
          now decide_order.
        * replace (0 + Z.of_nat (i - 0)) with (Z.of_nat i) by lia.
          replace (0 + Z.of_nat (i - little)) with (Z.of_nat (i - little)) by lia.
          now decide_order.
      + now decide_order. }
  split; [exact Hlayout|].
  unfold getActiveCores. rewrite Hlayout, !count_app, !count_replicate. lia.
Qed.

Lemma testbit_bitmap (cores : list bool) :
  forall (j state k : Z),
  0 <= j -> j + Z.of_nat (length cores) <= 32 -> 0 <= k ->
  Z.testbit (bitmap j cores state) k
  = Z.testbit state k
    || (j <=? k) && default false (cores !! Z.to_nat (k - j)).
Proof.
  induction cores as [|core rest IH]; intros j state k Hj Hlen Hk; cbn [bitmap].
  - rewrite lookup_nil. cbn [default]. now rewrite andb_false_r, orb_false_r.
  - cbn [length] in Hlen. rewrite IH by lia.
    assert (Hbit : wrap32 (Z.shiftl 1 j) = 2 ^ j).
    { unfold wrap32. rewrite Z.shiftl_1_l. apply Z.mod_small.
      split; [apply Z.pow_nonneg; lia|apply Z.pow_lt_mono_r; lia]. }
    destruct (Z.leb_spec (j + 1) k) as [Hgt|Hle].
    + replace (Z.to_nat (k - j)) with (S (Z.to_nat (k - (j + 1)))) by lia.
      cbn [lookup list_lookup]. decide_order. cbn [andb].
      destruct core; [|reflexivity].
      rewrite Z.lor_spec, Hbit, Z.pow2_bits_eqb by lia.
      replace (j =? k) with false by (symmetry; apply Z.eqb_neq; lia).
      now rewrite orb_false_r.
    + cbn [andb]. rewrite orb_false_r.
      destruct (Z.leb_spec j k) as [Hjk|Hjk].
      * replace k with j by lia. rewrite Z.sub_diag. cbn [Z.to_nat lookup list_lookup default andb].
        destruct core; [|now rewrite orb_false_r].
        rewrite Z.lor_spec, Hbit, Z.pow2_bits_eqb, Z.eqb_refl by lia. reflexivity.
      * cbn [andb]. rewrite orb_false_r.
        destruct core; [|reflexivity].
        rewrite Z.lor_spec, Hbit, Z.pow2_bits_eqb by lia.
        replace (j =? k) with false by (symmetry; apply Z.eqb_neq; lia).
        now rewrite orb_false_r.
Qed.

(** X19: bit [i] of the core bitmap is set exactly when core [i] is active
    and [i] is below 32; the state of cores from 32 on is not reported. *)
Theorem getCoreState_bits (s : HeterogeneousScheduler) (i : nat) :
  Z.testbit (getCoreState s) (Z.of_nat i)
  = (i <? 32)%nat && default false (activeCores_ s !! i).
Proof.
  unfold getCoreState.
  rewrite testbit_bitmap by (rewrite ?length_take; lia).
  rewrite Z.bits_0, Z.sub_0_r, Nat2Z.id. cbn [orb].
  replace (0 <=? Z.of_nat i) with true by (symmetry; apply Z.leb_le; lia).
  cbn [andb].
  destruct (Nat.ltb_spec i 32) as [Hlt|Hge]; cbn [andb].
  - destruct (Nat.lt_ge_cases i (length (activeCores_ s))) as [Hin|Hout].
    + now rewrite lookup_take_lt by lia.
    + rewrite (lookup_ge_None_2 (activeCores_ s)) by lia.
      now rewrite lookup_ge_None_2 by (rewrite length_take; lia).
  - now rewrite lookup_ge_None_2 by (rewrite length_take; lia).
Qed.

Lemma count_insert_false (cores : list bool) :
  forall i, cores !! i = Some true ->
  count_true (<[i := false]> cores) = count_true cores - 1.
Proof.
  induction cores as [|c rest IH]; intros [|i] Hi; cbn in Hi; try discriminate.
  - injection Hi as ->.
    change (count_true (false :: rest) = count_true (true :: rest) - 1).
    rewrite !count_true_cons. lia.
  - change (count_true (c :: <[i := false]> rest) = count_true (c :: rest) - 1).
    rewrite !count_true_cons, (IH i Hi). lia.
Qed.

Lemma switch_off_last_count (i : nat) (cores : list bool) :
  (exists j, (1 <= j <= i)%nat /\ cores !! j = Some true) ->
  count_true (switch_off_last i cores) = count_true cores - 1.
Proof.
  induction i as [|i IH]; intros [j [Hj Hon]]; [lia|].
  cbn [switch_off_last].
  destruct (cores !! S i) as [[|]|] eqn:Hi.
  - now apply count_insert_false.
  - apply IH. exists j. split; [|exact Hon].
    destruct (Nat.eq_dec j (S i)) as [->|]; [congruence|lia].
  - apply IH. exists j. split; [|exact Hon].
    destruct (Nat.eq_dec j (S i)) as [->|]; [congruence|lia].
Qed.

Lemma switch_off_last_first (i : nat) (cores : list bool) :
  switch_off_last i cores !! 0%nat = cores !! 0%nat /\
  length (switch_off_last i cores) = length cores.
Proof.
  induction i as [|i IH]; [now split|].
  cbn [switch_off_last].
  destruct (cores !! S i) as [[|]|]; try exact IH.
  split; [now apply list_lookup_insert_ne|apply length_insert].
Qed.

Lemma count_true_positive (cores : list bool) :
  0 < count_true cores ->
  exists j, (j < length cores)%nat /\ cores !! j = Some true.
Proof.
  induction cores as [|c rest IH]; [unfold count_true; cbn; lia|].
  rewrite count_true_cons. intros Hpos. destruct c.
  - exists 0%nat. split; [cbn; lia|reflexivity].
  - destruct IH as [j [Hj Hon]]; [lia|].
    exists (S j). split; [cbn; lia|exact Hon].
Qed.

(** X20: [reduceIntensity] does nothing while the intensity level is not
    positive.  Otherwise it lowers the level by one and, if more than one
    core is active, switches exactly one core off; it never touches core 0
    and never switches off the last active core. *)
Theorem reduceIntensity_cores (s : HeterogeneousScheduler) :
  (currentIntensity_ s <= 0 -> reduceIntensity s = s) /\
  (0 < currentIntensity_ s ->
   currentIntensity_ (reduceIntensity s) = currentIntensity_ s - 1 /\
   getActiveCores (reduceIntensity s)
   = (if 1 <? getActiveCores s then getActiveCores s - 1 else getActiveCores s)) /\
  activeCores_ (reduceIntensity s) !! 0%nat = activeCores_ s !! 0%nat /\
  length (activeCores_ (reduceIntensity s)) = length (activeCores_ s) /\
  (1 <= getActiveCores s -> 1 <= getActiveCores (reduceIntensity s)).
Proof.
  destruct s as [topology cores level].
  unfold reduceIntensity, getActiveCores.
  cbn [currentIntensity_ activeCores_ topology_].
  assert (Hone : 1 < count_true cores ->
                 count_true (switch_off_last (length cores - 1) cores)
                 = count_true cores - 1).
  { intros Hmany. apply switch_off_last_count.
    destruct cores as [|c rest]; [unfold count_true in Hmany; cbn in Hmany; lia|].
    rewrite count_true_cons in Hmany.
    destruct (count_true_positive rest) as [j [Hj Hon]]; [destruct c; lia|].
    exists (S j). split; [cbn [length]; lia|exact Hon]. }
  pose proof (switch_off_last_first (length cores - 1) cores) as [Hfirst Hlen].
  destruct (Z.ltb_spec 0 level) as [Hpos|Hnon];
    destruct (Z.ltb_spec 1 (count_true cores)) as [Hmany|Hfew];
    cbn [currentIntensity_ activeCores_ topology_];
    repeat split; intros; try lia; try reflexivity; try assumption;
    rewrite ?Hone by assumption; lia.
Qed.

Lemma switch_on_first_spec (cores : list bool) :
  length (switch_on_first cores) = length cores /\
  count_true (switch_on_first cores)
  = Z.min (count_true cores + 1) (Z.of_nat (length cores)).
Proof.
  induction cores as [|c rest [IHlen IHcount]]; [now split|].
  pose proof (count_le_length rest).
  destruct c; cbn [switch_on_first length]; rewrite !count_true_cons.
  - split; [now rewrite IHlen|]. rewrite IHcount. lia.
  - split; [reflexivity|lia].
Qed.

(** X21: [increaseIntensity] switches on one more core, unless all of
    them are on already, and keeps the number of cores. *)
Theorem increaseIntensity_cores (s : HeterogeneousScheduler) :
  length (activeCores_ (increaseIntensity s)) = length (activeCores_ s) /\
  getActiveCores (increaseIntensity s)
  = Z.min (getActiveCores s + 1) (Z.of_nat (length (activeCores_ s))).
Proof.
  unfold increaseIntensity, getActiveCores. cbn [currentIntensity_ activeCores_].
  pose proof (switch_on_first_spec (activeCores_ s)) as [Hlen Hcount].
  now rewrite Hlen, Hcount.
Qed.
End SchedFacts.

(** ** The neural step on the CPU *)

Module NpuFacts.
Import Word Npu.
Local Open Scope Z_scope.

Lemma to_byte_to_unit (b : Z) : 0 <= b < 256 -> to_byte (to_unit b) = b.
Proof.
  intros Hb.
  assert (Hall : forallb (fun b => to_byte (to_unit b) =? b) (map Z.of_nat (seq 0 256))
                 = true) by (vm_compute; reflexivity).
  rewrite forallb_forall in Hall. apply Z.eqb_eq, Hall.
  apply in_map_iff. exists (Z.to_nat b). split; [lia|]. apply in_seq. lia.
Qed.

Lemma map_to_byte_to_unit (bytes : list Z) :
  Forall is_byte bytes -> map to_byte (map to_unit bytes) = bytes.
Proof.
  induction 1 as [|b rest Hb _ IH]; [reflexivity|].
  cbn [map]. now rewrite to_byte_to_unit, IH.
Qed.

Lemma map_replicate {A B : Type} (f : A -> B) (k : nat) (x : A) :
  map f (replicate k x) = replicate k (f x).
Proof. induction k as [|k IH]; [reflexivity|]. cbn. now rewrite IH. Qed.

Lemma length_stateToTensor (state : list Z) :
  length (data (stateToTensor state)) = 3072%nat.
Proof.
  unfold stateToTensor. cbn [data].
  rewrite length_app, length_map, length_take, length_replicate. lia.
Qed.

(** X22: turning a state of bytes into a tensor and back loses nothing:
    the 2048 bytes that come back are the first 2048 bytes of the state,
    with zeros behind a shorter one. *)
Theorem state_tensor_round_trip (state : list Z) :
  Forall is_byte state ->
  tensorToState (stateToTensor state)
  = take 2048 state ++ replicate (2048 - length state) 0.
Proof.
  intros Hbytes. unfold tensorToState. rewrite length_stateToTensor.
  change (Nat.min 3072 2048) with 2048%nat.
  replace (2048 - 2048)%nat with 0%nat by lia.
  cbn [replicate]. rewrite app_nil_r.
  unfold stateToTensor. cbn [data].
  destruct (Nat.le_gt_cases 2048 (length state)) as [Hlong|Hshort].
  - rewrite take_app_le by (rewrite length_map, length_take; lia).
    replace (2048 - length state)%nat with 0%nat by lia.
    cbn [replicate]. rewrite app_nil_r.
    rewrite firstn_map, take_take.
    replace (Nat.min 2048 (Nat.min 3072 (length state))) with 2048%nat by lia.
    apply map_to_byte_to_unit. now apply Forall_take.
  - replace (Nat.min 3072 (length state)) with (length state) by lia.
    rewrite firstn_all.
    rewrite take_app_ge by (rewrite length_map; lia).
    rewrite length_map, take_replicate, map_app, map_replicate.
    rewrite map_to_byte_to_unit by exact Hbytes.
    rewrite (take_ge state) by lia.
    replace (Nat.min (2048 - length state) (3072 - length state))
      with (2048 - length state)%nat by lia.
    reflexivity.
Qed.

Lemma state_tensor_round_trip_witness :
  Forall is_byte [1; 128; 255] /\
  tensorToState (stateToTensor [1; 128; 255])
  = take 2048 [1; 128; 255] ++ replicate (2048 - length [1; 128; 255]) 0.
Proof.
  assert (H : Forall is_byte [1; 128; 255])
    by (repeat constructor; unfold is_byte; lia).
  exact (conj H (state_tensor_round_trip [1; 128; 255] H)).
Defined.

Lemma isValid_stateToTensor (state : list Z) : isValid (stateToTensor state) = true.
Proof.
  pose proof (length_stateToTensor state) as Hlen.
  unfold isValid, size.
  destruct (data (stateToTensor state)) as [|v rest]; [discriminate Hlen|].
  rewrite Hlen. reflexivity.
Qed.

Lemma length_convolution_loop (input : list F32.t) (coords : list (Z * Z)) :
  forall out,
  length (fold_left
            (fun out '(y, x) =>
               let dstIdx := y * 32 + x in
               if dstIdx <? Thermal.int_of_size (length out)
               then <[Z.to_nat dstIdx := pixel input y x]> out
               else out)
            coords out)
  = length out.
Proof.
  induction coords as [|[y x] rest IH]; intros out; [reflexivity|].
  cbn [fold_left]. rewrite IH. cbv zeta.
  destruct (y * 32 + x <? Thermal.int_of_size (length out));
    [apply length_insert|reflexivity].
Qed.

Lemma lookup_convolution_loop (input : list F32.t) (coords : list (Z * Z)) (j : nat) :
  Forall (fun '(y, x) => Z.to_nat (y * 32 + x) <> j) coords ->
  forall out,
  fold_left
    (fun out '(y, x) =>
       let dstIdx := y * 32 + x in
       if dstIdx <? Thermal.int_of_size (length out)
       then <[Z.to_nat dstIdx := pixel input y x]> out
       else out)
    coords out !! j
  = out !! j.
Proof.
  induction 1 as [|[y x] rest Hne _ IH]; intros out; [reflexivity|].
  cbn [fold_left]. rewrite IH. cbv zeta.
  destruct (y * 32 + x <? Thermal.int_of_size (length out)); [|reflexivity].
  now apply list_lookup_insert_ne.
Qed.

Lemma pixels_inside :
  List.Forall (fun '(y, x) => 1 <= y <= 30 /\ 1 <= x <= 30) pixels.
Proof.
  assert (Hall : forallb (fun '(y, x) => (1 <=? y) && (y <=? 30) && (1 <=? x) && (x <=? 30))
                   pixels = true) by (vm_compute; reflexivity).
  rewrite forallb_forall in Hall. apply List.Forall_forall. intros [y x] Hin.
  specialize (Hall (y, x) Hin). cbn in Hall.
  rewrite !andb_true_iff, !Z.leb_le in Hall. lia.
Qed.

Lemma lookup_map {A B : Type} (f : A -> B) (l : list A) :
  forall i, map f l !! i = option_map f (l !! i).
Proof. induction l as [|x l IH]; intros [|i]; cbn; auto. Qed.

Lemma softwareConvolution_border (input : Tensor) :
  length (data (softwareConvolution input empty_tensor)) = 1024%nat /\
  forall y x, 0 <= y < 32 -> 0 <= x < 32 ->
    y = 0 \/ y = 31 \/ x = 0 \/ x = 31 ->
    data (softwareConvolution input empty_tensor) !! Z.to_nat (y * 32 + x) = Some zero.
Proof.
  assert (Hstart : resize (32 * 32) (data empty_tensor) = replicate 1024 zero)
    by reflexivity.
  unfold softwareConvolution. cbn [data]. rewrite Hstart. split.
  - now rewrite length_convolution_loop, length_replicate.
  - intros y x Hy Hx Hborder. rewrite lookup_convolution_loop.
    + apply lookup_replicate_2. lia.
    + eapply List.Forall_impl; [|exact pixels_inside].
      intros [y' x'] Hin. lia.
Qed.

Lemma tensorToState_1024 (tensor : Tensor) :
  length (data tensor) = 1024%nat ->
  tensorToState tensor = map to_byte (data tensor) ++ replicate 1024 0.
Proof.
  intros Hlen. unfold tensorToState. rewrite Hlen.
  change (Nat.min 1024 2048) with 1024%nat.
  change (2048 - 1024)%nat with 1024%nat.
  now rewrite take_ge by lia.
Qed.

Lemma to_byte_zero : to_byte zero = 0.
Proof. reflexivity. Qed.

(** What the CPU path gives: a result of 2048 bytes whose image border and
    second half are zero; the integration is left as it was. *)
Lemma cpu_step (n : NPUIntegration) (vmState : list Z) :
  fallbackAdapter_ n = true ->
  isNPUAvailable n && negb (usesFallback_ n) = false ->
  exists result,
    processNeuralStep n vmState = (Some result, n) /\
    length result = 2048%nat /\
    (forall y x, 0 <= y < 32 -> 0 <= x < 32 ->
       y = 0 \/ y = 31 \/ x = 0 \/ x = 31 ->
       result !! Z.to_nat (y * 32 + x) = Some 0) /\
    (forall i, (1024 <= i < 2048)%nat -> result !! i = Some 0).
Proof.
  intros Hcpu Hnpu.
  pose proof (softwareConvolution_border (stateToTensor vmState)) as [Hlen Hzero].
  assert (Hrun : processNeuralStep n vmState
                 = (Some (tensorToState
                            (softwareConvolution (stateToTensor vmState) empty_tensor)), n)).
  { unfold processNeuralStep, executeConvolution. rewrite Hnpu.
    assert (Hfall : fallback_convolution n (stateToTensor vmState) empty_tensor
                    = (true, softwareConvolution (stateToTensor vmState) empty_tensor, n)).
    { unfold fallback_convolution, cpu_executeConvolution.
      now rewrite Hcpu, isValid_stateToTensor. }
    destruct (primaryAdapter_ n); now rewrite Hfall. }
  rewrite tensorToState_1024 in Hrun by exact Hlen.
  revert Hrun Hlen Hzero.
  generalize (data (softwareConvolution (stateToTensor vmState) empty_tensor)).
  intros out Hrun Hlen Hzero.
  exists (map to_byte out ++ replicate 1024 0).
  split; [exact Hrun|]. split; [|split].
  - rewrite length_app, length_map, Hlen, length_replicate. reflexivity.
  - intros y x Hy Hx Hborder.
    rewrite lookup_app_l by (rewrite length_map, Hlen; lia).
    rewrite lookup_map, (Hzero y x Hy Hx Hborder). cbn [option_map].
    now rewrite to_byte_zero.
  - intros i Hi.
    rewrite lookup_app_r by (rewrite length_map, Hlen; lia).
    rewrite length_map, Hlen. apply lookup_replicate_2. lia.
Qed.



Lemma take_4_zero (result : list Z) :
  (4 <= length result)%nat ->
  (forall i, (i < 4)%nat -> result !! i = Some 0) ->
  take 4 result = [0; 0; 0; 0].
Proof.
  intros Hlen Hzero.
  destruct result as [|b0 [|b1 [|b2 [|b3 rest]]]]; cbn [length] in Hlen; try lia.
  pose proof (Hzero 0%nat ltac:(lia)) as H0. pose proof (Hzero 1%nat ltac:(lia)) as H1.
  pose proof (Hzero 2%nat ltac:(lia)) as H2. pose proof (Hzero 3%nat ltac:(lia)) as H3.
  cbn in H0, H1, H2, H3. now simplify_eq.
Qed.

(** X24: a miner whose neural step runs on the CPU never skips: each hash
    moves the counter forward by exactly one, since the first four bytes
    of every CPU result lie on the border of the image. *)
Theorem cpu_backend_never_skips (to_uint32_vector : list Z -> list Z)
    (n : NPUIntegration) (m : Miner.MobileXMiner) (header : list Z) :
  fallbackAdapter_ n = true ->
  isNPUAvailable n && negb (usesFallback_ n) = false ->
  Miner.npu_ m = Some (backend_of n) ->
  Miner.miner_after (Miner.computeMobileXHash to_uint32_vector m header)
  = match Miner.randomxVM_ m with
    | Some _ => Miner.fetch_add 1 m
    | None => m
    end.
Proof.
  intros Hcpu Havail Hnpu. unfold Miner.computeMobileXHash.
  destruct (Miner.randomxVM_ m) as [vm|]; [|reflexivity].
  destruct (Miner.shouldRunNPU (Miner.fetch_add 1 m)); [|reflexivity].
  unfold Miner.runNPUStep.
  change (Miner.npu_ (Miner.fetch_add 1 m)) with (Miner.npu_ m). rewrite Hnpu.
  unfold backend_of at 1. cbn [Miner.processNeuralStep].
  destruct (cpu_step n (Miner.npu_state (Miner.hashesCompleted_ (Miner.fetch_add 1 m)))
              Hcpu Havail)
    as [result [Hrun [Hlen [Hborder _]]]].
  rewrite Hrun. cbn [fst].
  replace (4 <=? length result)%nat with true by (symmetry; apply Nat.leb_le; lia).
  rewrite take_4_zero.
  - cbn [Miner.miner_after]. unfold Miner.fetch_add at 1.
    change (le_value [0; 0; 0; 0] mod 1000) with 0.
    rewrite Z.add_0_r. unfold Miner.fetch_add, Miner.set_hashes, wrap64.
    cbn [Miner.hashesCompleted_ Miner.mining_ Miner.currentIntensity_ Miner.npuEnabled_
         Miner.npuInterval_ Miner.arm64_ Miner.npu_ Miner.randomxVM_].
    now rewrite Z.mod_mod by lia.
  - lia.
  - intros i Hi.
    specialize (Hborder 0 (Z.of_nat i) ltac:(lia) ltac:(lia) ltac:(lia)).
    now rewrite Z.mul_0_l, Z.add_0_l, Nat2Z.id in Hborder.
Qed.

Lemma cpu_backend_never_skips_witness :
  let n := miner_integration (Some absent_adapter) in
  let m := Miner.set_hashes (Miner.initialize true (backend_of n) Miner.demo_cache
                               Miner.new_miner) 149 in
  fallbackAdapter_ n = true /\
  isNPUAvailable n && negb (usesFallback_ n) = false /\
  Miner.npu_ m = Some (backend_of n) /\
  Miner.miner_after (Miner.computeMobileXHash Miner.split_words m [1; 2; 3])
  = match Miner.randomxVM_ m with
    | Some _ => Miner.fetch_add 1 m
    | None => m
    end.
Proof.
  intros n m.
  assert (H1 : fallbackAdapter_ n = true) by reflexivity.
  assert (H2 : isNPUAvailable n && negb (usesFallback_ n) = false) by reflexivity.
  assert (H3 : Miner.npu_ m = Some (backend_of n)) by reflexivity.
  exact (conj H1 (conj H2 (conj H3
    (cpu_backend_never_skips Miner.split_words n m [1; 2; 3] H1 H2 H3)))).
Defined.

(** X25: when the NPU came up, [MobileXMiner::initialize] creates no CPU
    fallback; the first convolution the NPU fails then makes the neural
    step fail, and every later step fails as well without the NPU being
    tried again. *)
Theorem npu_failure_is_permanent (a : NPUAdapter) (vmState : list Z) :
  adapter_initialize a = true -> isAvailable a = true ->
  fst (adapter_executeConvolution a (stateToTensor vmState) empty_tensor) = false ->
  exists n',
    processNeuralStep (miner_integration (Some a)) vmState = (None, n') /\
    usesFallback_ n' = true /\
    forall later, processNeuralStep n' later = (None, n').
Proof.
  intros Hinit Havail Hfail.
  exists (Integration (Some a) false true true).
  unfold miner_integration, initializeNNAPI. rewrite Hinit.
  unfold isNPUAvailable at 1. cbn [snd npuAvailable_ primaryAdapter_ andb].
  rewrite Havail. repeat split.
  - unfold processNeuralStep, executeConvolution, isNPUAvailable.
    cbn [primaryAdapter_ npuAvailable_ usesFallback_ fallbackAdapter_ andb negb].
    rewrite Havail.
    destruct (adapter_executeConvolution a (stateToTensor vmState) empty_tensor)
      as [success output].
    cbn [fst] in Hfail. rewrite Hfail. reflexivity.
  - intros later. unfold processNeuralStep, executeConvolution, isNPUAvailable.
    cbn [primaryAdapter_ npuAvailable_ usesFallback_ fallbackAdapter_ andb negb].
    rewrite Havail. reflexivity.
Qed.

Lemma npu_failure_is_permanent_witness :
  adapter_initialize failing_adapter = true /\ isAvailable failing_adapter = true /\
  fst (adapter_executeConvolution failing_adapter (stateToTensor [7]) empty_tensor) = false /\
  exists n',
    processNeuralStep (miner_integration (Some failing_adapter)) [7] = (None, n') /\
    usesFallback_ n' = true /\
    forall later, processNeuralStep n' later = (None, n').
Proof.
  assert (H1 : adapter_initialize failing_adapter = true) by reflexivity.
  assert (H2 : isAvailable failing_adapter = true) by reflexivity.
  assert (H3 : fst (adapter_executeConvolution failing_adapter (stateToTensor [7])
                      empty_tensor) = false) by reflexivity.
  exact (conj H1 (conj H2 (conj H3 (npu_failure_is_permanent failing_adapter [7] H1 H2 H3)))).
Defined.
End NpuFacts.
